(** * Old access keys: reminder and clean-up lambda

    A shallow embedding of the lambda's own code (package [main]:
    [HandleLabdaEvent], [getDefaultedUsers], [listAllUsers],
    [getUserEmailTag], [listAllAccessKeys], [isKeyOld], [deleteKeys],
    [sendEmail]) and the properties of its workflow.

    The identity service, the mail service, the process environment and the
    wall clock are external: they are gathered in a record [World] of
    oracles.  The program is written in a small monad that counts the
    readings of the clock and collects the chronological log of the service
    calls and printed lines, and that can stop with a run-time panic (nil
    pointer dereference) or because the iteration bound of an unbounded
    [for] loop is used up. *)

From Stdlib Require Import ZArith List String Ascii Bool Lia.
From Stdlib Require Import DecimalString.
From Stdlib Require DecimalPos.
Import ListNotations.

Local Open Scope string_scope.
Local Open Scope list_scope.
Local Open Scope Z_scope.

(** ** Time and durations (package [time]) *)

(** An instant is a count of nanoseconds on the wall clock; a [Duration] is a
    signed 64-bit count of nanoseconds, whose arithmetic wraps around. *)
Definition Time : Type := Z.

Definition Duration : Type := Z.

Definition wrap64 (z : Z) : Z := (z + 2 ^ 63) mod 2 ^ 64 - 2 ^ 63.

Definition Nanosecond : Duration := 1.

Definition Second : Duration := 1000000000 * Nanosecond.

Definition Hour : Duration := 3600 * Second.

(** [a * b] on [Duration] operands that are not both constants. *)
Definition Duration_mul (a b : Duration) : Duration := wrap64 (a * b).

(** [time.Duration(n)] for an [int] n. *)
Definition Duration_of_int (n : Z) : Duration := wrap64 n.

Definition Time_Add (t : Time) (d : Duration) : Time := t + d.

Definition Time_Before (t u : Time) : bool := t <? u.

(** [fmt.Sprintf("%d", n)]. *)
Definition Sprintf_d (n : Z) : string := NilZero.string_of_int (Z.to_int n).

(** ** Errors and results *)

(** An error value, identified with its message. *)
Definition error : Type := string.

(** [fmt.Errorf(prefix + "%w", err)]. *)
Definition Errorf_w (prefix : string) (err : error) : error :=
  (prefix ++ err)%string.

(** The pair [(result, err)] of a client operation: [err] is nil exactly when
    the result is there. *)
Inductive Result (A : Type) : Type :=
| Ok (a : A)
| Err (err : error).

Arguments Ok {A} a.
Arguments Err {A} err.

(** ** Service types (packages [iam/types], [iam], [ses]) *)

(** Fields of pointer type are options; only the fields the program touches
    are kept for [User]; an [AccessKeyMetadata] is carried whole. *)
Module User.
Record t : Type := mk { UserName : option string }.
End User.

Module Tag.
Record t : Type := mk { Key : option string; Value : option string }.
End Tag.

Module AccessKeyMetadata.
Record t : Type := mk {
  AccessKeyId : option string;
  CreateDate : option Time;
  Status : string;
  UserName : option string
}.
End AccessKeyMetadata.

Module ListUsersInput.
Record t : Type := mk { Marker : option string }.
End ListUsersInput.

Module ListUsersOutput.
Record t : Type := mk { Users : list User.t; Marker : option string }.
End ListUsersOutput.

Module ListUserTagsInput.
Record t : Type := mk { UserName : option string; Marker : option string }.
End ListUserTagsInput.

Module ListUserTagsOutput.
Record t : Type := mk { Tags : list Tag.t; Marker : option string }.
End ListUserTagsOutput.

Module ListAccessKeysInput.
Record t : Type := mk { UserName : option string; Marker : option string }.
End ListAccessKeysInput.

Module ListAccessKeysOutput.
Record t : Type := mk {
  AccessKeyMetadata : list AccessKeyMetadata.t;
  Marker : option string
}.
End ListAccessKeysOutput.

Module DeleteAccessKeyInput.
Record t : Type := mk { AccessKeyId : string; UserName : string }.
End DeleteAccessKeyInput.

(** The output of a deletion, kept as the text [fmt.Println] shows for it. *)
Module DeleteAccessKeyOutput.
Record t : Type := mk { ResultMetadata : string }.
End DeleteAccessKeyOutput.

(** [Destination.ToAddresses], [Message.Body.Text.Data],
    [Message.Subject.Data] and [Source] of a [ses.SendEmailInput]. *)
Module SendEmailInput.
Record t : Type := mk {
  ToAddresses : list string;
  Body_Text_Data : string;
  Subject_Data : string;
  Source : string
}.
End SendEmailInput.

(** ** The notice record of package [main] *)

Module defaultedUser.
Record t : Type := mk {
  UserName : string;
  Email : string;
  Key : AccessKeyMetadata.t;
  OlderThan : string
}.
End defaultedUser.

(** ** The outside world *)

(** The services answer a request as a function of the request: the account
    is read as a snapshot.  [Now k] is what the [k]-th reading of the clock
    returns. *)
Record World : Type := mkWorld {
  LoadDefaultConfig : option error;
  Getenv : string -> string;
  Now : nat -> Time;
  ListUsers : ListUsersInput.t -> Result ListUsersOutput.t;
  ListUserTags : ListUserTagsInput.t -> Result ListUserTagsOutput.t;
  ListAccessKeys : ListAccessKeysInput.t -> Result ListAccessKeysOutput.t;
  DeleteAccessKey : DeleteAccessKeyInput.t -> Result DeleteAccessKeyOutput.t;
  SendEmail : SendEmailInput.t -> option error
}.

(** What a run does that is visible outside, in the order it is done. *)
Inductive Event : Type :=
| EvListUsers (i : ListUsersInput.t) (r : Result ListUsersOutput.t)
| EvListUserTags (i : ListUserTagsInput.t) (r : Result ListUserTagsOutput.t)
| EvListAccessKeys (i : ListAccessKeysInput.t)
    (r : Result ListAccessKeysOutput.t)
| EvDeleteAccessKey (i : DeleteAccessKeyInput.t)
    (r : Result DeleteAccessKeyOutput.t)
| EvSendEmail (i : SendEmailInput.t) (r : option error)
| EvPrintln (line : string).

(** ** The monad of the program *)

Inductive outcome (A : Type) : Type :=
| Done (a : A)
| Panic
| OutOfFuel.

Arguments Done {A} a.
Arguments Panic {A}.
Arguments OutOfFuel {A}.

(** What a computation leaves behind: how it ended, how many times the clock
    has been read by then, and the events it produced, oldest first. *)
Record Run (A : Type) : Type := mkRun {
  out : outcome A;
  reads : nat;
  log : list Event
}.

Arguments mkRun {A} out reads log.
Arguments out {A} r.
Arguments reads {A} r.
Arguments log {A} r.

(** A computation starts from the number of clock readings made before it. *)
Definition M (A : Type) : Type := nat -> Run A.

Definition ret {A : Type} (a : A) : M A := fun t => mkRun (Done a) t [].

Definition bind {A B : Type} (m : M A) (k : A -> M B) : M B :=
  fun t =>
    let r := m t in
    match out r with
    | Done a =>
        let r' := k a (reads r) in
        mkRun (out r') (reads r') (log r ++ log r')
    | Panic => mkRun Panic (reads r) (log r)
    | OutOfFuel => mkRun OutOfFuel (reads r) (log r)
    end.

Declare Scope go_scope.
Delimit Scope go_scope with go.

Notation "x <- m ;; k" := (bind m (fun x => k))
  (at level 61, m at next level, right associativity) : go_scope.
Notation "' p <- m ;; k" := (bind m (fun x => match x with p => k end))
  (at level 61, p pattern, m at next level, right associativity) : go_scope.
Notation "m ;; k" := (bind m (fun _ => k))
  (at level 61, right associativity) : go_scope.

Local Open Scope go_scope.

Definition panic {A : Type} : M A := fun t => mkRun Panic t [].

Definition out_of_fuel {A : Type} : M A := fun t => mkRun OutOfFuel t [].

(** [*p]: a nil pointer panics. *)
Definition deref {A : Type} (p : option A) : M A :=
  match p with
  | Some a => ret a
  | None => panic
  end.

Definition emit (e : Event) : M unit := fun t => mkRun (Done tt) t [e].

(** [time.Now()]. *)
Definition time_Now (w : World) : M Time :=
  fun t => mkRun (Done (Now w t)) (S t) [].

Definition newline : string := String (ascii_of_nat 10) EmptyString.

(** [fmt.Println(operands...)]: the operands separated by spaces, then a
    newline. *)
Definition Println (operands : list string) : M unit :=
  emit (EvPrintln (String.concat " " operands ++ newline)%string).

Definition call_ListUsers (w : World) (i : ListUsersInput.t)
  : M (Result ListUsersOutput.t) :=
  emit (EvListUsers i (ListUsers w i));; ret (ListUsers w i).

Definition call_ListUserTags (w : World) (i : ListUserTagsInput.t)
  : M (Result ListUserTagsOutput.t) :=
  emit (EvListUserTags i (ListUserTags w i));; ret (ListUserTags w i).

Definition call_ListAccessKeys (w : World) (i : ListAccessKeysInput.t)
  : M (Result ListAccessKeysOutput.t) :=
  emit (EvListAccessKeys i (ListAccessKeys w i));; ret (ListAccessKeys w i).

Definition call_DeleteAccessKey (w : World) (i : DeleteAccessKeyInput.t)
  : M (Result DeleteAccessKeyOutput.t) :=
  emit (EvDeleteAccessKey i (DeleteAccessKey w i));; ret (DeleteAccessKey w i).

Definition call_SendEmail (w : World) (i : SendEmailInput.t)
  : M (option error) :=
  emit (EvSendEmail i (SendEmail w i));; ret (SendEmail w i).

(** ** The program *)

(** [key.CreateDate.Add(d).Before(time.Now())]: the receiver is evaluated
    (and the pointer followed) before the clock is read. *)
Definition createdBefore (w : World) (key : AccessKeyMetadata.t)
  (d : Duration) : M bool :=
  created <- deref (AccessKeyMetadata.CreateDate key);;
  now <- time_Now w;;
  ret (Time_Before (Time_Add created d) now).

(** [isKeyOld(key, olderThan...)]. *)
Definition isKeyOld (w : World) (key : AccessKeyMetadata.t)
  (olderThan : list Z) : M (bool * string) :=
  first <- match olderThan with
           | n :: _ =>
               createdBefore w key
                 (Duration_mul (Duration_mul (Duration_of_int n) 24) Hour)
           | [] => ret false
           end;;
  if first then ret (true, Sprintf_d (hd 0 olderThan))
  else
    second <- createdBefore w key (57 * 24 * Hour);;
    if second then ret (true, "57")
    else
      third <- createdBefore w key (50 * 24 * Hour);;
      if third then ret (true, "50")
      else ret (false, "").

(** The loop of [listAllUsers]; [fuel] bounds its iterations. *)
Fixpoint listAllUsers_loop (w : World) (fuel : nat)
  (input : ListUsersInput.t) (users : list User.t)
  : M (list User.t * option error) :=
  match fuel with
  | O => out_of_fuel
  | S fuel' =>
      r <- call_ListUsers w input;;
      match r with
      | Err err => ret ([], Some (Errorf_w "error listing users: " err))
      | Ok result =>
          let users := users ++ ListUsersOutput.Users result in
          match ListUsersOutput.Marker result with
          | None => ret (users, None)
          | Some _ =>
              listAllUsers_loop w fuel'
                (ListUsersInput.mk (ListUsersOutput.Marker result)) users
          end
      end
  end.

Definition listAllUsers (w : World) (fuel : nat)
  : M (list User.t * option error) :=
  listAllUsers_loop w fuel (ListUsersInput.mk None) [].

(** The scan of one page of tags in [getUserEmailTag]: the value of the first
    tag whose key is [email], if there is one. *)
Fixpoint scanTags (tags : list Tag.t) : M (option string) :=
  match tags with
  | [] => ret None
  | tag :: rest =>
      key <- deref (Tag.Key tag);;
      if String.eqb key "email" then
        value <- deref (Tag.Value tag);;
        ret (Some value)
      else scanTags rest
  end.

Fixpoint getUserEmailTag_loop (w : World) (fuel : nat)
  (input : ListUserTagsInput.t) : M (string * option error) :=
  match fuel with
  | O => out_of_fuel
  | S fuel' =>
      r <- call_ListUserTags w input;;
      match r with
      | Err err => ret ("", Some (Errorf_w "error listing tags: " err))
      | Ok result =>
          found <- scanTags (ListUserTagsOutput.Tags result);;
          match found with
          | Some value => ret (value, None)
          | None =>
              match ListUserTagsOutput.Marker result with
              | None => ret ("", None)
              | Some _ =>
                  getUserEmailTag_loop w fuel'
                    (ListUserTagsInput.mk (ListUserTagsInput.UserName input)
                       (ListUserTagsOutput.Marker result))
              end
          end
      end
  end.

Definition getUserEmailTag (w : World) (fuel : nat) (user : User.t)
  : M (string * option error) :=
  getUserEmailTag_loop w fuel
    (ListUserTagsInput.mk (User.UserName user) None).

Fixpoint listAllAccessKeys_loop (w : World) (fuel : nat)
  (input : ListAccessKeysInput.t) (keys : list AccessKeyMetadata.t)
  : M (list AccessKeyMetadata.t * option error) :=
  match fuel with
  | O => out_of_fuel
  | S fuel' =>
      r <- call_ListAccessKeys w input;;
      match r with
      | Err err => ret ([], Some (Errorf_w "error listing access keys: " err))
      | Ok result =>
          let keys := keys ++ ListAccessKeysOutput.AccessKeyMetadata result in
          match ListAccessKeysOutput.Marker result with
          | None => ret (keys, None)
          | Some _ =>
              listAllAccessKeys_loop w fuel'
                (ListAccessKeysInput.mk (ListAccessKeysInput.UserName input)
                   (ListAccessKeysOutput.Marker result)) keys
          end
      end
  end.

Definition listAllAccessKeys (w : World) (fuel : nat) (user : User.t)
  : M (list AccessKeyMetadata.t * option error) :=
  listAllAccessKeys_loop w fuel
    (ListAccessKeysInput.mk (User.UserName user) None) [].

(** The inner loop of [getDefaultedUsers], over the keys of one user. *)
Fixpoint getDefaultedUsers_keys (w : World) (user : User.t) (email : string)
  (keys : list AccessKeyMetadata.t) (defaultedUsers : list defaultedUser.t)
  : M (list defaultedUser.t) :=
  match keys with
  | [] => ret defaultedUsers
  | key :: rest =>
      '(old, days) <- isKeyOld w key [];;
      if old then
        id <- deref (AccessKeyMetadata.AccessKeyId key);;
        name <- deref (User.UserName user);;
        Println ["Access key"; id; "for user"; name;
                 "is older than 60 days."];;
        userName <- deref (User.UserName user);;
        getDefaultedUsers_keys w user email rest
          (defaultedUsers ++ [defaultedUser.mk userName email key days])
      else getDefaultedUsers_keys w user email rest defaultedUsers
  end.

(** The outer loop of [getDefaultedUsers], over the users. *)
Fixpoint getDefaultedUsers_users (w : World) (fuel : nat)
  (users : list User.t) (defaultedUsers : list defaultedUser.t)
  : M (list defaultedUser.t * option error) :=
  match users with
  | [] => ret (defaultedUsers, None)
  | user :: rest =>
      '(email, err) <- getUserEmailTag w fuel user;;
      match err with
      | Some e => ret ([], Some e)
      | None =>
          if String.eqb email "" then
            getDefaultedUsers_users w fuel rest defaultedUsers
          else
            '(keys, err) <- listAllAccessKeys w fuel user;;
            match err with
            | Some e => ret ([], Some e)
            | None =>
                defaultedUsers <-
                  getDefaultedUsers_keys w user email keys defaultedUsers;;
                getDefaultedUsers_users w fuel rest defaultedUsers
            end
      end
  end.

Definition getDefaultedUsers (w : World) (fuel : nat)
  : M (list defaultedUser.t * option error) :=
  '(users, err) <- listAllUsers w fuel;;
  match err with
  | Some e => ret ([], Some e)
  | None => getDefaultedUsers_users w fuel users []
  end.

(** [deleteKeys]: its named result [Keys] is never assigned. *)
Definition deleteKeys (w : World) (accessKeyId userName : string)
  : M (list AccessKeyMetadata.t * option error) :=
  r <- call_DeleteAccessKey w (DeleteAccessKeyInput.mk accessKeyId userName);;
  match r with
  | Err err =>
      Println ["Error deleting access key,"; err];;
      ret ([], Some err)
  | Ok result =>
      Println [DeleteAccessKeyOutput.ResultMetadata result];;
      ret ([], None)
  end.

Definition sendEmail (w : World) (toEmail fromEmail days : string)
  : M (option error) :=
  let input :=
    SendEmailInput.mk [toEmail]
      ("Your secret keys are older than " ++ days
         ++ " days and will be deleted.")%string
      "Secret Key Expiration Warning"
      fromEmail in
  r <- call_SendEmail w input;;
  match r with
  | Some err =>
      Println ["Error sending email,"; err];;
      ret (Some err)
  | None =>
      Println ["Email sent successfully."];;
      ret None
  end.

(** The loop of [HandleLabdaEvent] over the notices. *)
Fixpoint HandleLabdaEvent_loop (w : World) (fromAddress dryRun : string)
  (defaultedUsers : list defaultedUser.t) : M unit :=
  match defaultedUsers with
  | [] => ret tt
  | user :: rest =>
      sendEmail w (defaultedUser.Email user) fromAddress
        (defaultedUser.OlderThan user);;
      '(isOld, _) <- isKeyOld w (defaultedUser.Key user) [100];;
      (if isOld then
         if String.eqb dryRun "--dry-run" then
           id <- deref
                   (AccessKeyMetadata.AccessKeyId (defaultedUser.Key user));;
           deleteKeys w id (defaultedUser.UserName user);;
           ret tt
         else ret tt
       else ret tt);;
      HandleLabdaEvent_loop w fromAddress dryRun rest
  end.

(** [HandleLabdaEvent]: the value returned to the trigger is the error. *)
Definition HandleLabdaEvent (w : World) (fuel : nat) : M (option error) :=
  match LoadDefaultConfig w with
  | Some err =>
      Println
        ["Couldn't load configuration. Have you set up your AWS account?"];;
      Println [err];;
      ret None
  | None =>
      let fromAddress := Getenv w "EMAIL_FROM_ADDRESS" in
      let dryRun := Getenv w "DRY_RUN" in
      '(defaultedUsers, err) <- getDefaultedUsers w fuel;;
      match err with
      | Some e =>
          Println ["Error getting users and their keys:"; e];;
          ret None
      | None =>
          HandleLabdaEvent_loop w fromAddress dryRun defaultedUsers;;
          ret None
      end
  end.

(** ** Reading a run *)

(** The notification requests of a log, oldest first. *)
Definition sends (l : list Event) : list SendEmailInput.t :=
  flat_map (fun e => match e with EvSendEmail i _ => [i] | _ => [] end) l.

(** The deletion requests of a log, oldest first. *)
Definition deletes (l : list Event) : list DeleteAccessKeyInput.t :=
  flat_map (fun e => match e with EvDeleteAccessKey i _ => [i] | _ => [] end) l.

(** The names whose access keys a log asks the service to list. *)
Definition keyListings (l : list Event) : list (option string) :=
  flat_map
    (fun e =>
       match e with
       | EvListAccessKeys i _ => [ListAccessKeysInput.UserName i]
       | _ => []
       end) l.

(** A listing call of users, tags or access keys that returned an error. *)
Definition listing_failed (e : Event) : bool :=
  match e with
  | EvListUsers _ (Err _) => true
  | EvListUserTags _ (Err _) => true
  | EvListAccessKeys _ (Err _) => true
  | _ => false
  end.

(** The notice list a run of the enumeration hands back. *)
Definition notices (r : Run (list defaultedUser.t * option error))
  : list defaultedUser.t :=
  match out r with
  | Done (l, _) => l
  | _ => []
  end.

(** The request [sendEmail] builds for a notice. *)
Definition notification (fromAddress : string) (user : defaultedUser.t)
  : SendEmailInput.t :=
  SendEmailInput.mk [defaultedUser.Email user]
    ("Your secret keys are older than " ++ defaultedUser.OlderThan user
       ++ " days and will be deleted.")%string
    "Secret Key Expiration Warning"
    fromAddress.

(** ** Ages and the classification the specification describes *)

Definition Day : Duration := 24 * Hour.

(** The age of a credential created at [created], read at [now]. *)
Definition age (now created : Time) : Z := now - created.

(** "age exceeds [n] days". *)
Definition exceeds (now created : Time) (n : Z) : bool :=
  n * Day <? age now created.

(** The chain of the specification, first match wins: an override that is
    supplied and exceeded, then 57 days, then 50 days, else not old. *)
Definition classify_spec (now created : Time) (override : option Z)
  : bool * string :=
  match override with
  | Some n =>
      if exceeds now created n then (true, Sprintf_d n)
      else if exceeds now created 57 then (true, "57")
      else if exceeds now created 50 then (true, "50")
      else (false, "")
  | None =>
      if exceeds now created 57 then (true, "57")
      else if exceeds now created 50 then (true, "50")
      else (false, "")
  end.

(** The threshold label of a key in the enumeration, if it is old. *)
Definition label (now : Time) (key : AccessKeyMetadata.t) : option string :=
  match AccessKeyMetadata.CreateDate key with
  | Some created =>
      if exceeds now created 57 then Some "57"
      else if exceeds now created 50 then Some "50"
      else None
  | None => None
  end.

(** The deletion rule of the specification for one notice: older than 100
    days and the flag equal to the sentinel. *)
Definition deletion_spec (now created : Time) (dryRun : string) : bool :=
  exceeds now created 100 && String.eqb dryRun "--dry-run".

(** The deletion request the handler issues for a notice, as the code
    decides it: the key is older than 50 days and the flag is the
    sentinel. *)
Definition deletionOf (now : Time) (dryRun : string) (d : defaultedUser.t)
  : list DeleteAccessKeyInput.t :=
  match AccessKeyMetadata.CreateDate (defaultedUser.Key d),
        AccessKeyMetadata.AccessKeyId (defaultedUser.Key d) with
  | Some created, Some id =>
      if exceeds now created 50 && String.eqb dryRun "--dry-run"
      then [DeleteAccessKeyInput.mk id (defaultedUser.UserName d)]
      else []
  | _, _ => []
  end.

(** The clock shows [now] at every reading of a run. *)
Definition frozen (w : World) (now : Time) : Prop :=
  forall k : nat, Now w k = now.

(** ** Conditions on the answers of the services *)

Definition user_populated (u : User.t) : Prop := User.UserName u <> None.

Definition tag_populated (g : Tag.t) : Prop :=
  Tag.Key g <> None /\ Tag.Value g <> None.

Definition key_populated (k : AccessKeyMetadata.t) : Prop :=
  AccessKeyMetadata.AccessKeyId k <> None
  /\ AccessKeyMetadata.CreateDate k <> None.

(** Every record a listing call returns has the fields the program follows:
    user name, tag key and value, access key id and creation date. *)
Definition populated (w : World) : Prop :=
  (forall i r, ListUsers w i = Ok r ->
     Forall user_populated (ListUsersOutput.Users r))
  /\ (forall i r, ListUserTags w i = Ok r ->
        Forall tag_populated (ListUserTagsOutput.Tags r))
  /\ (forall i r, ListAccessKeys w i = Ok r ->
        Forall key_populated (ListAccessKeysOutput.AccessKeyMetadata r)).

(** Following the markers from [m], the listing of users ends (with a last
    page or an error) within [n] calls. *)
Fixpoint usersEnd (w : World) (n : nat) (m : option string) : Prop :=
  match n with
  | O => False
  | S n' =>
      match ListUsers w (ListUsersInput.mk m) with
      | Err _ => True
      | Ok r =>
          match ListUsersOutput.Marker r with
          | None => True
          | Some _ => usersEnd w n' (ListUsersOutput.Marker r)
          end
      end
  end.

Fixpoint tagsEnd (w : World) (n : nat) (u m : option string) : Prop :=
  match n with
  | O => False
  | S n' =>
      match ListUserTags w (ListUserTagsInput.mk u m) with
      | Err _ => True
      | Ok r =>
          match ListUserTagsOutput.Marker r with
          | None => True
          | Some _ => tagsEnd w n' u (ListUserTagsOutput.Marker r)
          end
      end
  end.

Fixpoint keysEnd (w : World) (n : nat) (u m : option string) : Prop :=
  match n with
  | O => False
  | S n' =>
      match ListAccessKeys w (ListAccessKeysInput.mk u m) with
      | Err _ => True
      | Ok r =>
          match ListAccessKeysOutput.Marker r with
          | None => True
          | Some _ => keysEnd w n' u (ListAccessKeysOutput.Marker r)
          end
      end
  end.

(** Every listing of the account ends within [n] pages. *)
Definition paginated (w : World) (n : nat) : Prop :=
  usersEnd w n None
  /\ (forall u, tagsEnd w n u None)
  /\ (forall u, keysEnd w n u None).

(** The listing of users answers, from marker [m] on, the pages [pages] one
    after the other: a marker on all of them but the last. *)
Fixpoint usersPages (w : World) (m : option string)
  (pages : list (list User.t)) : Prop :=
  match pages with
  | [] => False
  | [page] =>
      ListUsers w (ListUsersInput.mk m) = Ok (ListUsersOutput.mk page None)
  | page :: more =>
      exists next,
        ListUsers w (ListUsersInput.mk m)
        = Ok (ListUsersOutput.mk page (Some next))
        /\ usersPages w (Some next) more
  end.

Fixpoint keysPages (w : World) (u m : option string)
  (pages : list (list AccessKeyMetadata.t)) : Prop :=
  match pages with
  | [] => False
  | [page] =>
      ListAccessKeys w (ListAccessKeysInput.mk u m)
      = Ok (ListAccessKeysOutput.mk page None)
  | page :: more =>
      exists next,
        ListAccessKeys w (ListAccessKeysInput.mk u m)
        = Ok (ListAccessKeysOutput.mk page (Some next))
        /\ keysPages w u (Some next) more
  end.

(** The tags of [name] hold no usable address: every tag whose key is
    [email], on any page, has the empty string as value.  A tag set without
    an [email] key is the case where no tag is concerned. *)
Definition noEmail (w : World) (name : option string) : Prop :=
  forall m r g,
    ListUserTags w (ListUserTagsInput.mk name m) = Ok r ->
    In g (ListUserTagsOutput.Tags r) ->
    Tag.Key g = Some "email" -> Tag.Value g = Some "".

(** The name a notice carries for [user]. *)
Definition userName (user : User.t) : string :=
  match User.UserName user with
  | Some name => name
  | None => ""
  end.

(** One notice for every key of [keys] that [label] finds old, in the order
    of [keys], with the name, the address, the key and its label. *)
Definition keyNotices (now : Time) (name email : string)
  (keys : list AccessKeyMetadata.t) : list defaultedUser.t :=
  flat_map
    (fun key =>
       match label now key with
       | Some days => [defaultedUser.mk name email key days]
       | None => []
       end) keys.

(** The notices the enumeration owes to one user, read off the calls the
    program makes for it: none without an address, else those of the keys
    that [listAllAccessKeys] returns for it. *)
Definition noticesOf (w : World) (fuel : nat) (now : Time) (user : User.t)
  : list defaultedUser.t :=
  match out (getUserEmailTag w fuel user O) with
  | Done (email, None) =>
      if String.eqb email "" then []
      else
        match out (listAllAccessKeys w fuel user O) with
        | Done (keys, None) => keyNotices now (userName user) email keys
        | _ => []
        end
  | _ => []
  end.

(** The same world with another mail service. *)
Definition with_SendEmail (w : World)
  (send : SendEmailInput.t -> option error) : World :=
  mkWorld (LoadDefaultConfig w) (Getenv w) (Now w) (ListUsers w)
    (ListUserTags w) (ListAccessKeys w) (DeleteAccessKey w) send.

(** ** Concrete accounts *)

(** An instant of the clock and the instant [n] days before it. *)
Definition today : Time := 1700000000 * Second.

Definition daysAgo (n : Z) : Time := today - n * Day.

Definition env (dryRun : string) (name : string) : string :=
  if String.eqb name "EMAIL_FROM_ADDRESS" then "ops@x.com"
  else if String.eqb name "DRY_RUN" then dryRun
  else "".

Definition accessKey (id : string) (created : Time) (owner : string)
  : AccessKeyMetadata.t :=
  AccessKeyMetadata.mk (Some id) (Some created) "Active" (Some owner).

(** An account whose listings all fit one page, the clock standing at
    [today]; deletions and mails succeed. *)
Definition account (dryRun : string) (users : list User.t)
  (tags : option string -> list Tag.t)
  (keys : option string -> list AccessKeyMetadata.t) : World :=
  mkWorld None (env dryRun) (fun _ => today)
    (fun _ => Ok (ListUsersOutput.mk users None))
    (fun i =>
       Ok (ListUserTagsOutput.mk (tags (ListUserTagsInput.UserName i)) None))
    (fun i =>
       Ok (ListAccessKeysOutput.mk (keys (ListAccessKeysInput.UserName i))
             None))
    (fun _ => Ok (DeleteAccessKeyOutput.mk "&{{map[]} {}}"))
    (fun _ => None).

(** The account of one principal with the given tags and keys. *)
Definition single (dryRun name : string) (tags : list Tag.t)
  (keys : list AccessKeyMetadata.t) : World :=
  account dryRun [User.mk (Some name)] (fun _ => tags) (fun _ => keys).

Definition emailTag (address : string) : Tag.t :=
  Tag.mk (Some "email") (Some address).

(** "alice", tag email=a@x.com, one credential created 60 days ago. *)
Definition aliceKey : AccessKeyMetadata.t :=
  accessKey "AKIAALICE" (daysAgo 60) "alice".

Definition aliceWorld (dryRun : string) : World :=
  single dryRun "alice" [emailTag "a@x.com"] [aliceKey].

Definition aliceNotice : defaultedUser.t :=
  defaultedUser.mk "alice" "a@x.com" aliceKey "57".

(** "bob" without an [email] tag and with a key of 200 days, next to
    "alice". *)
Definition bobKey : AccessKeyMetadata.t :=
  accessKey "AKIABOB" (daysAgo 200) "bob".

Definition bobTags (name : option string) : list Tag.t :=
  match name with
  | Some n =>
      if String.eqb n "bob" then [Tag.mk (Some "team") (Some "infra")]
      else [emailTag "a@x.com"]
  | None => []
  end.

Definition bobKeys (name : option string) : list AccessKeyMetadata.t :=
  match name with
  | Some n => if String.eqb n "bob" then [bobKey] else [aliceKey]
  | None => []
  end.

Definition bobWorld : World :=
  account "--dry-run" [User.mk (Some "bob"); User.mk (Some "alice")]
    bobTags bobKeys.

(** The account of "alice" and "bob", both with an address and an old key,
    where the tags of "bob" cannot be listed. *)
Definition failingWorld : World :=
  mkWorld None (env "--dry-run") (fun _ => today)
    (fun _ =>
       Ok (ListUsersOutput.mk [User.mk (Some "alice"); User.mk (Some "bob")]
             None))
    (fun i =>
       match ListUserTagsInput.UserName i with
       | Some n =>
           if String.eqb n "bob" then Err "Throttling"
           else Ok (ListUserTagsOutput.mk [emailTag "a@x.com"] None)
       | None => Err "ValidationError"
       end)
    (fun _ => Ok (ListAccessKeysOutput.mk [aliceKey] None))
    (fun _ => Ok (DeleteAccessKeyOutput.mk "&{{map[]} {}}"))
    (fun _ => None).

(** An account whose listings come in several pages: three users on two
    pages, and for every user three keys on three pages, the last one
    empty. *)
Definition pagedUsers (i : ListUsersInput.t) : Result ListUsersOutput.t :=
  match ListUsersInput.Marker i with
  | None =>
      Ok (ListUsersOutput.mk [User.mk (Some "alice"); User.mk (Some "bob")]
            (Some "page2"))
  | Some _ => Ok (ListUsersOutput.mk [User.mk (Some "carol")] None)
  end.

Definition pagedKeys (i : ListAccessKeysInput.t)
  : Result ListAccessKeysOutput.t :=
  match ListAccessKeysInput.Marker i with
  | None =>
      Ok (ListAccessKeysOutput.mk [accessKey "AKIA1" (daysAgo 10) "x"]
            (Some "page2"))
  | Some m =>
      if String.eqb m "page2" then
        Ok (ListAccessKeysOutput.mk
              [accessKey "AKIA2" (daysAgo 55) "x";
               accessKey "AKIA3" (daysAgo 120) "x"]
              (Some "page3"))
      else Ok (ListAccessKeysOutput.mk [] None)
  end.

Definition pagedWorld : World :=
  mkWorld None (env "") (fun _ => today) pagedUsers
    (fun _ => Ok (ListUserTagsOutput.mk [emailTag "team@x.com"] None))
    pagedKeys
    (fun _ => Ok (DeleteAccessKeyOutput.mk "&{{map[]} {}}"))
    (fun _ => None).

(** An account for which no configuration can be loaded. *)
Definition noConfigWorld : World :=
  mkWorld (Some "failed to load shared config") (env "--dry-run")
    (fun _ => today)
    (fun _ => Err "unreachable") (fun _ => Err "unreachable")
    (fun _ => Err "unreachable") (fun _ => Err "unreachable")
    (fun _ => None).

(** "carol", tag email=c@x.com, one credential created 120 days ago, the
    flag set to the sentinel. *)
Definition carolKey : AccessKeyMetadata.t :=
  accessKey "AKIACAROL" (daysAgo 120) "carol".

Definition carolWorld : World :=
  single "--dry-run" "carol" [emailTag "c@x.com"] [carolKey].

Definition carolNotice : defaultedUser.t :=
  defaultedUser.mk "carol" "c@x.com" carolKey "57".

(** A mail service that rejects every message. *)
Definition rejecting (i : SendEmailInput.t) : option error :=
  Some "MessageRejected".





(** ** Notions for the proofs *)

(** A computation that never reads the clock: its outcome and log are the
    same from every start, and the count of readings is untouched. *)
Definition clockless {A : Type} (m : M A) : Prop :=
  forall t, m t = mkRun (out (m O)) t (log (m O)).

(** The run [r] with the event [e] before its log. *)
Definition after {A : Type} (e : Event) (r : Run A) : Run A :=
  mkRun (out r) (reads r) (e :: log r).

(** Some listing call of the log returned an error. *)
Definition failed (l : list Event) : bool := existsb listing_failed l.

(** The run [r] with the events [l] before its log. *)
Definition preceded {A : Type} (l : list Event) (r : Run A) : Run A :=
  mkRun (out r) (reads r) (l ++ log r).

(** The events of the notification of a notice. *)
Definition sendEvents (w : World) (fromAddress : string)
  (user : defaultedUser.t) : list Event :=
  log (sendEmail w (defaultedUser.Email user) fromAddress
         (defaultedUser.OlderThan user) O).

(** The events of the deletion of the key [id] of a notice. *)
Definition deleteEvents (w : World) (id : string) (user : defaultedUser.t)
  : list Event :=
  log (deleteKeys w id (defaultedUser.UserName user) O).

(** Events that are neither a notification nor a deletion. *)
Definition enumerating (e : Event) : Prop :=
  match e with
  | EvSendEmail _ _ | EvDeleteAccessKey _ _ => False
  | _ => True
  end.

(** Events that are not a listing call. *)
Definition acting (e : Event) : Prop :=
  match e with
  | EvListUsers _ _ | EvListUserTags _ _ | EvListAccessKeys _ _ => False
  | _ => True
  end.

(** A notice of [user] with address [email] for one of [keys]. *)
Definition noticeFrom (user : User.t) (email : string)
  (keys : list AccessKeyMetadata.t) (d : defaultedUser.t) : Prop :=
  User.UserName user = Some (defaultedUser.UserName d)
  /\ defaultedUser.Email d = email
  /\ In (defaultedUser.Key d) keys
  /\ key_populated (defaultedUser.Key d).

(** ** Further notions: the order of the actions, the tags, the bound *)

(** The same world with another answer of the identity service to the
    deletion of a key. *)
Definition with_DeleteAccessKey (w : World)
  (delete : DeleteAccessKeyInput.t -> Result DeleteAccessKeyOutput.t)
  : World :=
  mkWorld (LoadDefaultConfig w) (Getenv w) (Now w) (ListUsers w)
    (ListUserTags w) (ListAccessKeys w) delete (SendEmail w).

(** An identity service that refuses every deletion. *)
Definition refusing (i : DeleteAccessKeyInput.t)
  : Result DeleteAccessKeyOutput.t :=
  Err "AccessDenied".

(** The notification and deletion requests of a log, in the order they are
    made. *)
Definition actions (l : list Event)
  : list (SendEmailInput.t + DeleteAccessKeyInput.t) :=
  flat_map
    (fun e =>
       match e with
       | EvSendEmail i _ => [inl i]
       | EvDeleteAccessKey i _ => [inr i]
       | _ => []
       end) l.

(** The requests [acts] go through the notices in order: for each notice its
    notification, followed or not by the deletion of the key of that same
    notice for that same principal, and nothing else. *)
Fixpoint announced (fromAddress : string)
  (defaultedUsers : list defaultedUser.t)
  (acts : list (SendEmailInput.t + DeleteAccessKeyInput.t)) : Prop :=
  match defaultedUsers with
  | [] => acts = []
  | d :: rest =>
      exists tail,
        acts = inl (notification fromAddress d) :: tail
        /\ (announced fromAddress rest tail
            \/ exists id tail',
                 AccessKeyMetadata.AccessKeyId (defaultedUser.Key d) = Some id
                 /\ tail
                    = inr (DeleteAccessKeyInput.mk id
                             (defaultedUser.UserName d)) :: tail'
                 /\ announced fromAddress rest tail')
  end.

(** A tag whose key is [email]. *)
Definition isEmailTag (g : Tag.t) : bool :=
  match Tag.Key g with
  | Some key => String.eqb key "email"
  | None => false
  end.

(** The value of the first tag of [tags] whose key is [email]; the empty
    string when there is none. *)
Definition firstEmail (tags : list Tag.t) : string :=
  match find isEmailTag tags with
  | Some g =>
      match Tag.Value g with
      | Some value => value
      | None => ""
      end
  | None => ""
  end.

(** The number of pages of [pages] up to the first one that holds a tag
    whose key is [email], that page included; all of them when there is
    none. *)
Fixpoint pagesUntilEmail (pages : list (list Tag.t)) : nat :=
  match pages with
  | [] => O
  | page :: more =>
      if existsb isEmailTag page then 1%nat else S (pagesUntilEmail more)
  end.

(** The listing of the tags of [u] answers, from marker [m] on, the pages
    [pages] one after the other: a marker on all of them but the last. *)
Fixpoint tagsPages (w : World) (u m : option string)
  (pages : list (list Tag.t)) : Prop :=
  match pages with
  | [] => False
  | [page] =>
      ListUserTags w (ListUserTagsInput.mk u m)
      = Ok (ListUserTagsOutput.mk page None)
  | page :: more =>
      exists next,
        ListUserTags w (ListUserTagsInput.mk u m)
        = Ok (ListUserTagsOutput.mk page (Some next))
        /\ tagsPages w u (Some next) more
  end.

(** The error [getDefaultedUsers] returns for a failed listing call: the
    message of the service after the words of the listing. *)
Definition failureOf (e : Event) : option error :=
  match e with
  | EvListUsers _ (Err err) => Some (Errorf_w "error listing users: " err)
  | EvListUserTags _ (Err err) => Some (Errorf_w "error listing tags: " err)
  | EvListAccessKeys _ (Err err) =>
      Some (Errorf_w "error listing access keys: " err)
  | _ => None
  end.

(** The listing of users has no last page: every answer is a page with a
    marker. *)
Definition endlessUsers (w : World) : Prop :=
  forall i,
    exists r next,
      ListUsers w i = Ok r /\ ListUsersOutput.Marker r = Some next.

(** An account whose listing of users hands out the same page with a marker
    again and again. *)
Definition loopingWorld : World :=
  mkWorld None (env "") (fun _ => today)
    (fun _ => Ok (ListUsersOutput.mk [User.mk (Some "alice")] (Some "again")))
    (fun _ => Ok (ListUserTagsOutput.mk [emailTag "a@x.com"] None))
    (fun _ => Ok (ListAccessKeysOutput.mk [aliceKey] None))
    (fun _ => Ok (DeleteAccessKeyOutput.mk "&{{map[]} {}}"))
    (fun _ => None).

(** An account whose tags come in three pages, the address on the second. *)
Definition pagedTags (i : ListUserTagsInput.t) : Result ListUserTagsOutput.t :=
  match ListUserTagsInput.Marker i with
  | None =>
      Ok (ListUserTagsOutput.mk [Tag.mk (Some "team") (Some "infra")]
            (Some "page2"))
  | Some m =>
      if String.eqb m "page2" then
        Ok (ListUserTagsOutput.mk
              [Tag.mk (Some "Email") (Some "wrong@x.com");
               emailTag "a@x.com"; emailTag "later@x.com"]
              (Some "page3"))
      else Ok (ListUserTagsOutput.mk [emailTag "last@x.com"] None)
  end.

Definition pagedTagsWorld : World :=
  mkWorld None (env "") (fun _ => today)
    (fun _ => Ok (ListUsersOutput.mk [User.mk (Some "alice")] None))
    pagedTags
    (fun _ => Ok (ListAccessKeysOutput.mk [aliceKey] None))
    (fun _ => Ok (DeleteAccessKeyOutput.mk "&{{map[]} {}}"))
    (fun _ => None).

(** The account of "carol" under another value of the flag. *)
Definition carolWorldWith (dryRun : string) : World :=
  single dryRun "carol" [emailTag "c@x.com"] [carolKey].

(** A notice with an address and the label of one of the two thresholds. *)
Definition wellFormed (d : defaultedUser.t) : Prop :=
  defaultedUser.Email d <> ""
  /\ (defaultedUser.OlderThan d = "57" \/ defaultedUser.OlderThan d = "50")
  /\ key_populated (defaultedUser.Key d).

(** The log ends with a failed listing call whose error is [e], and no call
    before it failed. *)
Definition endsInFailure (l : list Event) (e : error) : Prop :=
  exists before ev,
    l = before ++ [ev] /\ failed before = false /\ failureOf ev = Some e.

(** The calls of [l] are the listing of users from marker [m] on: each call
    carries the marker of the answer before it, and nothing follows an
    error or a page without a marker. *)
Fixpoint usersChained (m : option string) (l : list Event) : Prop :=
  match l with
  | [] => True
  | EvListUsers i r :: rest =>
      ListUsersInput.Marker i = m
      /\ match r with
         | Ok result =>
             match ListUsersOutput.Marker result with
             | None => rest = []
             | Some _ => usersChained (ListUsersOutput.Marker result) rest
             end
         | Err _ => rest = []
         end
  | _ :: _ => False
  end.

(** The same for the listing of the access keys of [u]: every call names
    [u]. *)
Fixpoint keysChained (u m : option string) (l : list Event) : Prop :=
  match l with
  | [] => True
  | EvListAccessKeys i r :: rest =>
      ListAccessKeysInput.UserName i = u
      /\ ListAccessKeysInput.Marker i = m
      /\ match r with
         | Ok result =>
             match ListAccessKeysOutput.Marker result with
             | None => rest = []
             | Some _ =>
                 keysChained u (ListAccessKeysOutput.Marker result) rest
             end
         | Err _ => rest = []
         end
  | _ :: _ => False
  end.

(** The same for the listing of the tags of [u], which also stops at a page
    that holds a tag whose key is [email]. *)
Fixpoint tagsChained (u m : option string) (l : list Event) : Prop :=
  match l with
  | [] => True
  | EvListUserTags i r :: rest =>
      ListUserTagsInput.UserName i = u
      /\ ListUserTagsInput.Marker i = m
      /\ match r with
         | Ok result =>
             if existsb isEmailTag (ListUserTagsOutput.Tags result)
             then rest = []
             else
               match ListUserTagsOutput.Marker result with
               | None => rest = []
               | Some _ =>
                   tagsChained u (ListUserTagsOutput.Marker result) rest
               end
         | Err _ => rest = []
         end
  | _ :: _ => False
  end.

(** ** The clock read anew at each test *)

(** The chain of the age test when the clock moves between its tests, the
    call starting after [t] readings: the test of an override that is
    supplied looks at the age at reading [t]; the next test made, the one of
    57 days, at the reading that follows; the one of 50 days at the reading
    after that.  The first test passed decides.  With the classification
    comes the number of readings made once the call has returned. *)
Definition chainAt (w : World) (created : Time) (override : option Z)
  (t : nat) : (bool * string) * nat :=
  let chain k :=
    if exceeds (Now w k) created 57 then ((true, "57"), S k)
    else if exceeds (Now w (S k)) created 50 then ((true, "50"), S (S k))
    else ((false, ""), S (S k)) in
  match override with
  | Some n =>
      if exceeds (Now w t) created n then ((true, Sprintf_d n), S t)
      else chain (S t)
  | None => chain t
  end.

(** The notices owed to the keys of one user when the examination of the
    keys starts after [t] readings: the keys are classified one after the
    other in the order of [keys], each by the chain without override at the
    readings of its turn, and every key found old gives one record with the
    name, the address, the key and its label.  With the notices comes the
    number of readings made after the last key. *)
Fixpoint keyNoticesAt (w : World) (name email : string)
  (keys : list AccessKeyMetadata.t) (t : nat)
  : list defaultedUser.t * nat :=
  match keys with
  | [] => ([], t)
  | key :: rest =>
      match AccessKeyMetadata.CreateDate key with
      | Some created =>
          let c := chainAt w created None t in
          let r := keyNoticesAt w name email rest (snd c) in
          (if fst (fst c)
           then defaultedUser.mk name email key (snd (fst c)) :: fst r
           else fst r,
           snd r)
      | None => ([], t)
      end
  end.

(** The notices owed to [users], taken in their order, when the enumeration
    has made [t] readings before the first of them: a user without an
    address gives none and costs no reading; another one gives the notices
    of the keys [listAllAccessKeys] returns for it. *)
Fixpoint noticesAt (w : World) (fuel : nat) (users : list User.t) (t : nat)
  : list defaultedUser.t :=
  match users with
  | [] => []
  | user :: rest =>
      match out (getUserEmailTag w fuel user O) with
      | Done (email, None) =>
          if String.eqb email "" then noticesAt w fuel rest t
          else
            match out (listAllAccessKeys w fuel user O) with
            | Done (keys, None) =>
                let r := keyNoticesAt w (userName user) email keys t in
                fst r ++ noticesAt w fuel rest (snd r)
            | _ => []
            end
      | _ => []
      end
  end.

(** The requests the handler owes to the notices, taken in their order,
    when [t] readings were made before the first of them: for each notice
    its notification, whatever the mail service answers; then the test of
    its key by the chain with the override of 100 days at the readings of
    its turn, and the deletion of that key for that principal when the test
    says old and the flag is the sentinel; then the next notice. *)
Fixpoint actionsAt (w : World) (fromAddress dryRun : string)
  (defaultedUsers : list defaultedUser.t) (t : nat)
  : list (SendEmailInput.t + DeleteAccessKeyInput.t) :=
  match defaultedUsers with
  | [] => []
  | d :: rest =>
      match AccessKeyMetadata.CreateDate (defaultedUser.Key d),
            AccessKeyMetadata.AccessKeyId (defaultedUser.Key d) with
      | Some created, Some id =>
          let c := chainAt w created (Some 100) t in
          inl (notification fromAddress d)
          :: (if fst (fst c) && String.eqb dryRun "--dry-run"
              then [inr (DeleteAccessKeyInput.mk id
                           (defaultedUser.UserName d))]
              else [])
          ++ actionsAt w fromAddress dryRun rest (snd c)
      | _, _ => []
      end
  end.


(** The same world with a clock that moves on by a nanosecond at each
    reading, from [today]. *)
Definition ticking (w : World) : World :=
  mkWorld (LoadDefaultConfig w) (Getenv w) (fun k => today + Z.of_nat k)
    (ListUsers w) (ListUserTags w) (ListAccessKeys w) (DeleteAccessKey w)
    (SendEmail w).

(** Keys created exactly 57 and exactly 50 days before [today]. *)
Definition key57 : AccessKeyMetadata.t :=
  accessKey "AKIA57" (daysAgo 57) "dave".

Definition key50 : AccessKeyMetadata.t :=
  accessKey "AKIA50" (daysAgo 50) "dave".

(** "dave" with these two keys and "carol" with hers, both with an address,
    under the sentinel. *)
Definition teamTags (name : option string) : list Tag.t :=
  match name with
  | Some n =>
      if String.eqb n "dave" then [emailTag "d@x.com"]
      else [emailTag "c@x.com"]
  | None => []
  end.

Definition teamKeys (name : option string) : list AccessKeyMetadata.t :=
  match name with
  | Some n => if String.eqb n "dave" then [key57; key50] else [carolKey]
  | None => []
  end.

Definition teamWorld : World :=
  account "--dry-run" [User.mk (Some "dave"); User.mk (Some "carol")]
    teamTags teamKeys.


(** "bob" with his key of 200 days and a key of 10 days, and "carol" with
    hers of 120 days, both with an address, under the sentinel. *)
Definition seniorTags (name : option string) : list Tag.t :=
  match name with
  | Some n =>
      if String.eqb n "bob" then [emailTag "b@x.com"]
      else [emailTag "c@x.com"]
  | None => []
  end.

Definition seniorKeys (name : option string) : list AccessKeyMetadata.t :=
  match name with
  | Some n =>
      if String.eqb n "bob"
      then [bobKey; accessKey "AKIANEW" (daysAgo 10) "bob"]
      else [carolKey]
  | None => []
  end.

Definition seniorWorld : World :=
  account "--dry-run" [User.mk (Some "bob"); User.mk (Some "carol")]
    seniorTags seniorKeys.

(** * Properties *)

(** ** The monad *)

Lemma out_bind (A B : Type) (m : M A) (k : A -> M B) (t : nat) :
  out (bind m k t)
  = match out (m t) with
    | Done a => out (k a (reads (m t)))
    | Panic => Panic
    | OutOfFuel => OutOfFuel
    end.
Proof. unfold bind. destruct (out (m t)); reflexivity. Qed.

Lemma clockless_ret (A : Type) (a : A) : clockless (ret a).
Proof. intro t. reflexivity. Qed.

Lemma clockless_panic (A : Type) : clockless (@panic A).
Proof. intro t. reflexivity. Qed.

Lemma clockless_out_of_fuel (A : Type) : clockless (@out_of_fuel A).
Proof. intro t. reflexivity. Qed.

Lemma clockless_deref (A : Type) (p : option A) : clockless (deref p).
Proof. destruct p; intro t; reflexivity. Qed.

Lemma clockless_emit (e : Event) : clockless (emit e).
Proof. intro t. reflexivity. Qed.

Lemma clockless_bind (A B : Type) (m : M A) (k : A -> M B) :
  clockless m -> (forall a, clockless (k a)) -> clockless (bind m k).
Proof.
  intros Hm Hk t. unfold bind.
  rewrite (Hm t). simpl.
  destruct (out (m O)) as [a| |]; simpl; try reflexivity.
  rewrite (Hk a t). simpl. rewrite (Hm O). simpl.
  destruct (out (m O)) as [a'| |] eqn:E; simpl.
  - rewrite (Hk a O). reflexivity.
  - reflexivity.
  - reflexivity.
Qed.

Lemma clockless_out (A : Type) (m : M A) (t : nat) :
  clockless m -> out (m t) = out (m O).
Proof. intro H. rewrite (H t). reflexivity. Qed.

Lemma clockless_reads (A : Type) (m : M A) (t : nat) :
  clockless m -> reads (m t) = t.
Proof. intro H. rewrite (H t). reflexivity. Qed.


(** ** The listing loops never read the clock *)

Ltac clockless_step :=
  first
    [ apply clockless_bind; [ | intros ? ]
    | apply clockless_ret
    | apply clockless_panic
    | apply clockless_out_of_fuel
    | apply clockless_deref
    | apply clockless_emit ].

Lemma clockless_call_ListUsers w i : clockless (call_ListUsers w i).
Proof. unfold call_ListUsers. repeat clockless_step. Qed.

Lemma clockless_call_ListUserTags w i : clockless (call_ListUserTags w i).
Proof. unfold call_ListUserTags. repeat clockless_step. Qed.

Lemma clockless_call_ListAccessKeys w i : clockless (call_ListAccessKeys w i).
Proof. unfold call_ListAccessKeys. repeat clockless_step. Qed.

Lemma clockless_listAllUsers_loop w fuel :
  forall i users, clockless (listAllUsers_loop w fuel i users).
Proof.
  induction fuel as [|fuel IH]; intros i users; simpl.
  - apply clockless_out_of_fuel.
  - apply clockless_bind; [apply clockless_call_ListUsers|].
    intros [r|e]; [|apply clockless_ret].
    destruct (ListUsersOutput.Marker r); [apply IH|apply clockless_ret].
Qed.

Lemma clockless_listAllUsers w fuel : clockless (listAllUsers w fuel).
Proof. apply clockless_listAllUsers_loop. Qed.

Lemma clockless_scanTags tags : clockless (scanTags tags).
Proof.
  induction tags as [|g tags IH]; simpl.
  - apply clockless_ret.
  - apply clockless_bind; [apply clockless_deref|].
    intro k. destruct (String.eqb k "email"); [|exact IH].
    repeat clockless_step.
Qed.

Lemma clockless_getUserEmailTag_loop w fuel :
  forall i, clockless (getUserEmailTag_loop w fuel i).
Proof.
  induction fuel as [|fuel IH]; intro i; simpl.
  - apply clockless_out_of_fuel.
  - apply clockless_bind; [apply clockless_call_ListUserTags|].
    intros [r|e]; [|apply clockless_ret].
    apply clockless_bind; [apply clockless_scanTags|].
    intros [v|]; [apply clockless_ret|].
    destruct (ListUserTagsOutput.Marker r); [apply IH|apply clockless_ret].
Qed.

Lemma clockless_getUserEmailTag w fuel user :
  clockless (getUserEmailTag w fuel user).
Proof. apply clockless_getUserEmailTag_loop. Qed.

Lemma clockless_listAllAccessKeys_loop w fuel :
  forall i keys, clockless (listAllAccessKeys_loop w fuel i keys).
Proof.
  induction fuel as [|fuel IH]; intros i keys; simpl.
  - apply clockless_out_of_fuel.
  - apply clockless_bind; [apply clockless_call_ListAccessKeys|].
    intros [r|e]; [|apply clockless_ret].
    destruct (ListAccessKeysOutput.Marker r); [apply IH|apply clockless_ret].
Qed.

Lemma clockless_listAllAccessKeys w fuel user :
  clockless (listAllAccessKeys w fuel user).
Proof. apply clockless_listAllAccessKeys_loop. Qed.

(** ** The age test *)

Lemma wrap64_small (z : Z) : - 2 ^ 63 <= z < 2 ^ 63 -> wrap64 z = z.
Proof.
  intro H. unfold wrap64. rewrite Z.mod_small; lia.
Qed.

Lemma override_duration (n : Z) :
  -106751 <= n <= 106751 ->
  Duration_mul (Duration_mul (Duration_of_int n) 24) Hour = n * Day.
Proof.
  intro H. unfold Duration_mul, Duration_of_int, Day, Hour, Second, Nanosecond.
  rewrite (wrap64_small n) by lia.
  rewrite (wrap64_small (n * 24)) by lia.
  rewrite wrap64_small by lia.
  lia.
Qed.

Lemma createdBefore_run w key created d t :
  AccessKeyMetadata.CreateDate key = Some created ->
  createdBefore w key d t
  = mkRun (Done (Time_Before (Time_Add created d) (Now w t))) (S t) [].
Proof. intro H. unfold createdBefore. rewrite H. reflexivity. Qed.

Lemma createdBefore_nil w key d t :
  AccessKeyMetadata.CreateDate key = None ->
  createdBefore w key d t = mkRun Panic t [].
Proof. intro H. unfold createdBefore. rewrite H. reflexivity. Qed.

Lemma before_exceeds now created n :
  Time_Before (Time_Add created (n * Day)) now = exceeds now created n.
Proof.
  unfold Time_Before, Time_Add, exceeds, age.
  destruct (Z.ltb_spec (created + n * Day) now);
    destruct (Z.ltb_spec (n * Day) (now - created)); auto; lia.
Qed.

(** [isKeyOld] produces no event. *)
Lemma isKeyOld_log w key olderThan t : log (isKeyOld w key olderThan t) = [].
Proof.
  unfold isKeyOld.
  destruct (AccessKeyMetadata.CreateDate key) as [c|] eqn:E.
  - destruct olderThan as [|n rest]; unfold bind; simpl;
      repeat (rewrite (createdBefore_run w key c) by exact E; simpl);
      repeat match goal with
        | |- context [if ?b then _ else _] => destruct b; simpl
        | |- _ => rewrite (createdBefore_run w key c) by exact E; simpl
        end; reflexivity.
  - destruct olderThan as [|n rest]; unfold bind; simpl;
      rewrite (createdBefore_nil w key) by exact E; reflexivity.
Qed.

(** Without a creation date [isKeyOld] panics. *)
Lemma isKeyOld_nil w key olderThan t :
  AccessKeyMetadata.CreateDate key = None ->
  out (isKeyOld w key olderThan t) = Panic.
Proof.
  intro E. unfold isKeyOld.
  destruct olderThan as [|n rest]; unfold bind; simpl;
    rewrite (createdBefore_nil w key) by exact E; reflexivity.
Qed.

(** With a creation date it returns. *)
Lemma isKeyOld_returns w key olderThan t :
  AccessKeyMetadata.CreateDate key <> None ->
  exists r, out (isKeyOld w key olderThan t) = Done r.
Proof.
  intro H. destruct (AccessKeyMetadata.CreateDate key) as [c|] eqn:E;
    [|congruence].
  unfold isKeyOld.
  destruct olderThan as [|n rest]; unfold bind; simpl;
    repeat (rewrite (createdBefore_run w key c) by exact E; simpl);
    repeat match goal with
      | |- context [if ?b then _ else _] => destruct b; simpl
      | |- _ => rewrite (createdBefore_run w key c) by exact E; simpl
      end; eexists; reflexivity.
Qed.

(** What the enumeration sees of [isKeyOld] under a standing clock. *)
Lemma isKeyOld_label w now key t :
  frozen w now ->
  out (isKeyOld w key [] t)
  = match AccessKeyMetadata.CreateDate key with
    | None => Panic
    | Some _ =>
        match label now key with
        | Some days => Done (true, days)
        | None => Done (false, "")
        end
    end.
Proof.
  intro F. destruct (AccessKeyMetadata.CreateDate key) as [c|] eqn:E.
  - unfold label. rewrite E. unfold isKeyOld, bind. cbn [ret out reads log].
    rewrite (createdBefore_run w key c) by exact E. cbn [out reads log].
    rewrite F. change (57 * 24 * Hour) with (57 * Day).
    rewrite before_exceeds.
    destruct (exceeds now c 57); cbn [ret out reads log]; [reflexivity|].
    rewrite (createdBefore_run w key c) by exact E. cbn [out reads log].
    rewrite F. change (50 * 24 * Hour) with (50 * Day).
    rewrite before_exceeds.
    destruct (exceeds now c 50); reflexivity.
  - apply isKeyOld_nil. exact E.
Qed.

(** With an override [isKeyOld] tests it first, through a 64-bit duration. *)
Lemma isKeyOld_override w now key created n rest t :
  frozen w now ->
  AccessKeyMetadata.CreateDate key = Some created ->
  out (isKeyOld w key (n :: rest) t)
  = Done
      (if Time_Before
            (Time_Add created
               (Duration_mul (Duration_mul (Duration_of_int n) 24) Hour)) now
       then (true, Sprintf_d n)
       else if exceeds now created 57 then (true, "57")
       else if exceeds now created 50 then (true, "50")
       else (false, "")).
Proof.
  intros F E. unfold isKeyOld, bind. cbn [ret out reads log hd].
  rewrite (createdBefore_run w key created) by exact E. cbn [out reads log].
  rewrite F.
  destruct (Time_Before _ now); cbn [ret out reads log]; [reflexivity|].
  rewrite (createdBefore_run w key created) by exact E. cbn [out reads log].
  rewrite F. change (57 * 24 * Hour) with (57 * Day).
  rewrite before_exceeds.
  destruct (exceeds now created 57); cbn [ret out reads log]; [reflexivity|].
  rewrite (createdBefore_run w key created) by exact E. cbn [out reads log].
  rewrite F. change (50 * 24 * Hour) with (50 * Day).
  rewrite before_exceeds.
  destruct (exceeds now created 50); reflexivity.
Qed.

(** ** Pagination *)

Lemma call_ListUsers_run w i t :
  call_ListUsers w i t
  = mkRun (Done (ListUsers w i)) t [EvListUsers i (ListUsers w i)].
Proof. reflexivity. Qed.

Lemma call_ListUserTags_run w i t :
  call_ListUserTags w i t
  = mkRun (Done (ListUserTags w i)) t [EvListUserTags i (ListUserTags w i)].
Proof. reflexivity. Qed.

Lemma call_ListAccessKeys_run w i t :
  call_ListAccessKeys w i t
  = mkRun (Done (ListAccessKeys w i)) t
      [EvListAccessKeys i (ListAccessKeys w i)].
Proof. reflexivity. Qed.

Lemma listAllUsers_loop_pages w t :
  forall fuel pages m users,
    usersPages w m pages ->
    (List.length pages <= fuel)%nat ->
    out (listAllUsers_loop w fuel (ListUsersInput.mk m) users t)
    = Done (users ++ List.concat pages, None).
Proof.
  induction fuel as [|fuel IH]; intros pages m users P L.
  - destruct pages; [destruct P | simpl in L; lia].
  - destruct pages as [|page more]; [destruct P|].
    cbn [listAllUsers_loop]. rewrite out_bind, call_ListUsers_run.
    cbn [out reads log].
    destruct more as [|page' more].
    + cbn [usersPages] in P. rewrite P. cbn. rewrite app_nil_r. reflexivity.
    + destruct P as (next & P & Q). rewrite P.
      cbn [ListUsersOutput.Users ListUsersOutput.Marker].
      rewrite (IH (page' :: more) (Some next)); [|exact Q|simpl in *; lia].
      change (List.concat (page :: page' :: more))
        with (page ++ List.concat (page' :: more)).
      rewrite app_assoc. reflexivity.
Qed.

Lemma listAllAccessKeys_loop_pages w t :
  forall fuel pages u m keys,
    keysPages w u m pages ->
    (List.length pages <= fuel)%nat ->
    out (listAllAccessKeys_loop w fuel (ListAccessKeysInput.mk u m) keys t)
    = Done (keys ++ List.concat pages, None).
Proof.
  induction fuel as [|fuel IH]; intros pages u m keys P L.
  - destruct pages; [destruct P | simpl in L; lia].
  - destruct pages as [|page more]; [destruct P|].
    cbn [listAllAccessKeys_loop]. rewrite out_bind, call_ListAccessKeys_run.
    cbn [out reads log].
    destruct more as [|page' more].
    + cbn [keysPages] in P. rewrite P. cbn. rewrite app_nil_r. reflexivity.
    + destruct P as (next & P & Q). rewrite P.
      cbn [ListAccessKeysOutput.AccessKeyMetadata ListAccessKeysOutput.Marker
           ListAccessKeysInput.UserName].
      rewrite (IH (page' :: more) u (Some next)); [|exact Q|simpl in *; lia].
      change (List.concat (page :: page' :: more))
        with (page ++ List.concat (page' :: more)).
      rewrite app_assoc. reflexivity.
Qed.

(** C6.  When the listing of users answers a sequence of N pages, a marker
    on all but the last, [listAllUsers] returns without error the
    concatenation of the N pages, every item once and in page order, as soon
    as the loop is given N iterations; and so does [listAllAccessKeys] for
    the key listing of a user. *)
Theorem listings_concatenate_pages w fuel t :
  (forall pages,
     usersPages w None pages ->
     (List.length pages <= fuel)%nat ->
     out (listAllUsers w fuel t) = Done (List.concat pages, None))
  /\ (forall user pages,
        keysPages w (User.UserName user) None pages ->
        (List.length pages <= fuel)%nat ->
        out (listAllAccessKeys w fuel user t) = Done (List.concat pages, None)).
Proof.
  split.
  - intros pages P L. unfold listAllUsers.
    rewrite (listAllUsers_loop_pages w t fuel pages None []); auto.
  - intros user pages P L. unfold listAllAccessKeys.
    rewrite (listAllAccessKeys_loop_pages w t fuel pages (User.UserName user)
               None []); auto.
Qed.

Lemma listings_concatenate_pages_witness :
  out (listAllUsers pagedWorld 2 O)
  = Done ([User.mk (Some "alice"); User.mk (Some "bob");
           User.mk (Some "carol")], None)
  /\ out (listAllAccessKeys pagedWorld 3 (User.mk (Some "bob")) O)
     = Done ([accessKey "AKIA1" (daysAgo 10) "x";
              accessKey "AKIA2" (daysAgo 55) "x";
              accessKey "AKIA3" (daysAgo 120) "x"], None).
Proof.
  split.
  - apply (proj1 (listings_concatenate_pages pagedWorld 2 O)
             [[User.mk (Some "alice"); User.mk (Some "bob")];
              [User.mk (Some "carol")]]).
    + simpl. exists "page2". split; reflexivity.
    + simpl. lia.
  - apply (proj2 (listings_concatenate_pages pagedWorld 3 O)
             (User.mk (Some "bob"))
             [[accessKey "AKIA1" (daysAgo 10) "x"];
              [accessKey "AKIA2" (daysAgo 55) "x";
               accessKey "AKIA3" (daysAgo 120) "x"];
              []]).
    + simpl. exists "page2". split; [reflexivity|].
      exists "page3". split; reflexivity.
    + simpl. lia.
Defined.

(** ** One iteration of each listing loop *)

Lemma listAllUsers_loop_step w fuel i users t :
  listAllUsers_loop w (S fuel) i users t
  = after (EvListUsers i (ListUsers w i))
      match ListUsers w i with
      | Err err =>
          mkRun (Done ([], Some (Errorf_w "error listing users: " err))) t []
      | Ok result =>
          match ListUsersOutput.Marker result with
          | None =>
              mkRun (Done (users ++ ListUsersOutput.Users result, None)) t []
          | Some _ =>
              listAllUsers_loop w fuel
                (ListUsersInput.mk (ListUsersOutput.Marker result))
                (users ++ ListUsersOutput.Users result) t
          end
      end.
Proof.
  cbn [listAllUsers_loop]. unfold bind at 1. rewrite call_ListUsers_run.
  cbn [out reads log].
  destruct (ListUsers w i) as [result|err]; [|reflexivity].
  destruct (ListUsersOutput.Marker result); reflexivity.
Qed.

Lemma listAllAccessKeys_loop_step w fuel i keys t :
  listAllAccessKeys_loop w (S fuel) i keys t
  = after (EvListAccessKeys i (ListAccessKeys w i))
      match ListAccessKeys w i with
      | Err err =>
          mkRun (Done ([], Some (Errorf_w "error listing access keys: " err)))
            t []
      | Ok result =>
          match ListAccessKeysOutput.Marker result with
          | None =>
              mkRun
                (Done (keys ++ ListAccessKeysOutput.AccessKeyMetadata result,
                       None)) t []
          | Some _ =>
              listAllAccessKeys_loop w fuel
                (ListAccessKeysInput.mk (ListAccessKeysInput.UserName i)
                   (ListAccessKeysOutput.Marker result))
                (keys ++ ListAccessKeysOutput.AccessKeyMetadata result) t
          end
      end.
Proof.
  cbn [listAllAccessKeys_loop]. unfold bind at 1.
  rewrite call_ListAccessKeys_run. cbn [out reads log].
  destruct (ListAccessKeys w i) as [result|err]; [|reflexivity].
  destruct (ListAccessKeysOutput.Marker result); reflexivity.
Qed.

(** The scan of a page touches neither the clock nor the log. *)
Lemma scanTags_run tags t :
  scanTags tags t = mkRun (out (scanTags tags O)) t [].
Proof.
  induction tags as [|g tags IH]; cbn [scanTags]; [reflexivity|].
  unfold bind. destruct (Tag.Key g) as [k|]; cbn; [|reflexivity].
  destruct (String.eqb k "email").
  - destruct (Tag.Value g); reflexivity.
  - rewrite IH. cbn. destruct (out (scanTags tags O)); reflexivity.
Qed.

Lemma getUserEmailTag_loop_step w fuel i t :
  getUserEmailTag_loop w (S fuel) i t
  = after (EvListUserTags i (ListUserTags w i))
      match ListUserTags w i with
      | Err err =>
          mkRun (Done ("", Some (Errorf_w "error listing tags: " err))) t []
      | Ok result =>
          match out (scanTags (ListUserTagsOutput.Tags result) O) with
          | Done (Some value) => mkRun (Done (value, None)) t []
          | Done None =>
              match ListUserTagsOutput.Marker result with
              | None => mkRun (Done ("", None)) t []
              | Some _ =>
                  getUserEmailTag_loop w fuel
                    (ListUserTagsInput.mk (ListUserTagsInput.UserName i)
                       (ListUserTagsOutput.Marker result)) t
              end
          | Panic => mkRun Panic t []
          | OutOfFuel => mkRun OutOfFuel t []
          end
      end.
Proof.
  cbn [getUserEmailTag_loop]. unfold bind at 1.
  rewrite call_ListUserTags_run. cbn [out reads log].
  destruct (ListUserTags w i) as [result|err]; [|reflexivity].
  unfold bind. rewrite scanTags_run. cbn [out reads log].
  destruct (out (scanTags (ListUserTagsOutput.Tags result) O)) as [[v|]| |];
    try reflexivity.
  destruct (ListUserTagsOutput.Marker result); reflexivity.
Qed.

(** ** A failed listing call ends the enumeration *)

Lemma failed_app l l' : failed (l ++ l') = failed l || failed l'.
Proof. apply existsb_app. Qed.

Lemma failed_cons e l : failed (e :: l) = listing_failed e || failed l.
Proof. reflexivity. Qed.

Lemma listAllUsers_loop_failed w t :
  forall fuel i users,
    failed (log (listAllUsers_loop w fuel i users t)) = true ->
    exists e, out (listAllUsers_loop w fuel i users t) = Done ([], Some e).
Proof.
  induction fuel as [|fuel IH]; intros i users H; [discriminate H|].
  rewrite listAllUsers_loop_step in *. cbn [after out log] in *.
  rewrite failed_cons in H.
  destruct (ListUsers w i) as [result|err].
  - cbn [listing_failed orb] in H.
    destruct (ListUsersOutput.Marker result).
    + apply IH. exact H.
    + discriminate H.
  - eexists. reflexivity.
Qed.

Lemma listAllUsers_loop_error w t :
  forall fuel i users l e,
    out (listAllUsers_loop w fuel i users t) = Done (l, Some e) ->
    l = [] /\ failed (log (listAllUsers_loop w fuel i users t)) = true.
Proof.
  induction fuel as [|fuel IH]; intros i users l e H; [discriminate H|].
  rewrite listAllUsers_loop_step in *. cbn [after out log] in *.
  rewrite failed_cons.
  destruct (ListUsers w i) as [result|err].
  - cbn [listing_failed orb].
    destruct (ListUsersOutput.Marker result).
    + apply IH with (e := e). exact H.
    + discriminate H.
  - cbn in H. injection H as <- _. split; reflexivity.
Qed.

Lemma listAllAccessKeys_loop_failed w t :
  forall fuel i keys,
    failed (log (listAllAccessKeys_loop w fuel i keys t)) = true ->
    exists e, out (listAllAccessKeys_loop w fuel i keys t) = Done ([], Some e).
Proof.
  induction fuel as [|fuel IH]; intros i keys H; [discriminate H|].
  rewrite listAllAccessKeys_loop_step in *. cbn [after out log] in *.
  rewrite failed_cons in H.
  destruct (ListAccessKeys w i) as [result|err].
  - cbn [listing_failed orb] in H.
    destruct (ListAccessKeysOutput.Marker result).
    + apply IH. exact H.
    + discriminate H.
  - eexists. reflexivity.
Qed.

Lemma listAllAccessKeys_loop_error w t :
  forall fuel i keys l e,
    out (listAllAccessKeys_loop w fuel i keys t) = Done (l, Some e) ->
    l = [] /\ failed (log (listAllAccessKeys_loop w fuel i keys t)) = true.
Proof.
  induction fuel as [|fuel IH]; intros i keys l e H; [discriminate H|].
  rewrite listAllAccessKeys_loop_step in *. cbn [after out log] in *.
  rewrite failed_cons.
  destruct (ListAccessKeys w i) as [result|err].
  - cbn [listing_failed orb].
    destruct (ListAccessKeysOutput.Marker result).
    + apply IH with (e := e). exact H.
    + discriminate H.
  - cbn in H. injection H as <- _. split; reflexivity.
Qed.

Lemma getUserEmailTag_loop_failed w t :
  forall fuel i,
    failed (log (getUserEmailTag_loop w fuel i t)) = true ->
    exists e, out (getUserEmailTag_loop w fuel i t) = Done ("", Some e).
Proof.
  induction fuel as [|fuel IH]; intros i H; [discriminate H|].
  rewrite getUserEmailTag_loop_step in *. cbn [after out log] in *.
  rewrite failed_cons in H.
  destruct (ListUserTags w i) as [result|err].
  - cbn [listing_failed orb] in H.
    destruct (out (scanTags (ListUserTagsOutput.Tags result) O))
      as [[v|]| |]; try discriminate H.
    destruct (ListUserTagsOutput.Marker result).
    + apply IH. exact H.
    + discriminate H.
  - eexists. reflexivity.
Qed.

Lemma getUserEmailTag_loop_error w t :
  forall fuel i v e,
    out (getUserEmailTag_loop w fuel i t) = Done (v, Some e) ->
    failed (log (getUserEmailTag_loop w fuel i t)) = true.
Proof.
  induction fuel as [|fuel IH]; intros i v e H; [discriminate H|].
  rewrite getUserEmailTag_loop_step in *. cbn [after out log] in *.
  rewrite failed_cons.
  destruct (ListUserTags w i) as [result|err].
  - cbn [listing_failed orb].
    destruct (out (scanTags (ListUserTagsOutput.Tags result) O))
      as [[v'|]| |]; try discriminate H.
    destruct (ListUserTagsOutput.Marker result).
    + apply IH with (v := v) (e := e). exact H.
    + discriminate H.
  - reflexivity.
Qed.

(** ** One iteration of the loops over users, keys and notices *)

Lemma preceded_nil (A : Type) (r : Run A) : preceded [] r = r.
Proof. destruct r. reflexivity. Qed.

Lemma preceded_preceded (A : Type) (l l' : list Event) (r : Run A) :
  preceded l (preceded l' r) = preceded (l ++ l') r.
Proof. unfold preceded. cbn. rewrite app_assoc. reflexivity. Qed.

Lemma preceded_mkRun (A : Type) (l l' : list Event) (o : outcome A) n :
  preceded l (mkRun o n l') = mkRun o n (l ++ l').
Proof. reflexivity. Qed.

Lemma bind_run (A B : Type) (m : M A) (k : A -> M B) (t : nat) :
  bind m k t
  = match out (m t) with
    | Done a => preceded (log (m t)) (k a (reads (m t)))
    | Panic => mkRun Panic (reads (m t)) (log (m t))
    | OutOfFuel => mkRun OutOfFuel (reads (m t)) (log (m t))
    end.
Proof. unfold bind. destruct (out (m t)); reflexivity. Qed.

Lemma getDefaultedUsers_keys_step w user email key rest acc t :
  getDefaultedUsers_keys w user email (key :: rest) acc t
  = let r := isKeyOld w key [] t in
    match out r with
    | Done (true, days) =>
        match AccessKeyMetadata.AccessKeyId key, User.UserName user with
        | Some id, Some name =>
            preceded
              [EvPrintln
                 (String.concat " "
                    ["Access key"; id; "for user"; name;
                     "is older than 60 days."] ++ newline)%string]
              (getDefaultedUsers_keys w user email rest
                 (acc ++ [defaultedUser.mk name email key days]) (reads r))
        | _, _ => mkRun Panic (reads r) []
        end
    | Done (false, _) =>
        getDefaultedUsers_keys w user email rest acc (reads r)
    | Panic => mkRun Panic (reads r) []
    | OutOfFuel => mkRun OutOfFuel (reads r) []
    end.
Proof.
  cbn [getDefaultedUsers_keys]. cbv zeta. unfold bind at 1.
  rewrite isKeyOld_log.
  destruct (out (isKeyOld w key [] t)) as [[[|] days]| |]; try reflexivity.
  - destruct (AccessKeyMetadata.AccessKeyId key) as [id|]; [|reflexivity].
    destruct (User.UserName user) as [name|]; [|reflexivity].
    cbn. unfold preceded.
    destruct (getDefaultedUsers_keys w user email rest _ _) as [o n l].
    cbn. destruct o; reflexivity.
  - cbn. destruct (getDefaultedUsers_keys w user email rest acc _) as [o n l].
    reflexivity.
Qed.

Lemma getDefaultedUsers_users_step w fuel user rest acc t :
  getDefaultedUsers_users w fuel (user :: rest) acc t
  = let r1 := getUserEmailTag w fuel user t in
    match out r1 with
    | Done (email, Some e) => mkRun (Done ([], Some e)) t (log r1)
    | Done (email, None) =>
        if String.eqb email "" then
          preceded (log r1) (getDefaultedUsers_users w fuel rest acc t)
        else
          let r2 := listAllAccessKeys w fuel user t in
          match out r2 with
          | Done (keys, Some e) =>
              mkRun (Done ([], Some e)) t (log r1 ++ log r2)
          | Done (keys, None) =>
              let r3 := getDefaultedUsers_keys w user email keys acc t in
              match out r3 with
              | Done l =>
                  preceded (log r1 ++ log r2 ++ log r3)
                    (getDefaultedUsers_users w fuel rest l (reads r3))
              | Panic => mkRun Panic (reads r3) (log r1 ++ log r2 ++ log r3)
              | OutOfFuel =>
                  mkRun OutOfFuel (reads r3) (log r1 ++ log r2 ++ log r3)
              end
          | Panic => mkRun Panic t (log r1 ++ log r2)
          | OutOfFuel => mkRun OutOfFuel t (log r1 ++ log r2)
          end
    | Panic => mkRun Panic t (log r1)
    | OutOfFuel => mkRun OutOfFuel t (log r1)
    end.
Proof.
  cbn [getDefaultedUsers_users]. cbv zeta. rewrite bind_run.
  rewrite (clockless_reads _ (getUserEmailTag w fuel user) t)
    by apply clockless_getUserEmailTag.
  destruct (out (getUserEmailTag w fuel user t)) as [[email [e|]]| |];
    try reflexivity.
  { unfold ret. rewrite preceded_mkRun, app_nil_r. reflexivity. }
  destruct (String.eqb email ""); [reflexivity|].
  rewrite bind_run.
  rewrite (clockless_reads _ (listAllAccessKeys w fuel user) t)
    by apply clockless_listAllAccessKeys.
  destruct (out (listAllAccessKeys w fuel user t)) as [[keys [e|]]| |];
    try reflexivity.
  { unfold ret. rewrite !preceded_mkRun, app_nil_r. reflexivity. }
  rewrite bind_run.
  destruct (out (getDefaultedUsers_keys w user email keys acc t)).
  - rewrite !preceded_preceded, <- app_assoc. reflexivity.
  - rewrite !preceded_mkRun. reflexivity.
  - rewrite !preceded_mkRun. reflexivity.
Qed.

Lemma getDefaultedUsers_run w fuel t :
  getDefaultedUsers w fuel t
  = let r := listAllUsers w fuel t in
    match out r with
    | Done (users, Some e) => mkRun (Done ([], Some e)) t (log r)
    | Done (users, None) =>
        preceded (log r) (getDefaultedUsers_users w fuel users [] t)
    | Panic => mkRun Panic t (log r)
    | OutOfFuel => mkRun OutOfFuel t (log r)
    end.
Proof.
  unfold getDefaultedUsers. cbv zeta. rewrite bind_run.
  rewrite (clockless_reads _ (listAllUsers w fuel) t)
    by apply clockless_listAllUsers.
  destruct (out (listAllUsers w fuel t)) as [[users [e|]]| |];
    try reflexivity.
  unfold ret. rewrite preceded_mkRun, app_nil_r. reflexivity.
Qed.

Lemma sendEmail_run w toEmail fromEmail days t :
  sendEmail w toEmail fromEmail days t
  = let input :=
      SendEmailInput.mk [toEmail]
        ("Your secret keys are older than " ++ days
           ++ " days and will be deleted.")%string
        "Secret Key Expiration Warning" fromEmail in
    mkRun (Done (SendEmail w input)) t
      [EvSendEmail input (SendEmail w input);
       EvPrintln
         match SendEmail w input with
         | Some err =>
             (String.concat " " ["Error sending email,"; err] ++ newline)%string
         | None =>
             (String.concat " " ["Email sent successfully."] ++ newline)%string
         end].
Proof.
  unfold sendEmail. cbv zeta. unfold bind at 1. unfold call_SendEmail.
  cbn. destruct (SendEmail w _); reflexivity.
Qed.

Lemma deleteKeys_run w accessKeyId userName t :
  deleteKeys w accessKeyId userName t
  = let input := DeleteAccessKeyInput.mk accessKeyId userName in
    mkRun
      (Done ([], match DeleteAccessKey w input with
                 | Err err => Some err
                 | Ok _ => None
                 end)) t
      [EvDeleteAccessKey input (DeleteAccessKey w input);
       EvPrintln
         match DeleteAccessKey w input with
         | Err err =>
             (String.concat " " ["Error deleting access key,"; err]
                ++ newline)%string
         | Ok result =>
             (String.concat " " [DeleteAccessKeyOutput.ResultMetadata result]
                ++ newline)%string
         end].
Proof.
  unfold deleteKeys. cbv zeta. unfold bind at 1. unfold call_DeleteAccessKey.
  cbn. destruct (DeleteAccessKey w _); reflexivity.
Qed.

Lemma HandleLabdaEvent_loop_step w fromAddress dryRun user rest t :
  HandleLabdaEvent_loop w fromAddress dryRun (user :: rest) t
  = let r := isKeyOld w (defaultedUser.Key user) [100] t in
    preceded (sendEvents w fromAddress user)
      match out r with
      | Done (true, _) =>
          if String.eqb dryRun "--dry-run" then
            match AccessKeyMetadata.AccessKeyId (defaultedUser.Key user) with
            | Some id =>
                preceded (deleteEvents w id user)
                  (HandleLabdaEvent_loop w fromAddress dryRun rest (reads r))
            | None => mkRun Panic (reads r) []
            end
          else HandleLabdaEvent_loop w fromAddress dryRun rest (reads r)
      | Done (false, _) =>
          HandleLabdaEvent_loop w fromAddress dryRun rest (reads r)
      | Panic => mkRun Panic (reads r) []
      | OutOfFuel => mkRun OutOfFuel (reads r) []
      end.
Proof.
  cbn [HandleLabdaEvent_loop]. cbv zeta. rewrite bind_run.
  unfold sendEvents.
  rewrite (sendEmail_run w _ _ _ O), (sendEmail_run w _ _ _ t).
  cbv zeta. cbn [out reads log]. f_equal.
  rewrite bind_run, isKeyOld_log.
  destruct (out (isKeyOld w (defaultedUser.Key user) [100] t))
    as [[[|] days]| |]; try reflexivity; rewrite preceded_nil.
  - destruct (String.eqb dryRun "--dry-run").
    + destruct (AccessKeyMetadata.AccessKeyId (defaultedUser.Key user))
        as [id|]; [|reflexivity].
      unfold deleteEvents. rewrite !bind_run.
      cbn [deref ret out reads log]. rewrite preceded_nil, bind_run.
      rewrite (deleteKeys_run w _ _ O), (deleteKeys_run w _ _ (reads _)).
      cbv zeta. cbn [out reads log preceded].
      rewrite app_nil_r. reflexivity.
    + rewrite bind_run. cbn [ret out reads log]. rewrite !preceded_nil.
      reflexivity.
  - rewrite bind_run. cbn [ret out reads log]. rewrite !preceded_nil.
    reflexivity.
Qed.

Lemma HandleLabdaEvent_run w fuel t :
  HandleLabdaEvent w fuel t
  = match LoadDefaultConfig w with
    | Some err =>
        mkRun (Done None) t
          (log
             (Println
                ["Couldn't load configuration. Have you set up your AWS account?"]
                O)
           ++ log (Println [err] O))
    | None =>
        let r := getDefaultedUsers w fuel t in
        match out r with
        | Done (defaultedUsers, Some e) =>
            mkRun (Done None) (reads r)
              (log r
               ++ log (Println ["Error getting users and their keys:"; e] O))
        | Done (defaultedUsers, None) =>
            let r' :=
              HandleLabdaEvent_loop w (Getenv w "EMAIL_FROM_ADDRESS")
                (Getenv w "DRY_RUN") defaultedUsers (reads r) in
            mkRun
              match out r' with
              | Done _ => Done None
              | Panic => Panic
              | OutOfFuel => OutOfFuel
              end (reads r') (log r ++ log r')
        | Panic => mkRun Panic (reads r) (log r)
        | OutOfFuel => mkRun OutOfFuel (reads r) (log r)
        end
    end.
Proof.
  unfold HandleLabdaEvent. destruct (LoadDefaultConfig w) as [err|].
  - reflexivity.
  - cbv zeta. rewrite bind_run.
    destruct (out (getDefaultedUsers w fuel t)) as [[ds [e|]]| |];
      try reflexivity.
    rewrite bind_run.
    destruct (out (HandleLabdaEvent_loop w _ _ ds _));
      unfold preceded, ret; cbn [out reads log];
      rewrite ?app_nil_r; reflexivity.
Qed.

(** ** The events of each phase *)

Lemma sends_app l l' : sends (l ++ l') = sends l ++ sends l'.
Proof. apply flat_map_app. Qed.

Lemma deletes_app l l' : deletes (l ++ l') = deletes l ++ deletes l'.
Proof. apply flat_map_app. Qed.

Lemma keyListings_app l l' :
  keyListings (l ++ l') = keyListings l ++ keyListings l'.
Proof. apply flat_map_app. Qed.

Lemma enumerating_sends l : Forall enumerating l -> sends l = [].
Proof.
  induction 1 as [|e l He _ IH]; [reflexivity|].
  destruct e; try destruct He; exact IH.
Qed.

Lemma enumerating_deletes l : Forall enumerating l -> deletes l = [].
Proof.
  induction 1 as [|e l He _ IH]; [reflexivity|].
  destruct e; try destruct He; exact IH.
Qed.

Lemma acting_failed l : Forall acting l -> failed l = false.
Proof.
  induction 1 as [|e l He _ IH]; [reflexivity|].
  destruct e; try destruct He; exact IH.
Qed.

Lemma acting_keyListings l : Forall acting l -> keyListings l = [].
Proof.
  induction 1 as [|e l He _ IH]; [reflexivity|].
  destruct e; try destruct He; exact IH.
Qed.

Lemma listAllUsers_loop_enumerating w t :
  forall fuel i users,
    Forall enumerating (log (listAllUsers_loop w fuel i users t)).
Proof.
  induction fuel as [|fuel IH]; intros i users; [constructor|].
  rewrite listAllUsers_loop_step. cbn [after log].
  constructor; [exact I|].
  destruct (ListUsers w i) as [result|err]; [|constructor].
  destruct (ListUsersOutput.Marker result); [apply IH|constructor].
Qed.

Lemma listAllAccessKeys_loop_enumerating w t :
  forall fuel i keys,
    Forall enumerating (log (listAllAccessKeys_loop w fuel i keys t)).
Proof.
  induction fuel as [|fuel IH]; intros i keys; [constructor|].
  rewrite listAllAccessKeys_loop_step. cbn [after log].
  constructor; [exact I|].
  destruct (ListAccessKeys w i) as [result|err]; [|constructor].
  destruct (ListAccessKeysOutput.Marker result); [apply IH|constructor].
Qed.

Lemma getUserEmailTag_loop_enumerating w t :
  forall fuel i, Forall enumerating (log (getUserEmailTag_loop w fuel i t)).
Proof.
  induction fuel as [|fuel IH]; intros i; [constructor|].
  rewrite getUserEmailTag_loop_step. cbn [after log].
  constructor; [exact I|].
  destruct (ListUserTags w i) as [result|err]; [|constructor].
  destruct (out (scanTags (ListUserTagsOutput.Tags result) O))
    as [[v|]| |]; try constructor.
  destruct (ListUserTagsOutput.Marker result); [apply IH|constructor].
Qed.

(** The loop over the keys only prints. *)
Lemma getDefaultedUsers_keys_prints w user email :
  forall keys acc t,
    Forall (fun e => exists line, e = EvPrintln line)
      (log (getDefaultedUsers_keys w user email keys acc t)).
Proof.
  induction keys as [|key rest IH]; intros acc t; [constructor|].
  rewrite getDefaultedUsers_keys_step. cbv zeta.
  destruct (out (isKeyOld w key [] t)) as [[[|] days]| |];
    try constructor; try apply IH.
  destruct (AccessKeyMetadata.AccessKeyId key) as [id|];
    [|constructor].
  destruct (User.UserName user) as [name|]; [|constructor].
  cbn [preceded log app]. constructor; [eexists; reflexivity|apply IH].
Qed.

Lemma prints_enumerating l :
  Forall (fun e => exists line, e = EvPrintln line) l -> Forall enumerating l.
Proof.
  apply Forall_impl. intros e [line ->]. exact I.
Qed.

Lemma prints_failed l :
  Forall (fun e => exists line, e = EvPrintln line) l -> failed l = false.
Proof.
  induction 1 as [|e l [line ->] _ IH]; [reflexivity|exact IH].
Qed.

Lemma prints_keyListings l :
  Forall (fun e => exists line, e = EvPrintln line) l -> keyListings l = [].
Proof.
  induction 1 as [|e l [line ->] _ IH]; [reflexivity|exact IH].
Qed.

Lemma getDefaultedUsers_users_enumerating w fuel :
  forall users acc t,
    Forall enumerating (log (getDefaultedUsers_users w fuel users acc t)).
Proof.
  induction users as [|user rest IH]; intros acc t; [constructor|].
  rewrite getDefaultedUsers_users_step. cbv zeta.
  pose proof (getUserEmailTag_loop_enumerating w t fuel
                (ListUserTagsInput.mk (User.UserName user) None)) as H1.
  pose proof (listAllAccessKeys_loop_enumerating w t fuel
                (ListAccessKeysInput.mk (User.UserName user) None) []) as H2.
  fold (getUserEmailTag w fuel user) in H1.
  fold (listAllAccessKeys w fuel user) in H2.
  destruct (out (getUserEmailTag w fuel user t)) as [[email [e|]]| |];
    cbn [log]; try exact H1.
  destruct (String.eqb email "").
  - cbn [preceded log]. apply Forall_app. split; [exact H1|apply IH].
  - destruct (out (listAllAccessKeys w fuel user t)) as [[keys [e|]]| |];
      cbn [log]; try (apply Forall_app; split; assumption).
    pose proof (prints_enumerating _
                  (getDefaultedUsers_keys_prints w user email keys acc t))
      as H3.
    destruct (out (getDefaultedUsers_keys w user email keys acc t));
      cbn [preceded log]; repeat (apply Forall_app; split); auto.
Qed.

Lemma getDefaultedUsers_enumerating w fuel t :
  Forall enumerating (log (getDefaultedUsers w fuel t)).
Proof.
  rewrite getDefaultedUsers_run. cbv zeta.
  pose proof (listAllUsers_loop_enumerating w t fuel
                (ListUsersInput.mk None) []) as H.
  fold (listAllUsers w fuel) in H.
  destruct (out (listAllUsers w fuel t)) as [[users [e|]]| |];
    cbn [preceded log]; try exact H.
  apply Forall_app. split; [exact H|].
  apply getDefaultedUsers_users_enumerating.
Qed.

Lemma HandleLabdaEvent_loop_acting w fromAddress dryRun :
  forall defaultedUsers t,
    Forall acting
      (log (HandleLabdaEvent_loop w fromAddress dryRun defaultedUsers t)).
Proof.
  induction defaultedUsers as [|user rest IH]; intros t; [constructor|].
  rewrite HandleLabdaEvent_loop_step. cbv zeta. cbn [preceded log].
  apply Forall_app. split.
  { unfold sendEvents. rewrite sendEmail_run. repeat constructor. }
  destruct (out (isKeyOld w (defaultedUser.Key user) [100] t))
    as [[[|] days]| |]; try constructor; try apply IH.
  destruct (String.eqb dryRun "--dry-run"); [|apply IH].
  destruct (AccessKeyMetadata.AccessKeyId (defaultedUser.Key user)) as [id|];
    [|constructor].
  cbn [preceded log]. apply Forall_app. split; [|apply IH].
  unfold deleteEvents. rewrite deleteKeys_run. repeat constructor.
Qed.

(** ** Failure of a listing call *)

Lemma getUserEmailTag_failed w fuel user t :
  failed (log (getUserEmailTag w fuel user t))
  = match out (getUserEmailTag w fuel user t) with
    | Done (_, Some _) => true
    | _ => false
    end.
Proof.
  unfold getUserEmailTag.
  destruct (failed (log (getUserEmailTag_loop w fuel _ t))) eqn:F.
  - destruct (getUserEmailTag_loop_failed w t fuel _ F) as [e ->]. reflexivity.
  - destruct (out (getUserEmailTag_loop w fuel _ t)) as [[v [e|]]| |] eqn:E;
      try reflexivity.
    rewrite (getUserEmailTag_loop_error w t fuel _ v e E) in F. discriminate F.
Qed.

Lemma listAllAccessKeys_failed w fuel user t :
  failed (log (listAllAccessKeys w fuel user t))
  = match out (listAllAccessKeys w fuel user t) with
    | Done (_, Some _) => true
    | _ => false
    end.
Proof.
  unfold listAllAccessKeys.
  destruct (failed (log (listAllAccessKeys_loop w fuel _ [] t))) eqn:F.
  - destruct (listAllAccessKeys_loop_failed w t fuel _ _ F) as [e ->].
    reflexivity.
  - destruct (out (listAllAccessKeys_loop w fuel _ [] t))
      as [[v [e|]]| |] eqn:E; try reflexivity.
    destruct (listAllAccessKeys_loop_error w t fuel _ _ v e E) as [_ F'].
    rewrite F' in F. discriminate F.
Qed.

Lemma listAllUsers_failed w fuel t :
  failed (log (listAllUsers w fuel t))
  = match out (listAllUsers w fuel t) with
    | Done (_, Some _) => true
    | _ => false
    end.
Proof.
  unfold listAllUsers.
  destruct (failed (log (listAllUsers_loop w fuel _ [] t))) eqn:F.
  - destruct (listAllUsers_loop_failed w t fuel _ _ F) as [e ->].
    reflexivity.
  - destruct (out (listAllUsers_loop w fuel _ [] t))
      as [[v [e|]]| |] eqn:E; try reflexivity.
    destruct (listAllUsers_loop_error w t fuel _ _ v e E) as [_ F'].
    rewrite F' in F. discriminate F.
Qed.

(** In the loop over the users a listing call has failed exactly when the
    loop returns an error, and the list returned with an error is nil. *)
Lemma getDefaultedUsers_users_failed w fuel :
  forall users acc t,
    match out (getDefaultedUsers_users w fuel users acc t) with
    | Done (l, Some _) =>
        l = []
        /\ failed (log (getDefaultedUsers_users w fuel users acc t)) = true
    | _ => failed (log (getDefaultedUsers_users w fuel users acc t)) = false
    end.
Proof.
  induction users as [|user rest IH]; intros acc t; [reflexivity|].
  rewrite getDefaultedUsers_users_step. cbv zeta.
  pose proof (getUserEmailTag_failed w fuel user t) as F1.
  pose proof (listAllAccessKeys_failed w fuel user t) as F2.
  destruct (out (getUserEmailTag w fuel user t)) as [[email [e|]]| |];
    cbn [out log]; auto.
  destruct (String.eqb email "").
  - cbn [preceded out log]. rewrite failed_app, F1. exact (IH acc t).
  - destruct (out (listAllAccessKeys w fuel user t)) as [[keys [e|]]| |];
      cbn [out log]; rewrite ?failed_app, ?F1, ?F2; auto.
    pose proof (prints_failed _
                  (getDefaultedUsers_keys_prints w user email keys acc t))
      as F3.
    destruct (out (getDefaultedUsers_keys w user email keys acc t)) as [l| |];
      cbn [preceded out log]; rewrite ?failed_app, ?F1, ?F2, ?F3; auto.
    exact (IH l _).
Qed.

Lemma getDefaultedUsers_failed w fuel t :
  match out (getDefaultedUsers w fuel t) with
  | Done (l, Some _) =>
      l = [] /\ failed (log (getDefaultedUsers w fuel t)) = true
  | _ => failed (log (getDefaultedUsers w fuel t)) = false
  end.
Proof.
  rewrite getDefaultedUsers_run. cbv zeta.
  pose proof (listAllUsers_failed w fuel t) as F.
  destruct (out (listAllUsers w fuel t)) as [[users [e|]]| |];
    cbn [preceded out log]; auto.
  rewrite failed_app, F.
  exact (getDefaultedUsers_users_failed w fuel users [] t).
Qed.

(** A run of the handler in which a listing call failed. *)
Lemma HandleLabdaEvent_failed w fuel t :
  failed (log (HandleLabdaEvent w fuel t)) = true ->
  sends (log (HandleLabdaEvent w fuel t)) = []
  /\ deletes (log (HandleLabdaEvent w fuel t)) = []
  /\ out (HandleLabdaEvent w fuel t) = Done None.
Proof.
  pose proof (getDefaultedUsers_failed w fuel t) as G.
  rewrite HandleLabdaEvent_run.
  destruct (LoadDefaultConfig w) as [err|]; [intro F; discriminate F|].
  cbv zeta.
  pose proof (getDefaultedUsers_enumerating w fuel t) as Q.
  destruct (out (getDefaultedUsers w fuel t)) as [[l [e|]]| |];
    cbn [out log]; intro F.
  - rewrite sends_app, deletes_app.
    rewrite (enumerating_sends _ Q), (enumerating_deletes _ Q).
    repeat split; reflexivity.
  - rewrite failed_app, G in F.
    rewrite (acting_failed _ (HandleLabdaEvent_loop_acting w _ _ l _)) in F.
    discriminate F.
  - rewrite G in F. discriminate F.
  - rewrite G in F. discriminate F.
Qed.

(** C7.  A failed listing call of users, tags or access keys makes
    [getDefaultedUsers] return an error together with the nil list; whenever
    it returns an error the list is nil; and a run of the handler in which
    such a call failed sends no notification, issues no deletion and
    returns nil. *)
Theorem listing_failure_aborts w fuel t :
  (failed (log (getDefaultedUsers w fuel t)) = true ->
   exists e, out (getDefaultedUsers w fuel t) = Done ([], Some e))
  /\ (forall l e,
        out (getDefaultedUsers w fuel t) = Done (l, Some e) -> l = [])
  /\ (failed (log (HandleLabdaEvent w fuel t)) = true ->
      sends (log (HandleLabdaEvent w fuel t)) = []
      /\ deletes (log (HandleLabdaEvent w fuel t)) = []
      /\ out (HandleLabdaEvent w fuel t) = Done None).
Proof.
  pose proof (getDefaultedUsers_failed w fuel t) as G.
  split; [|split].
  - intro F. destruct (out (getDefaultedUsers w fuel t)) as [[l [e|]]| |];
      try (rewrite G in F; discriminate F).
    destruct G as [-> _]. exists e. reflexivity.
  - intros l e E. rewrite E in G. apply G.
  - apply HandleLabdaEvent_failed.
Qed.

(** ** What the notices are made of *)

Lemma noticeFrom_more user email key keys d :
  noticeFrom user email keys d -> noticeFrom user email (key :: keys) d.
Proof.
  intros (H1 & H2 & H3 & H4). repeat split; auto; try apply H4.
  right. exact H3.
Qed.

Lemma getDefaultedUsers_keys_notices w user email :
  forall keys acc t l,
    out (getDefaultedUsers_keys w user email keys acc t) = Done l ->
    exists new, l = acc ++ new /\ Forall (noticeFrom user email keys) new.
Proof.
  induction keys as [|key rest IH]; intros acc t l H.
  - cbn in H. injection H as <-. exists []. rewrite app_nil_r. auto.
  - rewrite getDefaultedUsers_keys_step in H. cbv zeta in H.
    destruct (out (isKeyOld w key [] t)) as [[[|] days]| |] eqn:E;
      try discriminate H.
    + destruct (AccessKeyMetadata.AccessKeyId key) as [id|] eqn:Ei;
        [|discriminate H].
      destruct (User.UserName user) as [name|] eqn:En; [|discriminate H].
      cbn [preceded out] in H.
      destruct (IH _ _ _ H) as (new & -> & F).
      exists (defaultedUser.mk name email key days :: new).
      rewrite <- app_assoc. split; [reflexivity|].
      constructor.
      * repeat split; cbn; auto.
        -- rewrite Ei. discriminate.
        -- intro C. rewrite (isKeyOld_nil w key [] t C) in E. discriminate E.
      * revert F. apply Forall_impl. intro d. apply noticeFrom_more.
    + destruct (IH _ _ _ H) as (new & -> & F).
      exists new. split; [reflexivity|].
      revert F. apply Forall_impl. intro d. apply noticeFrom_more.
Qed.

(** Every notice of the enumeration carries a key whose id and creation date
    are there. *)
Lemma getDefaultedUsers_users_populated w fuel :
  forall users acc t,
    Forall (fun d => key_populated (defaultedUser.Key d)) acc ->
    Forall (fun d => key_populated (defaultedUser.Key d))
      (notices (getDefaultedUsers_users w fuel users acc t)).
Proof.
  induction users as [|user rest IH]; intros acc t A; [exact A|].
  unfold notices in *. rewrite getDefaultedUsers_users_step. cbv zeta.
  destruct (out (getUserEmailTag w fuel user t)) as [[email [e|]]| |];
    cbn [out]; try constructor.
  destruct (String.eqb email ""); [apply IH; exact A|].
  destruct (out (listAllAccessKeys w fuel user t)) as [[keys [e|]]| |];
    cbn [out]; try constructor.
  destruct (out (getDefaultedUsers_keys w user email keys acc t))
    as [l| |] eqn:E; cbn [preceded out]; try constructor.
  apply IH.
  destruct (getDefaultedUsers_keys_notices w user email keys acc t l E)
    as (new & -> & F).
  apply Forall_app. split; [exact A|].
  revert F. apply Forall_impl. intros d (_ & _ & _ & H). exact H.
Qed.

Lemma getDefaultedUsers_populated w fuel t :
  Forall (fun d => key_populated (defaultedUser.Key d))
    (notices (getDefaultedUsers w fuel t)).
Proof.
  pose proof (getDefaultedUsers_users_populated w fuel) as H.
  unfold notices in *. rewrite getDefaultedUsers_run. cbv zeta.
  destruct (out (listAllUsers w fuel t)) as [[users [e|]]| |];
    cbn [preceded out]; try constructor.
  apply H. constructor.
Qed.

(** ** Principals without an address *)

Lemma scanTags_noEmail tags v :
  (forall g, In g tags -> Tag.Key g = Some "email" -> Tag.Value g = Some "") ->
  out (scanTags tags O) = Done (Some v) -> v = "".
Proof.
  induction tags as [|g tags IH]; intros N H; [discriminate H|].
  cbn [scanTags] in H. rewrite out_bind in H.
  destruct (Tag.Key g) as [k|] eqn:K; [|discriminate H].
  cbn [deref ret out reads] in H.
  destruct (String.eqb k "email") eqn:E.
  - apply String.eqb_eq in E. subst k.
    rewrite (N g (or_introl eq_refl) K) in H. cbn in H.
    injection H as <-. reflexivity.
  - apply IH; [|exact H]. intros g' I. apply N. right. exact I.
Qed.

Lemma getUserEmailTag_loop_noEmail w name t :
  noEmail w name ->
  forall fuel m email,
    out (getUserEmailTag_loop w fuel (ListUserTagsInput.mk name m) t)
    = Done (email, None) ->
    email = "".
Proof.
  intros N. induction fuel as [|fuel IH]; intros m email H;
    [discriminate H|].
  rewrite getUserEmailTag_loop_step in H. cbn [after out] in H.
  destruct (ListUserTags w (ListUserTagsInput.mk name m)) as [result|err] eqn:R;
    [|discriminate H].
  destruct (out (scanTags (ListUserTagsOutput.Tags result) O))
    as [[v|]| |] eqn:S; try discriminate H.
  - cbn in H. injection H as <-.
    apply (scanTags_noEmail (ListUserTagsOutput.Tags result)); [|exact S].
    intros g I. exact (N m result g R I).
  - destruct (ListUserTagsOutput.Marker result) eqn:Mk.
    + apply (IH (Some s)). exact H.
    + cbn in H. injection H as <-. reflexivity.
Qed.

Lemma listAllAccessKeys_loop_keyListings w t :
  forall fuel i keys,
    Forall (eq (ListAccessKeysInput.UserName i))
      (keyListings (log (listAllAccessKeys_loop w fuel i keys t))).
Proof.
  induction fuel as [|fuel IH]; intros i keys; [constructor|].
  rewrite listAllAccessKeys_loop_step. cbn [after log keyListings flat_map app].
  constructor; [reflexivity|].
  destruct (ListAccessKeys w i) as [result|err]; [|constructor].
  destruct (ListAccessKeysOutput.Marker result); [|constructor].
  exact (IH (ListAccessKeysInput.mk (ListAccessKeysInput.UserName i) _) _).
Qed.

Lemma getUserEmailTag_loop_keyListings w t :
  forall fuel i, keyListings (log (getUserEmailTag_loop w fuel i t)) = [].
Proof.
  induction fuel as [|fuel IH]; intros i; [reflexivity|].
  rewrite getUserEmailTag_loop_step. cbn [after log keyListings flat_map app].
  destruct (ListUserTags w i) as [result|err]; [|reflexivity].
  destruct (out (scanTags (ListUserTagsOutput.Tags result) O))
    as [[v|]| |]; try reflexivity.
  destruct (ListUserTagsOutput.Marker result); [apply IH|reflexivity].
Qed.

Lemma listAllUsers_loop_keyListings w t :
  forall fuel i users,
    keyListings (log (listAllUsers_loop w fuel i users t)) = [].
Proof.
  induction fuel as [|fuel IH]; intros i users; [reflexivity|].
  rewrite listAllUsers_loop_step. cbn [after log keyListings flat_map app].
  destruct (ListUsers w i) as [result|err]; [|reflexivity].
  destruct (ListUsersOutput.Marker result); [apply IH|reflexivity].
Qed.

Lemma getDefaultedUsers_users_noEmail w fuel name :
  noEmail w (Some name) ->
  forall users acc t,
    Forall (fun d => defaultedUser.UserName d <> name) acc ->
    Forall (fun d => defaultedUser.UserName d <> name)
      (notices (getDefaultedUsers_users w fuel users acc t))
    /\ ~ In (Some name)
         (keyListings (log (getDefaultedUsers_users w fuel users acc t))).
Proof.
  intros N. induction users as [|user rest IH]; intros acc t A.
  { split; [exact A|intros []]. }
  unfold notices in *. rewrite getDefaultedUsers_users_step. cbv zeta.
  pose proof (getUserEmailTag_loop_keyListings w t fuel
                (ListUserTagsInput.mk (User.UserName user) None)) as K1.
  fold (getUserEmailTag w fuel user) in K1.
  pose proof (listAllAccessKeys_loop_keyListings w t fuel
                (ListAccessKeysInput.mk (User.UserName user) None) []) as K2.
  fold (listAllAccessKeys w fuel user) in K2.
  cbn [ListAccessKeysInput.UserName] in K2.
  destruct (out (getUserEmailTag w fuel user t)) as [[email [e|]]| |] eqn:E1;
    cbn [out log]; rewrite ?K1; try (split; [constructor|intros []]).
  destruct (String.eqb email "") eqn:Q.
  { cbn [preceded out log]. rewrite keyListings_app, K1. apply IH. exact A. }
  assert (U : User.UserName user <> Some name).
  { intro C. unfold getUserEmailTag in E1. rewrite C in E1.
    rewrite (getUserEmailTag_loop_noEmail w (Some name) t N fuel None email E1)
      in Q.
    discriminate Q. }
  assert (K2' : ~ In (Some name)
                    (keyListings (log (listAllAccessKeys w fuel user t)))).
  { intro I. rewrite Forall_forall in K2. apply U. symmetry.
    apply K2 in I. symmetry. exact I. }
  destruct (out (listAllAccessKeys w fuel user t)) as [[keys [e|]]| |];
    cbn [out log]; rewrite ?keyListings_app, ?K1;
    try (split; [constructor|exact K2']).
  pose proof (prints_keyListings _
                (getDefaultedUsers_keys_prints w user email keys acc t)) as K3.
  destruct (out (getDefaultedUsers_keys w user email keys acc t))
    as [l| |] eqn:E3; cbn [preceded out log];
    rewrite ?keyListings_app, ?K1, ?K3, ?app_nil_r;
    try (split; [constructor|exact K2']).
  destruct (getDefaultedUsers_keys_notices w user email keys acc t l E3)
    as (new & -> & F).
  destruct (IH (acc ++ new)
              (reads (getDefaultedUsers_keys w user email keys acc t)))
    as [I1 I2].
  { apply Forall_app. split; [exact A|].
    revert F. apply Forall_impl. intros d (H & _) C. apply U.
    rewrite H, C. reflexivity. }
  split; [exact I1|].
  cbn [app]. intro I. apply in_app_or in I. destruct I; auto.
Qed.

Lemma getDefaultedUsers_noEmail w fuel name t :
  noEmail w (Some name) ->
  Forall (fun d => defaultedUser.UserName d <> name)
    (notices (getDefaultedUsers w fuel t))
  /\ ~ In (Some name) (keyListings (log (getDefaultedUsers w fuel t))).
Proof.
  intro N.
  pose proof (getDefaultedUsers_users_noEmail w fuel name N) as H.
  pose proof (listAllUsers_loop_keyListings w t fuel
                (ListUsersInput.mk None) []) as K.
  fold (listAllUsers w fuel) in K.
  unfold notices in *. rewrite getDefaultedUsers_run. cbv zeta.
  destruct (out (listAllUsers w fuel t)) as [[users [e|]]| |];
    cbn [preceded out log]; rewrite ?keyListings_app, ?K;
    try (split; [constructor|intros []]).
  apply H. constructor.
Qed.

(** ** What the handler does with the notices *)

Lemma sends_sendEvents w fromAddress user :
  sends (sendEvents w fromAddress user) = [notification fromAddress user].
Proof. unfold sendEvents. rewrite sendEmail_run. reflexivity. Qed.

Lemma deletes_sendEvents w fromAddress user :
  deletes (sendEvents w fromAddress user) = [].
Proof. unfold sendEvents. rewrite sendEmail_run. reflexivity. Qed.

Lemma sends_deleteEvents w id user : sends (deleteEvents w id user) = [].
Proof. unfold deleteEvents. rewrite deleteKeys_run. reflexivity. Qed.

Lemma deletes_deleteEvents w id user :
  deletes (deleteEvents w id user)
  = [DeleteAccessKeyInput.mk id (defaultedUser.UserName user)].
Proof. unfold deleteEvents. rewrite deleteKeys_run. reflexivity. Qed.

(** Every notification of the loop is the one of a notice, and every
    deletion names the key and the principal of a notice. *)
Lemma HandleLabdaEvent_loop_from_notices w fromAddress dryRun :
  forall defaultedUsers t,
    (forall i,
       In i (sends (log (HandleLabdaEvent_loop w fromAddress dryRun
                           defaultedUsers t))) ->
       exists d, In d defaultedUsers /\ i = notification fromAddress d)
    /\ (forall i,
          In i (deletes (log (HandleLabdaEvent_loop w fromAddress dryRun
                                defaultedUsers t))) ->
          exists d,
            In d defaultedUsers
            /\ AccessKeyMetadata.AccessKeyId (defaultedUser.Key d)
               = Some (DeleteAccessKeyInput.AccessKeyId i)
            /\ DeleteAccessKeyInput.UserName i = defaultedUser.UserName d).
Proof.
  induction defaultedUsers as [|user rest IH]; intros t.
  { split; intros i []. }
  rewrite HandleLabdaEvent_loop_step. cbv zeta. cbn [preceded log].
  rewrite sends_app, deletes_app, sends_sendEvents, deletes_sendEvents.
  cbn [app].
  assert (S0 : forall r : Run unit,
             (forall i, In i (sends (log r)) ->
                exists d, In d rest /\ i = notification fromAddress d) ->
             forall i, In i (notification fromAddress user :: sends (log r)) ->
               exists d, In d (user :: rest) /\ i = notification fromAddress d).
  { intros r H i [<-|I].
    - exists user. split; [left|]; reflexivity.
    - destruct (H i I) as (d & Hd & ->). exists d. split; [right|]; auto. }
  assert (D0 : forall r : Run unit,
             (forall i, In i (deletes (log r)) ->
                exists d, In d rest
                  /\ AccessKeyMetadata.AccessKeyId (defaultedUser.Key d)
                     = Some (DeleteAccessKeyInput.AccessKeyId i)
                  /\ DeleteAccessKeyInput.UserName i
                     = defaultedUser.UserName d) ->
             forall i, In i (deletes (log r)) ->
               exists d, In d (user :: rest)
                 /\ AccessKeyMetadata.AccessKeyId (defaultedUser.Key d)
                    = Some (DeleteAccessKeyInput.AccessKeyId i)
                 /\ DeleteAccessKeyInput.UserName i = defaultedUser.UserName d).
  { intros r H i I. destruct (H i I) as (d & Hd & R).
    exists d. split; [right|]; auto. }
  destruct (out (isKeyOld w (defaultedUser.Key user) [100] t))
    as [[[|] days]| |].
  - destruct (String.eqb dryRun "--dry-run").
    + destruct (AccessKeyMetadata.AccessKeyId (defaultedUser.Key user))
        as [id|] eqn:Ei.
      * cbn [preceded log].
        rewrite sends_app, deletes_app, sends_deleteEvents,
          deletes_deleteEvents.
        cbn [app]. split.
        -- apply S0. apply IH.
        -- intros i [<-|I].
           ++ exists user. split; [left; reflexivity|]. split; auto.
           ++ apply (D0 _ (proj2 (IH _)) i I).
      * split; [apply (S0 (mkRun Panic _ []))|]; intros i [].
    + split; [apply S0|apply D0]; apply IH.
  - split; [apply S0|apply D0]; apply IH.
  - split; [apply (S0 (mkRun Panic _ []))|]; intros i [].
  - split; [apply (S0 (mkRun OutOfFuel _ []))|]; intros i [].
Qed.

Lemma listing_failure_aborts_witness :
  failed (log (getDefaultedUsers failingWorld 1 O)) = true
  /\ out (getDefaultedUsers failingWorld 1 O)
     = Done ([], Some "error listing tags: Throttling")
  /\ sends (log (HandleLabdaEvent failingWorld 1 O)) = []
  /\ deletes (log (HandleLabdaEvent failingWorld 1 O)) = []
  /\ out (HandleLabdaEvent failingWorld 1 O) = Done None.
Proof.
  destruct (listing_failure_aborts failingWorld 1 O) as (H1 & H2 & H3).
  split; [reflexivity|]. split; [reflexivity|].
  apply H3. reflexivity.
Defined.

(** The notifications and deletions of a run of the handler come from the
    notices of its enumeration, and the loop over the notices lists no
    keys. *)
Lemma HandleLabdaEvent_from_notices w fuel t :
  (forall i,
     In i (sends (log (HandleLabdaEvent w fuel t))) ->
     exists d,
       In d (notices (getDefaultedUsers w fuel t))
       /\ i = notification (Getenv w "EMAIL_FROM_ADDRESS") d)
  /\ (forall i,
        In i (deletes (log (HandleLabdaEvent w fuel t))) ->
        exists d,
          In d (notices (getDefaultedUsers w fuel t))
          /\ AccessKeyMetadata.AccessKeyId (defaultedUser.Key d)
             = Some (DeleteAccessKeyInput.AccessKeyId i)
          /\ DeleteAccessKeyInput.UserName i = defaultedUser.UserName d)
  /\ keyListings (log (HandleLabdaEvent w fuel t))
     = match LoadDefaultConfig w with
       | Some _ => []
       | None => keyListings (log (getDefaultedUsers w fuel t))
       end.
Proof.
  rewrite HandleLabdaEvent_run. unfold notices.
  destruct (LoadDefaultConfig w) as [err|].
  { cbn. repeat split; intros i []. }
  cbv zeta.
  pose proof (getDefaultedUsers_enumerating w fuel t) as Q.
  destruct (out (getDefaultedUsers w fuel t)) as [[l [e|]]| |]; cbn [log];
    rewrite ?sends_app, ?deletes_app, ?keyListings_app,
      ?(enumerating_sends _ Q), ?(enumerating_deletes _ Q);
    try (cbn; rewrite ?app_nil_r; repeat split; intros i []).
  rewrite (acting_keyListings _ (HandleLabdaEvent_loop_acting w _ _ l _)).
  rewrite app_nil_r. cbn [app].
  destruct (HandleLabdaEvent_loop_from_notices w
              (Getenv w "EMAIL_FROM_ADDRESS") (Getenv w "DRY_RUN") l
              (reads (getDefaultedUsers w fuel t))) as [S D].
  repeat split; assumption.
Qed.

(** C5.  A principal [name] whose tags hold no usable address (no tag with
    key [email], or the empty string as its value) gets no notice: no notice
    of the enumeration bears its name, its keys are never listed, every
    notification of the run is the one of a notice of another principal, and
    no deletion names it. *)
Theorem no_email_no_notice w name fuel t :
  noEmail w (Some name) ->
  (forall d,
     In d (notices (getDefaultedUsers w fuel t)) ->
     defaultedUser.UserName d <> name)
  /\ ~ In (Some name) (keyListings (log (HandleLabdaEvent w fuel t)))
  /\ (forall i,
        In i (sends (log (HandleLabdaEvent w fuel t))) ->
        exists d,
          In d (notices (getDefaultedUsers w fuel t))
          /\ defaultedUser.UserName d <> name
          /\ i = notification (Getenv w "EMAIL_FROM_ADDRESS") d)
  /\ (forall i,
        In i (deletes (log (HandleLabdaEvent w fuel t))) ->
        DeleteAccessKeyInput.UserName i <> name).
Proof.
  intro N.
  destruct (getDefaultedUsers_noEmail w fuel name t N) as [A K].
  rewrite Forall_forall in A.
  destruct (HandleLabdaEvent_from_notices w fuel t) as (S & D & L).
  split; [exact A|]. split; [|split].
  - rewrite L. destruct (LoadDefaultConfig w); [intros []|exact K].
  - intros i I. destruct (S i I) as (d & Hd & ->).
    exists d. repeat split; auto.
  - intros i I. destruct (D i I) as (d & Hd & _ & ->). apply A. exact Hd.
Qed.

Lemma no_email_no_notice_witness :
  noEmail bobWorld (Some "bob")
  /\ notices (getDefaultedUsers bobWorld 1 O) = [aliceNotice]
  /\ (forall d,
        In d (notices (getDefaultedUsers bobWorld 1 O)) ->
        defaultedUser.UserName d <> "bob")
  /\ ~ In (Some "bob") (keyListings (log (HandleLabdaEvent bobWorld 1 O)))
  /\ (forall i,
        In i (deletes (log (HandleLabdaEvent bobWorld 1 O))) ->
        DeleteAccessKeyInput.UserName i <> "bob").
Proof.
  assert (N : noEmail bobWorld (Some "bob")).
  { intros m r g H I K. cbn in H. injection H as <-.
    destruct I as [<-|[]]. discriminate K. }
  destruct (no_email_no_notice bobWorld "bob" 1 O N) as (H1 & H2 & _ & H4).
  split; [exact N|]. split; [reflexivity|]. split; [exact H1|].
  split; [exact H2|exact H4].
Defined.

(** ** The notice list under a standing clock *)

Lemma getDefaultedUsers_keys_frozen w now user email :
  frozen w now ->
  forall keys acc t l,
    out (getDefaultedUsers_keys w user email keys acc t) = Done l ->
    l = acc ++ keyNotices now (userName user) email keys.
Proof.
  intro F. induction keys as [|key rest IH]; intros acc t l H.
  - cbn in H. injection H as <-. cbn. rewrite app_nil_r. reflexivity.
  - rewrite getDefaultedUsers_keys_step in H. cbv zeta in H.
    rewrite (isKeyOld_label w now key t F) in H.
    cbn [keyNotices flat_map]. fold (keyNotices now (userName user) email rest).
    destruct (AccessKeyMetadata.CreateDate key) as [c|]; [|discriminate H].
    destruct (label now key) as [days|].
    + destruct (AccessKeyMetadata.AccessKeyId key) as [id|];
        [|discriminate H].
      unfold userName.
      destruct (User.UserName user) as [name|] eqn:En; [|discriminate H].
      cbn [preceded out] in H. apply IH in H.
      unfold userName in H. rewrite En in H.
      rewrite H, <- app_assoc. reflexivity.
    + apply IH in H. exact H.
Qed.

Lemma getDefaultedUsers_users_frozen w now fuel :
  frozen w now ->
  forall users acc t l,
    out (getDefaultedUsers_users w fuel users acc t) = Done (l, None) ->
    l = acc ++ flat_map (noticesOf w fuel now) users.
Proof.
  intro F. induction users as [|user rest IH]; intros acc t l H.
  - cbn in H. injection H as <-. cbn. rewrite app_nil_r. reflexivity.
  - rewrite getDefaultedUsers_users_step in H. cbv zeta in H.
    cbn [flat_map]. unfold noticesOf at 1.
    rewrite <- (clockless_out _ (getUserEmailTag w fuel user) t)
      by apply clockless_getUserEmailTag.
    rewrite <- (clockless_out _ (listAllAccessKeys w fuel user) t)
      by apply clockless_listAllAccessKeys.
    destruct (out (getUserEmailTag w fuel user t)) as [[email [e|]]| |];
      try discriminate H.
    destruct (String.eqb email "").
    + cbn [preceded out] in H. apply IH in H. exact H.
    + destruct (out (listAllAccessKeys w fuel user t)) as [[keys [e|]]| |];
        try discriminate H.
      destruct (out (getDefaultedUsers_keys w user email keys acc t))
        as [l'| |] eqn:E; try discriminate H.
      cbn [preceded out] in H. apply IH in H.
      rewrite (getDefaultedUsers_keys_frozen w now user email F _ _ _ _ E)
        in H.
      rewrite H, <- app_assoc. reflexivity.
Qed.

(** ** No panic on populated records *)

Lemma isKeyOld_cases w key olderThan t :
  (AccessKeyMetadata.CreateDate key = None
   /\ out (isKeyOld w key olderThan t) = Panic)
  \/ (AccessKeyMetadata.CreateDate key <> None
      /\ exists r, out (isKeyOld w key olderThan t) = Done r).
Proof.
  destruct (AccessKeyMetadata.CreateDate key) as [c|] eqn:E.
  - right. split; [discriminate|]. apply isKeyOld_returns. rewrite E.
    discriminate.
  - left. split; [reflexivity|]. apply isKeyOld_nil. exact E.
Qed.

Lemma listAllUsers_loop_safe w t :
  populated w ->
  forall fuel i users,
    Forall user_populated users ->
    match out (listAllUsers_loop w fuel i users t) with
    | Done (l, _) => Forall user_populated l
    | Panic => False
    | OutOfFuel => True
    end.
Proof.
  intros (P & _ & _). induction fuel as [|fuel IH]; intros i users A;
    [exact I|].
  rewrite listAllUsers_loop_step. cbn [after out].
  destruct (ListUsers w i) as [result|err] eqn:R; [|constructor].
  assert (A' : Forall user_populated (users ++ ListUsersOutput.Users result)).
  { apply Forall_app. split; [exact A|]. exact (P i result R). }
  destruct (ListUsersOutput.Marker result); [apply IH|]; exact A'.
Qed.

Lemma listAllAccessKeys_loop_safe w t :
  populated w ->
  forall fuel i keys,
    Forall key_populated keys ->
    match out (listAllAccessKeys_loop w fuel i keys t) with
    | Done (l, _) => Forall key_populated l
    | Panic => False
    | OutOfFuel => True
    end.
Proof.
  intros (_ & _ & P). induction fuel as [|fuel IH]; intros i keys A;
    [exact I|].
  rewrite listAllAccessKeys_loop_step. cbn [after out].
  destruct (ListAccessKeys w i) as [result|err] eqn:R; [|constructor].
  assert (A' : Forall key_populated
                 (keys ++ ListAccessKeysOutput.AccessKeyMetadata result)).
  { apply Forall_app. split; [exact A|]. exact (P i result R). }
  destruct (ListAccessKeysOutput.Marker result); [apply IH|]; exact A'.
Qed.

Lemma scanTags_safe tags :
  Forall tag_populated tags -> exists r, out (scanTags tags O) = Done r.
Proof.
  induction 1 as [|g tags [K V] _ IH]; [eexists; reflexivity|].
  cbn [scanTags]. rewrite out_bind.
  destruct (Tag.Key g) as [k|]; [|congruence]. cbn [deref ret out reads].
  destruct (String.eqb k "email"); [|exact IH].
  destruct (Tag.Value g) as [v|]; [|congruence]. eexists. reflexivity.
Qed.

Lemma getUserEmailTag_loop_safe w t :
  populated w ->
  forall fuel i, out (getUserEmailTag_loop w fuel i t) <> Panic.
Proof.
  intros (_ & P & _). induction fuel as [|fuel IH]; intros i;
    [discriminate|].
  rewrite getUserEmailTag_loop_step. cbn [after out].
  destruct (ListUserTags w i) as [result|err] eqn:R; [|discriminate].
  destruct (scanTags_safe _ (P i result R)) as [[v|] ->]; [discriminate|].
  destruct (ListUserTagsOutput.Marker result); [apply IH|discriminate].
Qed.

Lemma getDefaultedUsers_keys_safe w user email :
  user_populated user ->
  forall keys acc t,
    Forall key_populated keys ->
    exists l, out (getDefaultedUsers_keys w user email keys acc t) = Done l.
Proof.
  intros U. induction keys as [|key rest IH]; intros acc t A.
  { eexists. reflexivity. }
  inversion A as [|? ? [Ki Kc] A']; subst.
  rewrite getDefaultedUsers_keys_step. cbv zeta.
  destruct (isKeyOld_cases w key [] t) as [[C _]|[_ [[[|] days] ->]]];
    [congruence| |apply IH; exact A'].
  destruct (AccessKeyMetadata.AccessKeyId key) as [id|]; [|congruence].
  unfold user_populated in U.
  destruct (User.UserName user) as [name|]; [|congruence].
  cbn [preceded out]. apply IH. exact A'.
Qed.

Lemma getDefaultedUsers_users_safe w fuel :
  populated w ->
  forall users acc t,
    Forall user_populated users ->
    out (getDefaultedUsers_users w fuel users acc t) <> Panic.
Proof.
  intros P. induction users as [|user rest IH]; intros acc t A;
    [discriminate|].
  inversion A as [|? ? U A']; subst.
  rewrite getDefaultedUsers_users_step. cbv zeta.
  pose proof (getUserEmailTag_loop_safe w t P fuel
                (ListUserTagsInput.mk (User.UserName user) None)) as S1.
  fold (getUserEmailTag w fuel user) in S1.
  pose proof (listAllAccessKeys_loop_safe w t P fuel
                (ListAccessKeysInput.mk (User.UserName user) None) []
                (Forall_nil _)) as S2.
  fold (listAllAccessKeys w fuel user) in S2.
  destruct (out (getUserEmailTag w fuel user t)) as [[email [e|]]| |];
    try discriminate; [|congruence].
  destruct (String.eqb email ""); [apply IH; exact A'|].
  destruct (out (listAllAccessKeys w fuel user t)) as [[keys [e|]]| |];
    try discriminate; [|destruct S2].
  destruct (getDefaultedUsers_keys_safe w user email U keys acc t S2)
    as [l ->].
  cbn [preceded out]. apply IH. exact A'.
Qed.

Lemma getDefaultedUsers_safe w fuel t :
  populated w -> out (getDefaultedUsers w fuel t) <> Panic.
Proof.
  intro P. rewrite getDefaultedUsers_run. cbv zeta.
  pose proof (listAllUsers_loop_safe w t P fuel (ListUsersInput.mk None) []
                (Forall_nil _)) as S.
  fold (listAllUsers w fuel) in S.
  destruct (out (listAllUsers w fuel t)) as [[users [e|]]| |];
    try discriminate; [|destruct S].
  cbn [preceded out]. apply getDefaultedUsers_users_safe; assumption.
Qed.

(** The loop over notices whose keys are populated runs to its end. *)
Lemma HandleLabdaEvent_loop_returns w fromAddress dryRun :
  forall defaultedUsers t,
    Forall (fun d => key_populated (defaultedUser.Key d)) defaultedUsers ->
    out (HandleLabdaEvent_loop w fromAddress dryRun defaultedUsers t)
    = Done tt.
Proof.
  induction defaultedUsers as [|user rest IH]; intros t A; [reflexivity|].
  inversion A as [|? ? [Ki Kc] A']; subst.
  rewrite HandleLabdaEvent_loop_step. cbv zeta. cbn [preceded out].
  destruct (isKeyOld_cases w (defaultedUser.Key user) [100] t)
    as [[C _]|[_ [[[|] days] ->]]]; [congruence| |apply IH; exact A'].
  destruct (String.eqb dryRun "--dry-run"); [|apply IH; exact A'].
  destruct (AccessKeyMetadata.AccessKeyId (defaultedUser.Key user)) as [id|];
    [|congruence].
  cbn [preceded out]. apply IH. exact A'.
Qed.

(** Whatever the world, the handler ends with nil, with a panic of the
    enumeration, or with the iteration bound of the enumeration used up. *)
Lemma HandleLabdaEvent_out w fuel t :
  out (HandleLabdaEvent w fuel t)
  = match LoadDefaultConfig w with
    | Some _ => Done None
    | None =>
        match out (getDefaultedUsers w fuel t) with
        | Done _ => Done None
        | Panic => Panic
        | OutOfFuel => OutOfFuel
        end
    end.
Proof.
  rewrite HandleLabdaEvent_run.
  destruct (LoadDefaultConfig w) as [err|]; [reflexivity|]. cbv zeta.
  pose proof (getDefaultedUsers_populated w fuel t) as K. unfold notices in K.
  destruct (out (getDefaultedUsers w fuel t)) as [[l [e|]]| |];
    try reflexivity.
  cbn [out]. rewrite (HandleLabdaEvent_loop_returns w _ _ l _ K).
  reflexivity.
Qed.

(** ** Enough iterations for listings that end *)

Lemma listAllUsers_loop_ends w t :
  forall n fuel m users,
    usersEnd w n m -> (n <= fuel)%nat ->
    out (listAllUsers_loop w fuel (ListUsersInput.mk m) users t) <> OutOfFuel.
Proof.
  induction n as [|n IH]; intros fuel m users E L; [destruct E|].
  destruct fuel as [|fuel]; [lia|].
  rewrite listAllUsers_loop_step. cbn [after out]. cbn [usersEnd] in E.
  destruct (ListUsers w (ListUsersInput.mk m)) as [result|err];
    [|discriminate].
  destruct (ListUsersOutput.Marker result) as [next|]; [|discriminate].
  apply IH; [exact E|lia].
Qed.

Lemma listAllAccessKeys_loop_ends w t :
  forall n fuel u m keys,
    keysEnd w n u m -> (n <= fuel)%nat ->
    out (listAllAccessKeys_loop w fuel (ListAccessKeysInput.mk u m) keys t)
    <> OutOfFuel.
Proof.
  induction n as [|n IH]; intros fuel u m keys E L; [destruct E|].
  destruct fuel as [|fuel]; [lia|].
  rewrite listAllAccessKeys_loop_step. cbn [after out]. cbn [keysEnd] in E.
  destruct (ListAccessKeys w (ListAccessKeysInput.mk u m)) as [result|err];
    [|discriminate].
  destruct (ListAccessKeysOutput.Marker result) as [next|]; [|discriminate].
  apply IH; [exact E|lia].
Qed.

Lemma scanTags_not_OutOfFuel tags : out (scanTags tags O) <> OutOfFuel.
Proof.
  induction tags as [|g tags IH]; [discriminate|].
  cbn [scanTags]. rewrite out_bind.
  destruct (Tag.Key g) as [k|]; [|discriminate]. cbn [deref ret out reads].
  destruct (String.eqb k "email"); [|exact IH].
  destruct (Tag.Value g); discriminate.
Qed.

Lemma getUserEmailTag_loop_ends w t :
  forall n fuel u m,
    tagsEnd w n u m -> (n <= fuel)%nat ->
    out (getUserEmailTag_loop w fuel (ListUserTagsInput.mk u m) t)
    <> OutOfFuel.
Proof.
  induction n as [|n IH]; intros fuel u m E L; [destruct E|].
  destruct fuel as [|fuel]; [lia|].
  rewrite getUserEmailTag_loop_step. cbn [after out]. cbn [tagsEnd] in E.
  destruct (ListUserTags w (ListUserTagsInput.mk u m)) as [result|err];
    [|discriminate].
  pose proof (scanTags_not_OutOfFuel (ListUserTagsOutput.Tags result)) as S.
  destruct (out (scanTags (ListUserTagsOutput.Tags result) O))
    as [[v|]| |]; try discriminate; [|congruence].
  destruct (ListUserTagsOutput.Marker result) as [next|]; [|discriminate].
  apply IH; [exact E|lia].
Qed.

Lemma getDefaultedUsers_keys_not_OutOfFuel w user email :
  forall keys acc t,
    out (getDefaultedUsers_keys w user email keys acc t) <> OutOfFuel.
Proof.
  induction keys as [|key rest IH]; intros acc t; [discriminate|].
  rewrite getDefaultedUsers_keys_step. cbv zeta.
  destruct (isKeyOld_cases w key [] t) as [[_ ->]|[_ [[[|] days] ->]]];
    [discriminate| |apply IH].
  destruct (AccessKeyMetadata.AccessKeyId key); [|discriminate].
  destruct (User.UserName user); [|discriminate].
  cbn [preceded out]. apply IH.
Qed.

Lemma getDefaultedUsers_users_ends w n fuel :
  paginated w n -> (n <= fuel)%nat ->
  forall users acc t,
    out (getDefaultedUsers_users w fuel users acc t) <> OutOfFuel.
Proof.
  intros (_ & Tg & Ky) L.
  induction users as [|user rest IH]; intros acc t; [discriminate|].
  rewrite getDefaultedUsers_users_step. cbv zeta.
  pose proof (getUserEmailTag_loop_ends w t n fuel (User.UserName user) None
                (Tg _) L) as S1.
  fold (getUserEmailTag w fuel user) in S1.
  pose proof (listAllAccessKeys_loop_ends w t n fuel (User.UserName user)
                None [] (Ky _) L) as S2.
  fold (listAllAccessKeys w fuel user) in S2.
  destruct (out (getUserEmailTag w fuel user t)) as [[email [e|]]| |];
    try discriminate; [|congruence].
  destruct (String.eqb email ""); [apply IH|].
  destruct (out (listAllAccessKeys w fuel user t)) as [[keys [e|]]| |];
    try discriminate; [|congruence].
  pose proof (getDefaultedUsers_keys_not_OutOfFuel w user email keys acc t)
    as S3.
  destruct (out (getDefaultedUsers_keys w user email keys acc t));
    try discriminate; [|congruence].
  cbn [preceded out]. apply IH.
Qed.

Lemma getDefaultedUsers_ends w n fuel t :
  paginated w n -> (n <= fuel)%nat ->
  out (getDefaultedUsers w fuel t) <> OutOfFuel.
Proof.
  intros P L. rewrite getDefaultedUsers_run. cbv zeta.
  pose proof (listAllUsers_loop_ends w t n fuel None [] (proj1 P) L) as S.
  fold (listAllUsers w fuel) in S.
  destruct (out (listAllUsers w fuel t)) as [[users [e|]]| |];
    try discriminate; [|congruence].
  cbn [preceded out]. apply (getDefaultedUsers_users_ends w n fuel P L).
Qed.

(** On populated records and listings that end, the enumeration returns. *)
Lemma getDefaultedUsers_returns w n fuel t :
  populated w -> paginated w n -> (n <= fuel)%nat ->
  exists r, out (getDefaultedUsers w fuel t) = Done r.
Proof.
  intros P E L.
  pose proof (getDefaultedUsers_safe w fuel t P) as S.
  pose proof (getDefaultedUsers_ends w n fuel t E L) as T.
  destruct (out (getDefaultedUsers w fuel t)) as [r| |]; try congruence.
  exists r. reflexivity.
Qed.

(** C4.  [HandleLabdaEvent] never returns an error: no run ends with a
    non-nil error; it returns nil when the configuration cannot be loaded;
    it returns nil when a listing call of users, tags or access keys has
    failed; and it does return, with nil, whenever the records listed are
    populated and every listing ends within the iterations allowed. *)
Theorem HandleLabdaEvent_returns_nil w fuel t :
  (forall e, out (HandleLabdaEvent w fuel t) <> Done (Some e))
  /\ (LoadDefaultConfig w <> None ->
      out (HandleLabdaEvent w fuel t) = Done None)
  /\ (failed (log (HandleLabdaEvent w fuel t)) = true ->
      out (HandleLabdaEvent w fuel t) = Done None)
  /\ (forall n,
        populated w -> paginated w n -> (n <= fuel)%nat ->
        out (HandleLabdaEvent w fuel t) = Done None).
Proof.
  rewrite HandleLabdaEvent_out. repeat split.
  - intro e. destruct (LoadDefaultConfig w); [discriminate|].
    destruct (out (getDefaultedUsers w fuel t)); discriminate.
  - intro C. destruct (LoadDefaultConfig w); [reflexivity|congruence].
  - intro F. rewrite <- HandleLabdaEvent_out.
    apply (HandleLabdaEvent_failed w fuel t F).
  - intros n P E L. destruct (LoadDefaultConfig w); [reflexivity|].
    destruct (getDefaultedUsers_returns w n fuel t P E L) as [r ->].
    reflexivity.
Qed.

Ltac populated_records :=
  repeat constructor;
  unfold user_populated, tag_populated, key_populated; cbn;
  try split; discriminate.

Lemma populated_pagedWorld : populated pagedWorld.
Proof.
  split; [|split]; intros i r H; cbn in H.
  - unfold pagedUsers in H.
    destruct (ListUsersInput.Marker i); injection H as <-; populated_records.
  - injection H as <-. populated_records.
  - unfold pagedKeys in H.
    destruct (ListAccessKeysInput.Marker i) as [m|];
      [destruct (String.eqb m "page2")|]; injection H as <-;
      populated_records.
Qed.

Lemma paginated_pagedWorld : paginated pagedWorld 3.
Proof. split; [|split]; intros; cbn; exact I. Qed.

Lemma HandleLabdaEvent_returns_nil_witness :
  out (HandleLabdaEvent noConfigWorld 0 O) = Done None
  /\ out (HandleLabdaEvent failingWorld 1 O) = Done None
  /\ out (HandleLabdaEvent pagedWorld 3 O) = Done None.
Proof.
  split; [|split].
  - apply (proj1 (proj2 (HandleLabdaEvent_returns_nil noConfigWorld 0 O))).
    discriminate.
  - apply (proj1 (proj2 (proj2
             (HandleLabdaEvent_returns_nil failingWorld 1 O)))).
    reflexivity.
  - apply (proj2 (proj2 (proj2 (HandleLabdaEvent_returns_nil pagedWorld 3 O)))
             3%nat).
    + exact populated_pagedWorld.
    + exact paginated_pagedWorld.
    + lia.
Defined.

(** ** The outcome of a notification *)

Section AnotherMailService.

Variable w : World.
Variable send : SendEmailInput.t -> option error.

Lemma listAllUsers_loop_mail t :
  forall fuel i users,
    listAllUsers_loop (with_SendEmail w send) fuel i users t
    = listAllUsers_loop w fuel i users t.
Proof.
  induction fuel as [|fuel IH]; intros i users; [reflexivity|].
  rewrite !listAllUsers_loop_step.
  change (ListUsers (with_SendEmail w send) i) with (ListUsers w i).
  destruct (ListUsers w i) as [result|err]; [|reflexivity].
  destruct (ListUsersOutput.Marker result); [|reflexivity].
  rewrite IH. reflexivity.
Qed.

Lemma getUserEmailTag_loop_mail t :
  forall fuel i,
    getUserEmailTag_loop (with_SendEmail w send) fuel i t
    = getUserEmailTag_loop w fuel i t.
Proof.
  induction fuel as [|fuel IH]; intros i; [reflexivity|].
  rewrite !getUserEmailTag_loop_step.
  change (ListUserTags (with_SendEmail w send) i) with (ListUserTags w i).
  destruct (ListUserTags w i) as [result|err]; [|reflexivity].
  destruct (out (scanTags (ListUserTagsOutput.Tags result) O))
    as [[v|]| |]; try reflexivity.
  destruct (ListUserTagsOutput.Marker result); [|reflexivity].
  rewrite IH. reflexivity.
Qed.

Lemma listAllAccessKeys_loop_mail t :
  forall fuel i keys,
    listAllAccessKeys_loop (with_SendEmail w send) fuel i keys t
    = listAllAccessKeys_loop w fuel i keys t.
Proof.
  induction fuel as [|fuel IH]; intros i keys; [reflexivity|].
  rewrite !listAllAccessKeys_loop_step.
  change (ListAccessKeys (with_SendEmail w send) i) with (ListAccessKeys w i).
  destruct (ListAccessKeys w i) as [result|err]; [|reflexivity].
  destruct (ListAccessKeysOutput.Marker result); [|reflexivity].
  rewrite IH. reflexivity.
Qed.

Lemma isKeyOld_mail key olderThan t :
  isKeyOld (with_SendEmail w send) key olderThan t = isKeyOld w key olderThan t.
Proof. reflexivity. Qed.

Lemma getDefaultedUsers_keys_mail user email :
  forall keys acc t,
    getDefaultedUsers_keys (with_SendEmail w send) user email keys acc t
    = getDefaultedUsers_keys w user email keys acc t.
Proof.
  induction keys as [|key rest IH]; intros acc t; [reflexivity|].
  rewrite !getDefaultedUsers_keys_step. cbv zeta. rewrite isKeyOld_mail.
  destruct (out (isKeyOld w key [] t)) as [[[|] days]| |]; try reflexivity.
  - destruct (AccessKeyMetadata.AccessKeyId key); [|reflexivity].
    destruct (User.UserName user); [|reflexivity].
    rewrite IH. reflexivity.
  - apply IH.
Qed.

Lemma getDefaultedUsers_users_mail fuel :
  forall users acc t,
    getDefaultedUsers_users (with_SendEmail w send) fuel users acc t
    = getDefaultedUsers_users w fuel users acc t.
Proof.
  induction users as [|user rest IH]; intros acc t; [reflexivity|].
  rewrite !getDefaultedUsers_users_step. cbv zeta.
  unfold getUserEmailTag, listAllAccessKeys.
  rewrite getUserEmailTag_loop_mail, listAllAccessKeys_loop_mail.
  destruct (out (getUserEmailTag_loop w fuel _ t)) as [[email [e|]]| |];
    try reflexivity.
  destruct (String.eqb email ""); [rewrite IH; reflexivity|].
  destruct (out (listAllAccessKeys_loop w fuel _ [] t))
    as [[keys [e|]]| |]; try reflexivity.
  rewrite getDefaultedUsers_keys_mail.
  destruct (out (getDefaultedUsers_keys w user email keys acc t));
    try reflexivity.
  rewrite IH. reflexivity.
Qed.

Lemma getDefaultedUsers_mail fuel t :
  getDefaultedUsers (with_SendEmail w send) fuel t = getDefaultedUsers w fuel t.
Proof.
  rewrite !getDefaultedUsers_run. cbv zeta. unfold listAllUsers.
  rewrite listAllUsers_loop_mail.
  destruct (out (listAllUsers_loop w fuel _ [] t)) as [[users [e|]]| |];
    try reflexivity.
  rewrite getDefaultedUsers_users_mail. reflexivity.
Qed.

(** The loop over the notices ends the same way, after as many readings of
    the clock, with the same notification requests and the same deletion
    requests, whatever the mail service answers. *)
Lemma HandleLabdaEvent_loop_mail fromAddress dryRun :
  forall defaultedUsers t,
    let r := HandleLabdaEvent_loop w fromAddress dryRun defaultedUsers t in
    let r' :=
      HandleLabdaEvent_loop (with_SendEmail w send) fromAddress dryRun
        defaultedUsers t in
    out r' = out r /\ reads r' = reads r
    /\ sends (log r') = sends (log r)
    /\ deletes (log r') = deletes (log r).
Proof.
  induction defaultedUsers as [|user rest IH]; intros t; cbv zeta.
  { repeat split. }
  rewrite !HandleLabdaEvent_loop_step. cbv zeta. rewrite isKeyOld_mail.
  cbn [preceded out reads log].
  rewrite !sends_app, !deletes_app, !sends_sendEvents, !deletes_sendEvents.
  destruct (out (isKeyOld w (defaultedUser.Key user) [100] t))
    as [[[|] days]| |]; try (repeat split; reflexivity).
  - destruct (String.eqb dryRun "--dry-run").
    + destruct (AccessKeyMetadata.AccessKeyId (defaultedUser.Key user))
        as [id|]; [|repeat split; reflexivity].
      cbn [preceded out reads log].
      rewrite !sends_app, !deletes_app, !sends_deleteEvents,
        !deletes_deleteEvents.
      destruct (IH (reads (isKeyOld w (defaultedUser.Key user) [100] t)))
        as (H1 & H2 & H3 & H4).
      rewrite H1, H2, H3, H4. repeat split.
    + destruct (IH (reads (isKeyOld w (defaultedUser.Key user) [100] t)))
        as (H1 & H2 & H3 & H4).
      rewrite H1, H2, H3, H4. repeat split.
  - destruct (IH (reads (isKeyOld w (defaultedUser.Key user) [100] t)))
      as (H1 & H2 & H3 & H4).
    rewrite H1, H2, H3, H4. repeat split.
Qed.

Lemma HandleLabdaEvent_mail fuel t :
  out (HandleLabdaEvent (with_SendEmail w send) fuel t)
  = out (HandleLabdaEvent w fuel t)
  /\ sends (log (HandleLabdaEvent (with_SendEmail w send) fuel t))
     = sends (log (HandleLabdaEvent w fuel t))
  /\ deletes (log (HandleLabdaEvent (with_SendEmail w send) fuel t))
     = deletes (log (HandleLabdaEvent w fuel t)).
Proof.
  rewrite !HandleLabdaEvent_run.
  change (LoadDefaultConfig (with_SendEmail w send)) with (LoadDefaultConfig w).
  destruct (LoadDefaultConfig w) as [err|]; [repeat split|].
  cbv zeta. rewrite getDefaultedUsers_mail.
  change (Getenv (with_SendEmail w send)) with (Getenv w).
  destruct (out (getDefaultedUsers w fuel t)) as [[l [e|]]| |];
    try (repeat split; reflexivity).
  cbn [out log]. rewrite !sends_app, !deletes_app.
  destruct (HandleLabdaEvent_loop_mail (Getenv w "EMAIL_FROM_ADDRESS")
              (Getenv w "DRY_RUN") l (reads (getDefaultedUsers w fuel t)))
    as (H1 & _ & H3 & H4).
  rewrite H1, H3, H4. repeat split.
Qed.

End AnotherMailService.

(** One notification request per notice, in the order of the notices. *)
Lemma HandleLabdaEvent_loop_sends w fromAddress dryRun :
  forall defaultedUsers t,
    Forall (fun d => key_populated (defaultedUser.Key d)) defaultedUsers ->
    sends (log (HandleLabdaEvent_loop w fromAddress dryRun defaultedUsers t))
    = map (notification fromAddress) defaultedUsers.
Proof.
  induction defaultedUsers as [|user rest IH]; intros t A; [reflexivity|].
  inversion A as [|? ? [Ki Kc] A']; subst.
  rewrite HandleLabdaEvent_loop_step. cbv zeta. cbn [preceded log map].
  rewrite sends_app, sends_sendEvents. cbn [app]. f_equal.
  destruct (isKeyOld_cases w (defaultedUser.Key user) [100] t)
    as [[C _]|[_ [[[|] days] ->]]]; [congruence| |apply IH; exact A'].
  destruct (String.eqb dryRun "--dry-run"); [|apply IH; exact A'].
  destruct (AccessKeyMetadata.AccessKeyId (defaultedUser.Key user)) as [id|];
    [|congruence].
  cbn [preceded log]. rewrite sends_app, sends_deleteEvents.
  apply IH. exact A'.
Qed.

(** ** The gate of the deletion *)

Lemma exceeds_mono now created m n :
  m <= n -> exceeds now created n = true -> exceeds now created m = true.
Proof.
  unfold exceeds, Day, Hour, Second, Nanosecond. intros L H.
  apply Z.ltb_lt in H. apply Z.ltb_lt. nia.
Qed.

(** With the override of 100 days, [isKeyOld] answers old as soon as the
    age exceeds 50 days. *)
Lemma isKeyOld_100 w now key created t :
  frozen w now ->
  AccessKeyMetadata.CreateDate key = Some created ->
  exists days,
    out (isKeyOld w key [100] t) = Done (exceeds now created 50, days).
Proof.
  intros F E.
  rewrite (isKeyOld_override w now key created 100 [] t F E).
  rewrite override_duration by lia. rewrite before_exceeds.
  destruct (exceeds now created 100) eqn:E100.
  { rewrite (exceeds_mono now created 50 100) by (lia || assumption).
    eexists. reflexivity. }
  destruct (exceeds now created 57) eqn:E57.
  { rewrite (exceeds_mono now created 50 57) by (lia || assumption).
    eexists. reflexivity. }
  destruct (exceeds now created 50); eexists; reflexivity.
Qed.

(** The deletions of the loop over notices with populated keys. *)
Lemma HandleLabdaEvent_loop_deletes w now fromAddress dryRun :
  frozen w now ->
  forall defaultedUsers t,
    Forall (fun d => key_populated (defaultedUser.Key d)) defaultedUsers ->
    deletes (log (HandleLabdaEvent_loop w fromAddress dryRun defaultedUsers t))
    = flat_map (deletionOf now dryRun) defaultedUsers.
Proof.
  intro F. induction defaultedUsers as [|d rest IH]; intros t A;
    [reflexivity|].
  inversion A as [|? ? [Ki Kc] A']; subst.
  rewrite HandleLabdaEvent_loop_step. cbv zeta.
  cbn [preceded log flat_map]. rewrite deletes_app, deletes_sendEvents.
  cbn [app]. unfold deletionOf at 1.
  destruct (AccessKeyMetadata.CreateDate (defaultedUser.Key d))
    as [created|] eqn:C; [|congruence].
  destruct (AccessKeyMetadata.AccessKeyId (defaultedUser.Key d))
    as [id|] eqn:I; [|congruence].
  destruct (isKeyOld_100 w now (defaultedUser.Key d) created t F C)
    as [days ->].
  destruct (exceeds now created 50); [|apply IH; exact A'].
  destruct (String.eqb dryRun "--dry-run"); [|apply IH; exact A'].
  cbn [preceded log andb].
  rewrite deletes_app, deletes_deleteEvents, IH by exact A'. reflexivity.
Qed.

(** C1.  What the code does for the notices the handler processes, the
    clock showing [now]: for each notice the deletion call is issued if and
    only if the flag equals the sentinel and the age of the credential
    exceeds 50 days.  The 100 days handed to [isKeyOld] do not gate it,
    because the chain of [isKeyOld] goes on to its 57 and 50 day tests when
    the override is not exceeded: a credential aged between 50 and 100 days
    is deleted under the sentinel. *)
Theorem deletion_gate w now fuel t l :
  frozen w now ->
  LoadDefaultConfig w = None ->
  out (getDefaultedUsers w fuel t) = Done (l, None) ->
  deletes (log (HandleLabdaEvent w fuel t))
  = flat_map (deletionOf now (Getenv w "DRY_RUN")) l.
Proof.
  intros F C E. rewrite HandleLabdaEvent_run, C. cbv zeta.
  pose proof (getDefaultedUsers_populated w fuel t) as K.
  pose proof (getDefaultedUsers_enumerating w fuel t) as Q.
  unfold notices in K. rewrite E in *. cbn [log].
  rewrite deletes_app, (enumerating_deletes _ Q). cbn [app].
  apply (HandleLabdaEvent_loop_deletes w now _ _ F). exact K.
Qed.

Lemma deletion_gate_witness :
  frozen (aliceWorld "--dry-run") today
  /\ out (getDefaultedUsers (aliceWorld "--dry-run") 1 O)
     = Done ([aliceNotice], None)
  /\ deletion_spec today (daysAgo 60) "--dry-run" = false
  /\ deletes (log (HandleLabdaEvent (aliceWorld "--dry-run") 1 O))
     = [DeleteAccessKeyInput.mk "AKIAALICE" "alice"].
Proof.
  assert (F : frozen (aliceWorld "--dry-run") today) by (intro k; reflexivity).
  split; [exact F|]. split; [reflexivity|]. split; [reflexivity|].
  apply (deletion_gate (aliceWorld "--dry-run") today 1 O [aliceNotice] F);
    reflexivity.
Defined.

(** C2.  The scenario of "alice", tag email=a@x.com, one credential created
    60 days ago: whatever the flag, the enumeration gives the one notice
    with label 57 and the run sends the one notification to a@x.com; the
    age does not exceed 100 days, yet the run issues the deletion of the
    credential when the flag is the sentinel, and none otherwise. *)
Theorem alice_scenario (dryRun : string) :
  notices (getDefaultedUsers (aliceWorld dryRun) 1 O) = [aliceNotice]
  /\ sends (log (HandleLabdaEvent (aliceWorld dryRun) 1 O))
     = [notification "ops@x.com" aliceNotice]
  /\ exceeds today (daysAgo 60) 100 = false
  /\ deletes (log (HandleLabdaEvent (aliceWorld dryRun) 1 O))
     = if String.eqb dryRun "--dry-run"
       then [DeleteAccessKeyInput.mk "AKIAALICE" "alice"]
       else [].
Proof.
  assert (E : out (getDefaultedUsers (aliceWorld dryRun) 1 O)
              = Done ([aliceNotice], None)) by reflexivity.
  assert (K : Forall (fun d => key_populated (defaultedUser.Key d))
                [aliceNotice]) by populated_records.
  pose proof (getDefaultedUsers_enumerating (aliceWorld dryRun) 1 O) as Q.
  split; [reflexivity|]. split; [|split; [reflexivity|]].
  - rewrite HandleLabdaEvent_run.
    change (LoadDefaultConfig (aliceWorld dryRun)) with (@None error).
    cbv zeta. rewrite E. cbn [log].
    rewrite sends_app, (enumerating_sends _ Q).
    rewrite (HandleLabdaEvent_loop_sends _ _ _ _ _ K). reflexivity.
  - rewrite HandleLabdaEvent_run.
    change (LoadDefaultConfig (aliceWorld dryRun)) with (@None error).
    cbv zeta. rewrite E. cbn [log].
    rewrite deletes_app, (enumerating_deletes _ Q).
    rewrite (HandleLabdaEvent_loop_deletes (aliceWorld dryRun) today _ _
               (fun _ => eq_refl) _ _ K).
    change (Getenv (aliceWorld dryRun) "DRY_RUN") with dryRun.
    cbn [app flat_map]. unfold deletionOf.
    cbn [aliceNotice defaultedUser.Key defaultedUser.UserName aliceKey
         accessKey AccessKeyMetadata.CreateDate AccessKeyMetadata.AccessKeyId].
    change (exceeds today (daysAgo 60) 50) with true.
    cbn [andb]. destruct (String.eqb dryRun "--dry-run"); reflexivity.
Qed.

(** * Further properties of the program *)

(** ** The flag *)

Lemma HandleLabdaEvent_loop_no_sentinel w fromAddress dryRun :
  String.eqb dryRun "--dry-run" = false ->
  forall defaultedUsers t,
    deletes (log (HandleLabdaEvent_loop w fromAddress dryRun defaultedUsers t))
    = [].
Proof.
  intro N. induction defaultedUsers as [|d rest IH]; intros t; [reflexivity|].
  rewrite HandleLabdaEvent_loop_step. cbv zeta. cbn [preceded log].
  rewrite deletes_app, deletes_sendEvents, N. cbn [app].
  destruct (out (isKeyOld w (defaultedUser.Key d) [100] t))
    as [[[|] days]| |]; try reflexivity; apply IH.
Qed.

(** X1.  When the value of DRY_RUN is not the sentinel (the empty value
    included), no run of the handler issues a deletion, whatever the account,
    the clock and the ages of the keys. *)
Theorem no_sentinel_no_deletion w fuel t :
  Getenv w "DRY_RUN" <> "--dry-run" ->
  deletes (log (HandleLabdaEvent w fuel t)) = [].
Proof.
  intro N. apply String.eqb_neq in N.
  rewrite HandleLabdaEvent_run.
  destruct (LoadDefaultConfig w) as [err|]; [reflexivity|]. cbv zeta.
  pose proof (getDefaultedUsers_enumerating w fuel t) as Q.
  destruct (out (getDefaultedUsers w fuel t)) as [[l [e|]]| |]; cbn [log];
    rewrite ?deletes_app, (enumerating_deletes _ Q); try reflexivity.
  cbn [app]. apply HandleLabdaEvent_loop_no_sentinel. exact N.
Qed.

Lemma no_sentinel_no_deletion_witness :
  Getenv (carolWorldWith "dry-run") "DRY_RUN" = "dry-run"
  /\ notices (getDefaultedUsers (carolWorldWith "dry-run") 1 O)
     = [carolNotice]
  /\ deletes (log (HandleLabdaEvent (carolWorldWith "dry-run") 1 O)) = [].
Proof.
  split; [reflexivity|]. split; [reflexivity|].
  apply (no_sentinel_no_deletion (carolWorldWith "dry-run") 1 O).
  discriminate.
Defined.

(** ** The order of the requests *)

Lemma actions_app l l' : actions (l ++ l') = actions l ++ actions l'.
Proof. apply flat_map_app. Qed.

Lemma enumerating_actions l : Forall enumerating l -> actions l = [].
Proof.
  induction 1 as [|e l He _ IH]; [reflexivity|].
  destruct e; try destruct He; exact IH.
Qed.

Lemma actions_sendEvents w fromAddress user :
  actions (sendEvents w fromAddress user)
  = [inl (notification fromAddress user)].
Proof. unfold sendEvents. rewrite sendEmail_run. reflexivity. Qed.

Lemma actions_deleteEvents w id user :
  actions (deleteEvents w id user)
  = [inr (DeleteAccessKeyInput.mk id (defaultedUser.UserName user))].
Proof. unfold deleteEvents. rewrite deleteKeys_run. reflexivity. Qed.

Lemma HandleLabdaEvent_loop_announced w fromAddress dryRun :
  forall defaultedUsers t,
    Forall (fun d => key_populated (defaultedUser.Key d)) defaultedUsers ->
    announced fromAddress defaultedUsers
      (actions
         (log (HandleLabdaEvent_loop w fromAddress dryRun defaultedUsers t))).
Proof.
  induction defaultedUsers as [|d rest IH]; intros t A; [reflexivity|].
  inversion A as [|? ? [Ki Kc] A']; subst.
  rewrite HandleLabdaEvent_loop_step. cbv zeta. cbn [preceded log announced].
  rewrite actions_app, actions_sendEvents. cbn [app].
  eexists. split; [reflexivity|].
  destruct (isKeyOld_cases w (defaultedUser.Key d) [100] t)
    as [[C _]|[_ [[[|] days] ->]]]; [congruence| |left; apply IH; exact A'].
  destruct (String.eqb dryRun "--dry-run"); [|left; apply IH; exact A'].
  destruct (AccessKeyMetadata.AccessKeyId (defaultedUser.Key d)) as [id|];
    [|congruence].
  right. exists id. eexists. split; [reflexivity|].
  cbn [preceded log]. rewrite actions_app, actions_deleteEvents. cbn [app].
  split; [reflexivity|]. apply IH. exact A'.
Qed.

(** X2.  Once the configuration is loaded, the notification and deletion
    requests of a run follow the notice list in its order: each notice gets
    its notification, a deletion comes only directly after the notification
    of the notice whose key and principal it names, and there is no other
    request.  No key is deleted before the mail about it has been handed to
    the mail service. *)
Theorem deletion_follows_notification w fuel t :
  LoadDefaultConfig w = None ->
  announced (Getenv w "EMAIL_FROM_ADDRESS")
    (notices (getDefaultedUsers w fuel t))
    (actions (log (HandleLabdaEvent w fuel t))).
Proof.
  intro C. rewrite HandleLabdaEvent_run, C. cbv zeta.
  pose proof (getDefaultedUsers_enumerating w fuel t) as Q.
  pose proof (getDefaultedUsers_populated w fuel t) as K.
  pose proof (getDefaultedUsers_failed w fuel t) as G.
  unfold notices in *.
  destruct (out (getDefaultedUsers w fuel t)) as [[l [e|]]| |]; cbn [log];
    rewrite ?actions_app, (enumerating_actions _ Q); try reflexivity.
  - destruct G as [-> _]. reflexivity.
  - cbn [app]. apply HandleLabdaEvent_loop_announced. exact K.
Qed.

Lemma deletion_follows_notification_witness :
  actions (log (HandleLabdaEvent carolWorld 1 O))
  = [inl (notification "ops@x.com" carolNotice);
     inr (DeleteAccessKeyInput.mk "AKIACAROL" "carol")]
  /\ announced "ops@x.com" [carolNotice]
       (actions (log (HandleLabdaEvent carolWorld 1 O))).
Proof.
  split; [reflexivity|].
  apply (deletion_follows_notification carolWorld 1 O). reflexivity.
Defined.

(** X3.  Every run of the handler reads the account before it acts: its log
    is a first part without any notification or deletion followed by a
    second part without any listing call. *)
Theorem listing_precedes_actions w fuel t :
  exists l1 l2,
    log (HandleLabdaEvent w fuel t) = l1 ++ l2
    /\ Forall enumerating l1 /\ Forall acting l2.
Proof.
  rewrite HandleLabdaEvent_run.
  destruct (LoadDefaultConfig w) as [err|].
  { eexists [], _. split; [reflexivity|]. split; repeat constructor. }
  cbv zeta.
  pose proof (getDefaultedUsers_enumerating w fuel t) as Q.
  destruct (out (getDefaultedUsers w fuel t)) as [[l [e|]]| |]; cbn [log].
  - eexists _, _. split; [reflexivity|]. split; [exact Q|].
    repeat constructor.
  - eexists _, _. split; [reflexivity|]. split; [exact Q|].
    apply HandleLabdaEvent_loop_acting.
  - exists (log (getDefaultedUsers w fuel t)), [].
    rewrite app_nil_r. repeat split; [exact Q|constructor].
  - exists (log (getDefaultedUsers w fuel t)), [].
    rewrite app_nil_r. repeat split; [exact Q|constructor].
Qed.

(** ** What the enumeration depends on *)

Section SameAccount.

Variables w w' : World.

Hypothesis same_users : forall i, ListUsers w' i = ListUsers w i.
Hypothesis same_tags : forall i, ListUserTags w' i = ListUserTags w i.
Hypothesis same_keys : forall i, ListAccessKeys w' i = ListAccessKeys w i.
Hypothesis same_clock : forall k, Now w' k = Now w k.

Lemma listAllUsers_loop_same t :
  forall fuel i users,
    listAllUsers_loop w' fuel i users t = listAllUsers_loop w fuel i users t.
Proof.
  induction fuel as [|fuel IH]; intros i users; [reflexivity|].
  rewrite !listAllUsers_loop_step, same_users.
  destruct (ListUsers w i) as [result|err]; [|reflexivity].
  destruct (ListUsersOutput.Marker result); [|reflexivity].
  rewrite IH. reflexivity.
Qed.

Lemma getUserEmailTag_loop_same t :
  forall fuel i,
    getUserEmailTag_loop w' fuel i t = getUserEmailTag_loop w fuel i t.
Proof.
  induction fuel as [|fuel IH]; intros i; [reflexivity|].
  rewrite !getUserEmailTag_loop_step, same_tags.
  destruct (ListUserTags w i) as [result|err]; [|reflexivity].
  destruct (out (scanTags (ListUserTagsOutput.Tags result) O))
    as [[v|]| |]; try reflexivity.
  destruct (ListUserTagsOutput.Marker result); [|reflexivity].
  rewrite IH. reflexivity.
Qed.

Lemma listAllAccessKeys_loop_same t :
  forall fuel i keys,
    listAllAccessKeys_loop w' fuel i keys t
    = listAllAccessKeys_loop w fuel i keys t.
Proof.
  induction fuel as [|fuel IH]; intros i keys; [reflexivity|].
  rewrite !listAllAccessKeys_loop_step, same_keys.
  destruct (ListAccessKeys w i) as [result|err]; [|reflexivity].
  destruct (ListAccessKeysOutput.Marker result); [|reflexivity].
  rewrite IH. reflexivity.
Qed.

Lemma createdBefore_same key d t :
  createdBefore w' key d t = createdBefore w key d t.
Proof.
  unfold createdBefore, bind, time_Now.
  destruct (AccessKeyMetadata.CreateDate key); cbn; [|reflexivity].
  rewrite same_clock. reflexivity.
Qed.

Lemma isKeyOld_same key olderThan t :
  isKeyOld w' key olderThan t = isKeyOld w key olderThan t.
Proof.
  unfold isKeyOld. rewrite !bind_run.
  assert (E : match olderThan with
              | n :: _ =>
                  createdBefore w' key
                    (Duration_mul (Duration_mul (Duration_of_int n) 24) Hour)
              | [] => ret false
              end t
              = match olderThan with
                | n :: _ =>
                    createdBefore w key
                      (Duration_mul (Duration_mul (Duration_of_int n) 24) Hour)
                | [] => ret false
                end t).
  { destruct olderThan; [reflexivity|apply createdBefore_same]. }
  rewrite E.
  destruct (out _) as [[|]| |]; try reflexivity.
  f_equal. rewrite !bind_run, createdBefore_same.
  destruct (out _) as [[|]| |]; try reflexivity.
  f_equal. rewrite !bind_run, createdBefore_same. reflexivity.
Qed.

Lemma getDefaultedUsers_keys_same user email :
  forall keys acc t,
    getDefaultedUsers_keys w' user email keys acc t
    = getDefaultedUsers_keys w user email keys acc t.
Proof.
  induction keys as [|key rest IH]; intros acc t; [reflexivity|].
  rewrite !getDefaultedUsers_keys_step. cbv zeta. rewrite isKeyOld_same.
  destruct (out (isKeyOld w key [] t)) as [[[|] days]| |]; try reflexivity.
  - destruct (AccessKeyMetadata.AccessKeyId key); [|reflexivity].
    destruct (User.UserName user); [|reflexivity].
    rewrite IH. reflexivity.
  - apply IH.
Qed.

Lemma getDefaultedUsers_users_same fuel :
  forall users acc t,
    getDefaultedUsers_users w' fuel users acc t
    = getDefaultedUsers_users w fuel users acc t.
Proof.
  induction users as [|user rest IH]; intros acc t; [reflexivity|].
  rewrite !getDefaultedUsers_users_step. cbv zeta.
  unfold getUserEmailTag, listAllAccessKeys.
  rewrite getUserEmailTag_loop_same, listAllAccessKeys_loop_same.
  destruct (out (getUserEmailTag_loop w fuel _ t)) as [[email [e|]]| |];
    try reflexivity.
  destruct (String.eqb email ""); [rewrite IH; reflexivity|].
  destruct (out (listAllAccessKeys_loop w fuel _ [] t))
    as [[keys [e|]]| |]; try reflexivity.
  rewrite getDefaultedUsers_keys_same.
  destruct (out (getDefaultedUsers_keys w user email keys acc t));
    try reflexivity.
  rewrite IH. reflexivity.
Qed.

Lemma getDefaultedUsers_same fuel t :
  getDefaultedUsers w' fuel t = getDefaultedUsers w fuel t.
Proof.
  rewrite !getDefaultedUsers_run. cbv zeta. unfold listAllUsers.
  rewrite listAllUsers_loop_same.
  destruct (out (listAllUsers_loop w fuel _ [] t)) as [[users [e|]]| |];
    try reflexivity.
  rewrite getDefaultedUsers_users_same. reflexivity.
Qed.

End SameAccount.

(** ** A deletion that fails *)

Lemma HandleLabdaEvent_loop_delete w delete fromAddress dryRun :
  forall defaultedUsers t,
    let r := HandleLabdaEvent_loop w fromAddress dryRun defaultedUsers t in
    let r' :=
      HandleLabdaEvent_loop (with_DeleteAccessKey w delete) fromAddress
        dryRun defaultedUsers t in
    out r' = out r /\ reads r' = reads r /\ actions (log r') = actions (log r).
Proof.
  induction defaultedUsers as [|user rest IH]; intros t; cbv zeta.
  { repeat split. }
  rewrite !HandleLabdaEvent_loop_step. cbv zeta.
  rewrite (isKeyOld_same w (with_DeleteAccessKey w delete))
    by (intro; reflexivity).
  cbn [preceded out reads log].
  rewrite !actions_app, !actions_sendEvents.
  destruct (IH (reads (isKeyOld w (defaultedUser.Key user) [100] t)))
    as (H1 & H2 & H3).
  destruct (out (isKeyOld w (defaultedUser.Key user) [100] t))
    as [[[|] days]| |]; try (repeat split; reflexivity).
  - destruct (String.eqb dryRun "--dry-run").
    + destruct (AccessKeyMetadata.AccessKeyId (defaultedUser.Key user))
        as [id|]; [|repeat split; reflexivity].
      cbn [preceded out reads log].
      rewrite !actions_app, !actions_deleteEvents.
      rewrite H1, H2, H3. repeat split.
    + rewrite H1, H2, H3. repeat split.
  - rewrite H1, H2, H3. repeat split.
Qed.

(** X4.  What the identity service answers to a deletion has no influence on
    the run: with any other answers the handler ends the same way and makes
    the same notification and deletion requests in the same order.  A
    deletion that fails stops nothing and is not tried again. *)
Theorem deletion_outcome_is_ignored w delete fuel t :
  out (HandleLabdaEvent (with_DeleteAccessKey w delete) fuel t)
  = out (HandleLabdaEvent w fuel t)
  /\ actions (log (HandleLabdaEvent (with_DeleteAccessKey w delete) fuel t))
     = actions (log (HandleLabdaEvent w fuel t)).
Proof.
  rewrite !HandleLabdaEvent_run.
  change (LoadDefaultConfig (with_DeleteAccessKey w delete))
    with (LoadDefaultConfig w).
  destruct (LoadDefaultConfig w) as [err|]; [repeat split|].
  cbv zeta.
  rewrite (getDefaultedUsers_same w (with_DeleteAccessKey w delete))
    by (intro; reflexivity).
  change (Getenv (with_DeleteAccessKey w delete)) with (Getenv w).
  destruct (out (getDefaultedUsers w fuel t)) as [[l [e|]]| |];
    try (repeat split; reflexivity).
  cbn [out log]. rewrite !actions_app.
  destruct (HandleLabdaEvent_loop_delete w delete
              (Getenv w "EMAIL_FROM_ADDRESS") (Getenv w "DRY_RUN") l
              (reads (getDefaultedUsers w fuel t))) as (H1 & _ & H3).
  rewrite H1, H3. repeat split.
Qed.

Lemma deletion_outcome_is_ignored_witness :
  DeleteAccessKey (with_DeleteAccessKey carolWorld refusing)
    (DeleteAccessKeyInput.mk "AKIACAROL" "carol")
  = Err "AccessDenied"
  /\ out (HandleLabdaEvent (with_DeleteAccessKey carolWorld refusing) 1 O)
     = Done None
  /\ actions (log (HandleLabdaEvent (with_DeleteAccessKey carolWorld refusing)
                     1 O))
     = [inl (notification "ops@x.com" carolNotice);
        inr (DeleteAccessKeyInput.mk "AKIACAROL" "carol")].
Proof.
  destruct (deletion_outcome_is_ignored carolWorld refusing 1 O) as [H1 H2].
  split; [reflexivity|]. split; [rewrite H1|rewrite H2]; reflexivity.
Defined.

(** ** The age test whatever the clock shows *)

(** [isKeyOld] on a key with a creation date: one reading of the clock for
    each test it comes to. *)
Lemma isKeyOld_run w key created olderThan t :
  AccessKeyMetadata.CreateDate key = Some created ->
  isKeyOld w key olderThan t
  = let before d k := Time_Before (Time_Add created d) (Now w k) in
    let chain k :=
      if before (57 * 24 * Hour) k then mkRun (Done (true, "57")) (S k) []
      else if before (50 * 24 * Hour) (S k)
           then mkRun (Done (true, "50")) (S (S k)) []
           else mkRun (Done (false, "")) (S (S k)) [] in
    match olderThan with
    | n :: _ =>
        if before (Duration_mul (Duration_mul (Duration_of_int n) 24) Hour) t
        then mkRun (Done (true, Sprintf_d n)) (S t) []
        else chain (S t)
    | [] => chain t
    end.
Proof.
  intro E. unfold isKeyOld. cbv zeta.
  destruct olderThan as [|n rest]; rewrite bind_run.
  - cbn [ret out reads log]. rewrite preceded_nil, bind_run.
    rewrite (createdBefore_run w key created) by exact E.
    cbn [out reads log]. rewrite preceded_nil.
    destruct (Time_Before _ (Now w t)); [reflexivity|].
    rewrite bind_run, (createdBefore_run w key created) by exact E.
    cbn [out reads log]. rewrite preceded_nil.
    destruct (Time_Before _ (Now w (S t))); reflexivity.
  - rewrite (createdBefore_run w key created) by exact E.
    cbn [out reads log hd]. rewrite preceded_nil.
    destruct (Time_Before _ (Now w t)); [reflexivity|].
    rewrite bind_run, (createdBefore_run w key created) by exact E.
    cbn [out reads log]. rewrite preceded_nil.
    destruct (Time_Before _ (Now w (S t))); [reflexivity|].
    rewrite bind_run, (createdBefore_run w key created) by exact E.
    cbn [out reads log]. rewrite preceded_nil.
    destruct (Time_Before _ (Now w (S (S t)))); reflexivity.
Qed.

Lemma Sprintf_d_nonempty n : Sprintf_d n <> "".
Proof.
  unfold Sprintf_d. destruct n as [|p|p]; cbn.
  - discriminate.
  - pose proof (DecimalPos.Unsigned.to_uint_nonnil p) as H.
    destruct (Pos.to_uint p); [congruence|discriminate..].
  - discriminate.
Qed.

(** X5.  Whatever the clock shows from one reading to the next, [isKeyOld]
    answers old exactly when the label it gives is not empty; it reads the
    clock at least once and at most three times, and it calls no service
    and prints nothing. *)
Theorem isKeyOld_label_coherent w key olderThan t old days :
  out (isKeyOld w key olderThan t) = Done (old, days) ->
  (old = true <-> days <> "")
  /\ (t < reads (isKeyOld w key olderThan t) <= t + 3)%nat
  /\ log (isKeyOld w key olderThan t) = [].
Proof.
  intro H.
  destruct (AccessKeyMetadata.CreateDate key) as [created|] eqn:E.
  2:{ rewrite (isKeyOld_nil w key olderThan t E) in H. discriminate H. }
  rewrite (isKeyOld_run w key created olderThan t E) in *.
  cbv beta zeta in *.
  destruct olderThan as [|n rest];
    repeat match goal with
      | H : context [if ?b then _ else _] |- _ => destruct b
      end;
    cbn [out reads log] in *; injection H as <- <-;
    (split;
     [split; intro C;
      [discriminate || apply Sprintf_d_nonempty | reflexivity || congruence]
     |split; [lia|reflexivity]]).
Qed.

Lemma isKeyOld_label_coherent_witness :
  out (isKeyOld carolWorld carolKey [100] O) = Done (true, "100")
  /\ reads (isKeyOld carolWorld carolKey [100] O) = 1%nat
  /\ out (isKeyOld carolWorld aliceKey [100] O) = Done (true, "57")
  /\ reads (isKeyOld carolWorld aliceKey [100] O) = 2%nat
  /\ (true = true <-> "57" <> "").
Proof.
  repeat split; try reflexivity;
    apply (isKeyOld_label_coherent carolWorld aliceKey [100] O true "57");
    reflexivity.
Defined.

(** X6.  The clock showing [now]: with an override of [n] days (one that
    fits the duration) [isKeyOld] answers old exactly when the age exceeds
    the smaller of [n] and 50 days, and without an override exactly when it
    exceeds 50 days.  An override above 50 days changes the label, never the
    answer. *)
Theorem isKeyOld_effective_threshold w now key created n rest t :
  frozen w now ->
  AccessKeyMetadata.CreateDate key = Some created ->
  -106751 <= n <= 106751 ->
  (exists days,
     out (isKeyOld w key (n :: rest) t)
     = Done (exceeds now created (Z.min n 50), days))
  /\ (exists days,
        out (isKeyOld w key [] t) = Done (exceeds now created 50, days)).
Proof.
  intros F E R. split.
  - rewrite (isKeyOld_override w now key created n rest t F E).
    rewrite override_duration by exact R. rewrite before_exceeds.
    destruct (exceeds now created n) eqn:En.
    { rewrite (exceeds_mono now created (Z.min n 50) n) by (lia || assumption).
      eexists. reflexivity. }
    destruct (exceeds now created 57) eqn:E57.
    { rewrite (exceeds_mono now created (Z.min n 50) 57)
        by (lia || assumption).
      eexists. reflexivity. }
    destruct (Z.min_spec n 50) as [[L ->]|[L ->]].
    + rewrite En. destruct (exceeds now created 50) eqn:E50.
      * rewrite (exceeds_mono now created n 50) in En by (lia || assumption).
        discriminate En.
      * eexists. reflexivity.
    + destruct (exceeds now created 50); eexists; reflexivity.
  - rewrite (isKeyOld_label w now key t F), E. unfold label. rewrite E.
    destruct (exceeds now created 57) eqn:E57.
    { rewrite (exceeds_mono now created 50 57) by (lia || assumption).
      eexists. reflexivity. }
    destruct (exceeds now created 50); eexists; reflexivity.
Qed.

Lemma isKeyOld_effective_threshold_witness :
  frozen carolWorld today
  /\ exceeds today (daysAgo 60) 3000 = false
  /\ out (isKeyOld carolWorld aliceKey [3000] O) = Done (true, "57")
  /\ (exists days,
        out (isKeyOld carolWorld aliceKey [3000] O)
        = Done (exceeds today (daysAgo 60) (Z.min 3000 50), days)).
Proof.
  assert (F : frozen carolWorld today) by (intro k; reflexivity).
  split; [exact F|]. split; [reflexivity|]. split; [reflexivity|].
  apply (isKeyOld_effective_threshold carolWorld today aliceKey (daysAgo 60)
           3000 [] O F); [reflexivity|lia].
Defined.

(** ** What every notice and every mail look like *)

Lemma isKeyOld_default_label w key t days :
  out (isKeyOld w key [] t) = Done (true, days) ->
  days = "57" \/ days = "50".
Proof.
  intro H.
  destruct (AccessKeyMetadata.CreateDate key) as [created|] eqn:E.
  2:{ rewrite (isKeyOld_nil w key [] t E) in H. discriminate H. }
  rewrite (isKeyOld_run w key created [] t E) in H. cbv beta zeta in H.
  destruct (Time_Before _ (Now w t));
    [|destruct (Time_Before _ (Now w (S t)))];
    cbn [out] in H; first [discriminate H | injection H as <-; auto].
Qed.

Lemma getDefaultedUsers_keys_wellFormed w user email :
  email <> "" ->
  forall keys acc t l,
    Forall wellFormed acc ->
    out (getDefaultedUsers_keys w user email keys acc t) = Done l ->
    Forall wellFormed l.
Proof.
  intro N. induction keys as [|key rest IH]; intros acc t l A H.
  - cbn in H. injection H as <-. exact A.
  - rewrite getDefaultedUsers_keys_step in H. cbv zeta in H.
    destruct (out (isKeyOld w key [] t)) as [[[|] days]| |] eqn:E;
      try discriminate H; [|exact (IH _ _ _ A H)].
    destruct (AccessKeyMetadata.AccessKeyId key) as [id|] eqn:Ei;
      [|discriminate H].
    destruct (User.UserName user) as [name|]; [|discriminate H].
    cbn [preceded out] in H. apply (IH _ _ _) in H; [exact H|].
    apply Forall_app. split; [exact A|]. constructor; [|constructor].
    repeat split; cbn.
    + exact N.
    + exact (isKeyOld_default_label w key t days E).
    + rewrite Ei. discriminate.
    + intro C. rewrite (isKeyOld_nil w key [] t C) in E. discriminate E.
Qed.

Lemma getDefaultedUsers_users_wellFormed w fuel :
  forall users acc t,
    Forall wellFormed acc ->
    Forall wellFormed (notices (getDefaultedUsers_users w fuel users acc t)).
Proof.
  induction users as [|user rest IH]; intros acc t A; [exact A|].
  unfold notices in *. rewrite getDefaultedUsers_users_step. cbv zeta.
  destruct (out (getUserEmailTag w fuel user t)) as [[email [e|]]| |];
    cbn [out]; try constructor.
  destruct (String.eqb email "") eqn:Q; [apply IH; exact A|].
  apply String.eqb_neq in Q.
  destruct (out (listAllAccessKeys w fuel user t)) as [[keys [e|]]| |];
    cbn [out]; try constructor.
  destruct (out (getDefaultedUsers_keys w user email keys acc t))
    as [l| |] eqn:E; cbn [preceded out]; try constructor.
  apply IH.
  exact (getDefaultedUsers_keys_wellFormed w user email Q keys acc t l A E).
Qed.

(** X7.  Every notice [getDefaultedUsers] returns, in any world and under
    any clock, has a non-empty address, the label 57 or 50, and a key whose
    id and creation date are there. *)
Theorem notices_wellFormed w fuel t d :
  In d (notices (getDefaultedUsers w fuel t)) -> wellFormed d.
Proof.
  assert (H : Forall wellFormed (notices (getDefaultedUsers w fuel t))).
  { pose proof (getDefaultedUsers_users_wellFormed w fuel) as U.
    unfold notices in *. rewrite getDefaultedUsers_run. cbv zeta.
    destruct (out (listAllUsers w fuel t)) as [[users [e|]]| |];
      cbn [preceded out]; try constructor.
    apply U. constructor. }
  rewrite Forall_forall in H. apply H.
Qed.

Lemma notices_wellFormed_witness :
  In aliceNotice (notices (getDefaultedUsers bobWorld 1 O))
  /\ wellFormed aliceNotice.
Proof.
  assert (I : In aliceNotice (notices (getDefaultedUsers bobWorld 1 O)))
    by (left; reflexivity).
  split; [exact I|].
  exact (notices_wellFormed bobWorld 1 O aliceNotice I).
Defined.

(** X8.  Every mail a run hands to the mail service has exactly one
    recipient, a non-empty address; the fixed subject; the sender of
    EMAIL_FROM_ADDRESS; and the body naming 57 or 50 days. *)
Theorem every_mail_wellFormed w fuel t i :
  In i (sends (log (HandleLabdaEvent w fuel t))) ->
  exists address days,
    address <> ""
    /\ (days = "57" \/ days = "50")
    /\ i = SendEmailInput.mk [address]
             ("Your secret keys are older than " ++ days
                ++ " days and will be deleted.")%string
             "Secret Key Expiration Warning"
             (Getenv w "EMAIL_FROM_ADDRESS").
Proof.
  intro I.
  destruct (HandleLabdaEvent_from_notices w fuel t) as (S & _).
  destruct (S i I) as (d & Hd & ->).
  assert (W : Forall wellFormed (notices (getDefaultedUsers w fuel t))).
  { pose proof (getDefaultedUsers_users_wellFormed w fuel) as U.
    unfold notices in *. rewrite getDefaultedUsers_run. cbv zeta.
    destruct (out (listAllUsers w fuel t)) as [[users [e|]]| |];
      cbn [preceded out]; try constructor.
    apply U. constructor. }
  rewrite Forall_forall in W. destruct (W d Hd) as (A & L & _).
  exists (defaultedUser.Email d), (defaultedUser.OlderThan d).
  repeat split; assumption.
Qed.

Lemma every_mail_wellFormed_witness :
  sends (log (HandleLabdaEvent carolWorld 1 O))
  = [notification "ops@x.com" carolNotice]
  /\ exists address days,
       address <> ""
       /\ (days = "57" \/ days = "50")
       /\ notification "ops@x.com" carolNotice
          = SendEmailInput.mk [address]
              ("Your secret keys are older than " ++ days
                 ++ " days and will be deleted.")%string
              "Secret Key Expiration Warning"
              (Getenv carolWorld "EMAIL_FROM_ADDRESS").
Proof.
  split; [reflexivity|].
  apply (every_mail_wellFormed carolWorld 1 O). left. reflexivity.
Defined.

(** ** The address of a user over the pages of its tags *)

Lemma find_over_app (A : Type) (f : A -> bool) (l l' : list A) :
  find f (l ++ l')
  = match find f l with
    | Some x => Some x
    | None => find f l'
    end.
Proof.
  induction l as [|a l IH]; [reflexivity|].
  cbn. destruct (f a); [reflexivity|exact IH].
Qed.

Lemma existsb_find (A : Type) (f : A -> bool) (l : list A) :
  existsb f l = match find f l with Some _ => true | None => false end.
Proof.
  induction l as [|a l IH]; [reflexivity|].
  cbn. destruct (f a); [reflexivity|exact IH].
Qed.

(** On populated tags the scan of a page returns the value of the first tag
    whose key is [email]. *)
Lemma scanTags_find tags :
  Forall tag_populated tags ->
  out (scanTags tags O)
  = Done match find isEmailTag tags with
         | Some g => Tag.Value g
         | None => None
         end.
Proof.
  induction 1 as [|g tags [K V] _ IH]; [reflexivity|].
  cbn [scanTags find]. rewrite out_bind. unfold isEmailTag at 1.
  destruct (Tag.Key g) as [k|]; [|congruence]. cbn [deref ret out reads].
  destruct (String.eqb k "email"); [|exact IH].
  destruct (Tag.Value g) as [v|]; [reflexivity|congruence].
Qed.

Lemma getUserEmailTag_loop_pages w u t :
  forall fuel pages m,
    tagsPages w u m pages ->
    Forall tag_populated (List.concat pages) ->
    (List.length pages <= fuel)%nat ->
    out (getUserEmailTag_loop w fuel (ListUserTagsInput.mk u m) t)
    = Done (firstEmail (List.concat pages), None)
    /\ List.length (log (getUserEmailTag_loop w fuel
                           (ListUserTagsInput.mk u m) t))
       = pagesUntilEmail pages.
Proof.
  induction fuel as [|fuel IH]; intros pages m P A L.
  - destruct pages; [destruct P | simpl in L; lia].
  - destruct pages as [|page more]; [destruct P|].
    rewrite getUserEmailTag_loop_step. cbn [after out log List.length].
    change (List.concat (page :: more)) with (page ++ List.concat more) in *.
    apply Forall_app in A. destruct A as [Ap Am].
    unfold firstEmail. rewrite find_over_app. cbn [pagesUntilEmail].
    rewrite existsb_find.
    assert (R : exists marker,
               ListUserTags w (ListUserTagsInput.mk u m)
               = Ok (ListUserTagsOutput.mk page marker)
               /\ match marker with
                  | None => more = []
                  | Some next => tagsPages w u (Some next) more
                  end).
    { destruct more as [|page' more].
      - exists None. split; [exact P|reflexivity].
      - destruct P as (next & P & Q). exists (Some next). split; assumption. }
    destruct R as (marker & -> & R).
    cbn [ListUserTagsOutput.Tags ListUserTagsOutput.Marker].
    rewrite (scanTags_find page Ap).
    destruct (find isEmailTag page) as [g|] eqn:Fg.
    + destruct (find_some _ _ Fg) as [Ig _].
      rewrite Forall_forall in Ap. destruct (Ap g Ig) as [_ V].
      destruct (Tag.Value g) as [v|]; [|congruence].
      split; reflexivity.
    + destruct marker as [next|].
      * cbn [ListUserTagsInput.UserName].
        destruct (IH more (Some next) R Am) as [H1 H2];
          [simpl in L; lia|].
        rewrite H1, H2. split; reflexivity.
      * subst more. split; reflexivity.
Qed.

(** X9.  When the tags of a user come in N pages of populated tags and the
    loop is given N iterations, [getUserEmailTag] returns without error the
    value of the first tag, in page order, whose key is exactly [email], or
    the empty string when no page has one; and it asks for no page beyond
    the one that holds that tag. *)
Theorem getUserEmailTag_first_email w fuel user pages t :
  tagsPages w (User.UserName user) None pages ->
  Forall tag_populated (List.concat pages) ->
  (List.length pages <= fuel)%nat ->
  out (getUserEmailTag w fuel user t)
  = Done (firstEmail (List.concat pages), None)
  /\ List.length (log (getUserEmailTag w fuel user t))
     = pagesUntilEmail pages.
Proof.
  intros P A L. unfold getUserEmailTag.
  apply getUserEmailTag_loop_pages; assumption.
Qed.

Lemma getUserEmailTag_first_email_witness :
  out (getUserEmailTag pagedTagsWorld 3 (User.mk (Some "alice")) O)
  = Done ("a@x.com", None)
  /\ List.length
       (log (getUserEmailTag pagedTagsWorld 3 (User.mk (Some "alice")) O))
     = 2%nat.
Proof.
  apply (getUserEmailTag_first_email pagedTagsWorld 3 (User.mk (Some "alice"))
           [[Tag.mk (Some "team") (Some "infra")];
            [Tag.mk (Some "Email") (Some "wrong@x.com");
             emailTag "a@x.com"; emailTag "later@x.com"];
            [emailTag "last@x.com"]] O).
  - simpl. exists "page2". split; [reflexivity|].
    exists "page3". split; reflexivity.
  - populated_records.
  - simpl. lia.
Defined.

(** ** A listing without a last page *)

Lemma listAllUsers_loop_endless w t :
  endlessUsers w ->
  forall fuel i users,
    out (listAllUsers_loop w fuel i users t) = OutOfFuel
    /\ List.length (log (listAllUsers_loop w fuel i users t)) = fuel.
Proof.
  intro E. induction fuel as [|fuel IH]; intros i users;
    [split; reflexivity|].
  rewrite listAllUsers_loop_step. cbn [after out log List.length].
  destruct (E i) as (r & next & -> & ->).
  destruct (IH (ListUsersInput.mk (Some next))
              (users ++ ListUsersOutput.Users r)) as [H1 H2].
  rewrite H1, H2. split; reflexivity.
Qed.

(** X10.  When the identity service puts a marker on every page of users,
    [listAllUsers] never returns: whatever number of iterations it is
    given, it has made that many calls and has not ended, and a handler
    whose configuration loaded has not ended either and has sent and
    deleted nothing. *)
Theorem endless_listing_never_returns w fuel t :
  endlessUsers w ->
  out (listAllUsers w fuel t) = OutOfFuel
  /\ List.length (log (listAllUsers w fuel t)) = fuel
  /\ (LoadDefaultConfig w = None ->
      out (HandleLabdaEvent w fuel t) = OutOfFuel
      /\ actions (log (HandleLabdaEvent w fuel t)) = []).
Proof.
  intro E.
  destruct (listAllUsers_loop_endless w t E fuel (ListUsersInput.mk None) [])
    as [H1 H2].
  fold (listAllUsers w fuel) in H1, H2.
  split; [exact H1|]. split; [exact H2|].
  intro C. rewrite HandleLabdaEvent_run, C. cbv zeta.
  pose proof (getDefaultedUsers_enumerating w fuel t) as Q.
  rewrite getDefaultedUsers_run in *. cbv zeta in *. rewrite H1 in *.
  cbn [out log] in *. split; [reflexivity|].
  apply enumerating_actions. exact Q.
Qed.

Lemma endless_listing_never_returns_witness :
  endlessUsers loopingWorld
  /\ out (listAllUsers loopingWorld 1000 O) = OutOfFuel
  /\ List.length (log (listAllUsers loopingWorld 1000 O)) = 1000%nat.
Proof.
  assert (E : endlessUsers loopingWorld).
  { intro i. eexists _, _. split; reflexivity. }
  destruct (endless_listing_never_returns loopingWorld 1000 O E)
    as (H1 & H2 & _).
  split; [exact E|]. split; [exact H1|exact H2].
Defined.

(** ** The call that fails is the last one *)

Lemma endsInFailure_after l l' e :
  failed l = false -> endsInFailure l' e -> endsInFailure (l ++ l') e.
Proof.
  intros F (before & ev & -> & B & V).
  exists (l ++ before), ev. rewrite app_assoc, failed_app, F, B. auto.
Qed.

Lemma listAllUsers_loop_endsInFailure w t :
  forall fuel i users l e,
    out (listAllUsers_loop w fuel i users t) = Done (l, Some e) ->
    endsInFailure (log (listAllUsers_loop w fuel i users t)) e.
Proof.
  induction fuel as [|fuel IH]; intros i users l e H; [discriminate H|].
  rewrite listAllUsers_loop_step in *. cbn [after out log] in *.
  destruct (ListUsers w i) as [result|err] eqn:R.
  - apply (endsInFailure_after [_]); [reflexivity|].
    destruct (ListUsersOutput.Marker result); [|discriminate H].
    apply (IH _ _ l). exact H.
  - cbn in H. injection H as <- <-. exists [], (EvListUsers i (Err err)).
    repeat split.
Qed.

Lemma getUserEmailTag_loop_endsInFailure w t :
  forall fuel i v e,
    out (getUserEmailTag_loop w fuel i t) = Done (v, Some e) ->
    endsInFailure (log (getUserEmailTag_loop w fuel i t)) e.
Proof.
  induction fuel as [|fuel IH]; intros i v e H; [discriminate H|].
  rewrite getUserEmailTag_loop_step in *. cbn [after out log] in *.
  destruct (ListUserTags w i) as [result|err] eqn:R.
  - apply (endsInFailure_after [_]); [reflexivity|].
    destruct (out (scanTags (ListUserTagsOutput.Tags result) O))
      as [[v'|]| |]; try discriminate H.
    destruct (ListUserTagsOutput.Marker result); [|discriminate H].
    apply (IH _ v). exact H.
  - cbn in H. injection H as <- <-. exists [], (EvListUserTags i (Err err)).
    repeat split.
Qed.

Lemma listAllAccessKeys_loop_endsInFailure w t :
  forall fuel i keys l e,
    out (listAllAccessKeys_loop w fuel i keys t) = Done (l, Some e) ->
    endsInFailure (log (listAllAccessKeys_loop w fuel i keys t)) e.
Proof.
  induction fuel as [|fuel IH]; intros i keys l e H; [discriminate H|].
  rewrite listAllAccessKeys_loop_step in *. cbn [after out log] in *.
  destruct (ListAccessKeys w i) as [result|err] eqn:R.
  - apply (endsInFailure_after [_]); [reflexivity|].
    destruct (ListAccessKeysOutput.Marker result); [|discriminate H].
    apply (IH _ _ l). exact H.
  - cbn in H. injection H as <- <-.
    exists [], (EvListAccessKeys i (Err err)). repeat split.
Qed.

Lemma getDefaultedUsers_users_endsInFailure w fuel :
  forall users acc t l e,
    out (getDefaultedUsers_users w fuel users acc t) = Done (l, Some e) ->
    endsInFailure (log (getDefaultedUsers_users w fuel users acc t)) e.
Proof.
  induction users as [|user rest IH]; intros acc t l e H; [discriminate H|].
  rewrite getDefaultedUsers_users_step in *. cbv zeta in *.
  pose proof (getUserEmailTag_failed w fuel user t) as F1.
  pose proof (listAllAccessKeys_failed w fuel user t) as F2.
  pose proof (getUserEmailTag_loop_endsInFailure w t fuel
                (ListUserTagsInput.mk (User.UserName user) None)) as E1.
  fold (getUserEmailTag w fuel user) in E1.
  pose proof (listAllAccessKeys_loop_endsInFailure w t fuel
                (ListAccessKeysInput.mk (User.UserName user) None) []) as E2.
  fold (listAllAccessKeys w fuel user) in E2.
  destruct (out (getUserEmailTag w fuel user t)) as [[email [e1|]]| |];
    try discriminate H.
  { cbn [out log] in *. injection H as <- <-. apply (E1 email). reflexivity. }
  destruct (String.eqb email "").
  { cbn [preceded out log] in *. apply endsInFailure_after; [exact F1|].
    apply (IH _ _ l). exact H. }
  destruct (out (listAllAccessKeys w fuel user t)) as [[keys [e2|]]| |];
    try discriminate H.
  { cbn [out log] in *. injection H as <- <-.
    apply endsInFailure_after; [exact F1|]. apply (E2 keys). reflexivity. }
  pose proof (prints_failed _
                (getDefaultedUsers_keys_prints w user email keys acc t))
    as F3.
  destruct (out (getDefaultedUsers_keys w user email keys acc t)) as [l'| |];
    try discriminate H.
  cbn [preceded out log] in *.
  apply endsInFailure_after;
    [rewrite !failed_app, F1, F2, F3; reflexivity|].
  apply (IH _ _ l). exact H.
Qed.

(** X11.  When [getDefaultedUsers] returns an error, the last call of its
    log is a listing call that failed, no call before it failed, and the
    error is the message of the service for that call behind the words of
    the listing (error listing users, tags or access keys): the first
    failure ends the enumeration at once. *)
Theorem first_failure_ends_enumeration w fuel t l e :
  out (getDefaultedUsers w fuel t) = Done (l, Some e) ->
  endsInFailure (log (getDefaultedUsers w fuel t)) e.
Proof.
  intro H. rewrite getDefaultedUsers_run in *. cbv zeta in *.
  pose proof (listAllUsers_failed w fuel t) as F.
  pose proof (listAllUsers_loop_endsInFailure w t fuel
                (ListUsersInput.mk None) []) as E.
  fold (listAllUsers w fuel) in E.
  destruct (out (listAllUsers w fuel t)) as [[users [e1|]]| |];
    try discriminate H.
  - cbn [out log] in *. injection H as <- <-. apply (E users). reflexivity.
  - cbn [preceded out log] in *. apply endsInFailure_after; [exact F|].
    apply (getDefaultedUsers_users_endsInFailure w fuel users [] t l).
    exact H.
Qed.

Lemma first_failure_ends_enumeration_witness :
  out (getDefaultedUsers failingWorld 1 O)
  = Done ([], Some "error listing tags: Throttling")
  /\ endsInFailure (log (getDefaultedUsers failingWorld 1 O))
       "error listing tags: Throttling".
Proof.
  split; [reflexivity|].
  apply (first_failure_ends_enumeration failingWorld 1 O []). reflexivity.
Defined.

(** ** The markers *)

Lemma listAllUsers_loop_chained w t :
  forall fuel i users,
    usersChained (ListUsersInput.Marker i)
      (log (listAllUsers_loop w fuel i users t)).
Proof.
  induction fuel as [|fuel IH]; intros i users; [exact I|].
  rewrite listAllUsers_loop_step. cbn [after log usersChained].
  split; [reflexivity|].
  destruct (ListUsers w i) as [result|err]; [|reflexivity].
  destruct (ListUsersOutput.Marker result) as [next|] eqn:Mk;
    [|reflexivity].
  rewrite <- Mk.
  exact (IH (ListUsersInput.mk (ListUsersOutput.Marker result)) _).
Qed.

Lemma listAllAccessKeys_loop_chained w t :
  forall fuel i keys,
    keysChained (ListAccessKeysInput.UserName i)
      (ListAccessKeysInput.Marker i)
      (log (listAllAccessKeys_loop w fuel i keys t)).
Proof.
  induction fuel as [|fuel IH]; intros i keys; [exact I|].
  rewrite listAllAccessKeys_loop_step. cbn [after log keysChained].
  split; [reflexivity|]. split; [reflexivity|].
  destruct (ListAccessKeys w i) as [result|err]; [|reflexivity].
  destruct (ListAccessKeysOutput.Marker result) as [next|] eqn:Mk;
    [|reflexivity].
  rewrite <- Mk.
  exact (IH (ListAccessKeysInput.mk (ListAccessKeysInput.UserName i)
               (ListAccessKeysOutput.Marker result)) _).
Qed.

(** Whether a page holds a tag whose key is [email], as far as the scan
    gets. *)
Lemma scanTags_existsb tags :
  match out (scanTags tags O) with
  | Done (Some _) => existsb isEmailTag tags = true
  | Done None => existsb isEmailTag tags = false
  | _ => True
  end.
Proof.
  induction tags as [|g tags IH]; [reflexivity|].
  cbn [scanTags existsb]. rewrite out_bind. unfold isEmailTag at 1 3.
  destruct (Tag.Key g) as [k|]; [|exact I]. cbn [deref ret out reads].
  destruct (String.eqb k "email").
  - destruct (Tag.Value g); [reflexivity|exact I].
  - exact IH.
Qed.

Lemma getUserEmailTag_loop_chained w t :
  forall fuel i,
    tagsChained (ListUserTagsInput.UserName i) (ListUserTagsInput.Marker i)
      (log (getUserEmailTag_loop w fuel i t)).
Proof.
  induction fuel as [|fuel IH]; intros i; [exact I|].
  rewrite getUserEmailTag_loop_step. cbn [after out log tagsChained].
  split; [reflexivity|]. split; [reflexivity|].
  destruct (ListUserTags w i) as [result|err]; [|reflexivity].
  pose proof (scanTags_existsb (ListUserTagsOutput.Tags result)) as X.
  destruct (out (scanTags (ListUserTagsOutput.Tags result) O))
    as [[v|]| |].
  - rewrite X. reflexivity.
  - rewrite X.
    destruct (ListUserTagsOutput.Marker result) as [next|] eqn:Mk;
      [|reflexivity].
    exact (IH (ListUserTagsInput.mk (ListUserTagsInput.UserName i)
                 (Some next))).
  - destruct (existsb isEmailTag (ListUserTagsOutput.Tags result));
      [reflexivity|].
    destruct (ListUserTagsOutput.Marker result); [exact I|reflexivity].
  - destruct (existsb isEmailTag (ListUserTagsOutput.Tags result));
      [reflexivity|].
    destruct (ListUserTagsOutput.Marker result); [exact I|reflexivity].
Qed.

(** X12.  In every world the three listings follow their markers: the first
    call of a listing carries no marker, every later call carries the marker
    of the answer just before it (and, for tags and keys, the name of the
    same user), and no call follows an error, a page without a marker or,
    for tags, a page that holds an [email] tag. *)
Theorem listings_follow_markers w fuel user t :
  usersChained None (log (listAllUsers w fuel t))
  /\ keysChained (User.UserName user) None
       (log (listAllAccessKeys w fuel user t))
  /\ tagsChained (User.UserName user) None
       (log (getUserEmailTag w fuel user t)).
Proof.
  split; [|split].
  - exact (listAllUsers_loop_chained w t fuel (ListUsersInput.mk None) []).
  - exact (listAllAccessKeys_loop_chained w t fuel
             (ListAccessKeysInput.mk (User.UserName user) None) []).
  - exact (getUserEmailTag_loop_chained w t fuel
             (ListUserTagsInput.mk (User.UserName user) None)).
Qed.

Lemma listings_follow_markers_witness :
  log (getUserEmailTag pagedTagsWorld 3 (User.mk (Some "alice")) O)
  = [EvListUserTags (ListUserTagsInput.mk (Some "alice") None)
       (pagedTags (ListUserTagsInput.mk (Some "alice") None));
     EvListUserTags (ListUserTagsInput.mk (Some "alice") (Some "page2"))
       (pagedTags (ListUserTagsInput.mk (Some "alice") (Some "page2")))]
  /\ tagsChained (Some "alice") None
       (log (getUserEmailTag pagedTagsWorld 3 (User.mk (Some "alice")) O)).
Proof.
  split; [reflexivity|].
  exact (proj2 (proj2 (listings_follow_markers pagedTagsWorld 3
                         (User.mk (Some "alice")) O))).
Defined.

(** ** What a run never deletes, and the empty account *)

(** X14.  The clock showing [now], every deletion request of a run names the
    principal and the key of a notice whose key is older than 50 days, and
    is made under the sentinel only: a key of 50 days or less is never
    deleted. *)
Theorem deletes_only_old_keys w now fuel t i :
  frozen w now ->
  In i (deletes (log (HandleLabdaEvent w fuel t))) ->
  Getenv w "DRY_RUN" = "--dry-run"
  /\ exists d created,
       In d (notices (getDefaultedUsers w fuel t))
       /\ AccessKeyMetadata.CreateDate (defaultedUser.Key d) = Some created
       /\ AccessKeyMetadata.AccessKeyId (defaultedUser.Key d)
          = Some (DeleteAccessKeyInput.AccessKeyId i)
       /\ DeleteAccessKeyInput.UserName i = defaultedUser.UserName d
       /\ exceeds now created 50 = true.
Proof.
  intros F I. rewrite HandleLabdaEvent_run in I. unfold notices.
  destruct (LoadDefaultConfig w) as [err|]; [destruct I|]. cbv zeta in I.
  pose proof (getDefaultedUsers_enumerating w fuel t) as Q.
  pose proof (getDefaultedUsers_populated w fuel t) as K.
  unfold notices in K.
  destruct (out (getDefaultedUsers w fuel t)) as [[l [e|]]| |];
    cbn [log] in I;
    rewrite ?deletes_app, (enumerating_deletes _ Q) in I;
    try destruct I.
  cbn [app] in I.
  rewrite (HandleLabdaEvent_loop_deletes w now _ _ F l _ K) in I.
  apply in_flat_map in I. destruct I as (d & Hd & I).
  unfold deletionOf in I.
  destruct (AccessKeyMetadata.CreateDate (defaultedUser.Key d))
    as [created|] eqn:C; [|destruct I].
  destruct (AccessKeyMetadata.AccessKeyId (defaultedUser.Key d))
    as [id|] eqn:Ei; [|destruct I].
  destruct (exceeds now created 50) eqn:X; [|destruct I].
  destruct (String.eqb (Getenv w "DRY_RUN") "--dry-run") eqn:S;
    [|destruct I].
  destruct I as [<-|[]]. apply String.eqb_eq in S.
  split; [exact S|]. exists d, created. repeat split; auto.
Qed.

Lemma deletes_only_old_keys_witness :
  frozen carolWorld today
  /\ In (DeleteAccessKeyInput.mk "AKIACAROL" "carol")
       (deletes (log (HandleLabdaEvent carolWorld 1 O)))
  /\ Getenv carolWorld "DRY_RUN" = "--dry-run".
Proof.
  assert (F : frozen carolWorld today) by (intro k; reflexivity).
  assert (I : In (DeleteAccessKeyInput.mk "AKIACAROL" "carol")
                (deletes (log (HandleLabdaEvent carolWorld 1 O))))
    by (left; reflexivity).
  split; [exact F|]. split; [exact I|].
  exact (proj1 (deletes_only_old_keys carolWorld today 1 O _ F I)).
Defined.

(** X15.  On an account without users (one empty page, no marker) a handler
    whose configuration loaded makes the one listing call and nothing else,
    reads no clock, and returns nil. *)
Theorem empty_account w fuel t :
  LoadDefaultConfig w = None ->
  ListUsers w (ListUsersInput.mk None) = Ok (ListUsersOutput.mk [] None) ->
  HandleLabdaEvent w (S fuel) t
  = mkRun (Done None) t
      [EvListUsers (ListUsersInput.mk None) (Ok (ListUsersOutput.mk [] None))].
Proof.
  intros C E. rewrite HandleLabdaEvent_run, C. cbv zeta.
  rewrite getDefaultedUsers_run. cbv zeta. unfold listAllUsers.
  rewrite listAllUsers_loop_step, E. reflexivity.
Qed.

Lemma empty_account_witness :
  HandleLabdaEvent (account "--dry-run" [] bobTags bobKeys) 1 O
  = mkRun (Done None) O
      [EvListUsers (ListUsersInput.mk None) (Ok (ListUsersOutput.mk [] None))].
Proof.
  apply (empty_account (account "--dry-run" [] bobTags bobKeys) O O);
    reflexivity.
Defined.

(** * The program under a clock that moves *)

(** ** The age test *)

Lemma isKeyOld_chainAt w key created olderThan t :
  AccessKeyMetadata.CreateDate key = Some created ->
  (forall n, hd_error olderThan = Some n -> -106751 <= n <= 106751) ->
  isKeyOld w key olderThan t
  = mkRun (Done (fst (chainAt w created (hd_error olderThan) t)))
      (snd (chainAt w created (hd_error olderThan) t)) [].
Proof.
  intros E R. rewrite (isKeyOld_run w key created olderThan t E).
  cbv beta zeta. unfold chainAt.
  change (57 * 24 * Hour) with (57 * Day).
  change (50 * 24 * Hour) with (50 * Day).
  destruct olderThan as [|n rest]; cbn [hd_error].
  - rewrite !before_exceeds.
    destruct (exceeds (Now w t) created 57); [reflexivity|].
    destruct (exceeds (Now w (S t)) created 50); reflexivity.
  - rewrite override_duration by (apply R; reflexivity).
    rewrite !before_exceeds.
    destruct (exceeds (Now w t) created n); [reflexivity|].
    destruct (exceeds (Now w (S t)) created 57); [reflexivity|].
    destruct (exceeds (Now w (S (S t))) created 50); reflexivity.
Qed.

Lemma chainAt_frozen w now created override t :
  frozen w now ->
  fst (chainAt w created override t) = classify_spec now created override.
Proof.
  intro F. unfold chainAt, classify_spec. rewrite !F.
  destruct override as [n|].
  - destruct (exceeds now created n); [reflexivity|].
    destruct (exceeds now created 57); [reflexivity|].
    destruct (exceeds now created 50); reflexivity.
  - destruct (exceeds now created 57); [reflexivity|].
    destruct (exceeds now created 50); reflexivity.
Qed.

(** C3, as amended.  For every credential with a creation date, every clock
    and every start of the call, [isKeyOld] returns the first match of the
    chain, each test reading the clock anew and looking at the age at its
    own reading: an override of [n] days that is supplied, between -106751
    and 106751 days so that it fits the 64-bit duration, and that the age
    at the first reading exceeds gives old with the decimal of [n] as
    label; otherwise an age over 57 days at the next reading gives old with
    label 57; otherwise an age over 50 days at the reading after it gives
    old with label 50; otherwise not old with the empty label.  When the
    readings show one instant this is the chain of the claim at that
    instant. *)
Theorem isKeyOld_chain w key created olderThan t :
  AccessKeyMetadata.CreateDate key = Some created ->
  (forall n, hd_error olderThan = Some n -> -106751 <= n <= 106751) ->
  out (isKeyOld w key olderThan t)
  = Done (fst (chainAt w created (hd_error olderThan) t))
  /\ reads (isKeyOld w key olderThan t)
     = snd (chainAt w created (hd_error olderThan) t)
  /\ (forall now,
        frozen w now ->
        out (isKeyOld w key olderThan t)
        = Done (classify_spec now created (hd_error olderThan))).
Proof.
  intros E R. rewrite (isKeyOld_chainAt w key created olderThan t E R).
  cbn [out reads]. repeat split.
  intros now F. rewrite (chainAt_frozen w now created _ t F). reflexivity.
Qed.

Lemma isKeyOld_chain_witness :
  out (isKeyOld (ticking teamWorld) key57 [100] O) = Done (true, "57")
  /\ reads (isKeyOld (ticking teamWorld) key57 [100] O) = 2%nat
  /\ out (isKeyOld (ticking teamWorld) key50 [] 5%nat) = Done (true, "50")
  /\ out (isKeyOld teamWorld key50 [] 5%nat) = Done (false, "")
  /\ out (isKeyOld (aliceWorld "") aliceKey [100] O) = Done (true, "57").
Proof.
  assert (R : forall n, hd_error [100] = Some n -> -106751 <= n <= 106751)
    by (intros n H; injection H as <-; lia).
  assert (R0 : forall n,
             @hd_error Z [] = Some n -> -106751 <= n <= 106751)
    by (intros n H; discriminate H).
  split; [|split; [|split; [|split]]].
  - apply (proj1 (isKeyOld_chain (ticking teamWorld) key57 (daysAgo 57)
                    [100] O eq_refl R)).
  - apply (proj1 (proj2 (isKeyOld_chain (ticking teamWorld) key57
                           (daysAgo 57) [100] O eq_refl R))).
  - apply (proj1 (isKeyOld_chain (ticking teamWorld) key50 (daysAgo 50)
                    [] 5%nat eq_refl R0)).
  - apply (proj1 (isKeyOld_chain teamWorld key50 (daysAgo 50)
                    [] 5%nat eq_refl R0)).
  - apply (proj2 (proj2 (isKeyOld_chain (aliceWorld "") aliceKey
                           (daysAgo 60) [100] O eq_refl R)) today).
    intro k. reflexivity.
Defined.

(** The chain as the claim words it, for every override and with one current
    time, fails twice.  Where the override does not fit the duration: a key
    created this instant is found old under an override of 106752 days.
    And where the clock moves between two tests: a key of exactly 57 days
    at the start of the call, which the chain at that instant labels 50, is
    labelled 57 because the test of 57 days reads the clock a nanosecond
    later. *)
Lemma isKeyOld_chain_fails :
  (AccessKeyMetadata.CreateDate (accessKey "AKIAFRESH" today "alice")
   = Some today
   /\ out (isKeyOld (aliceWorld "") (accessKey "AKIAFRESH" today "alice")
             [106752] O)
      = Done (true, "106752")
   /\ classify_spec today today (Some 106752) = (false, "")
   /\ out (isKeyOld (aliceWorld "") (accessKey "AKIAFRESH" today "alice")
             [106752] O)
      <> Done (classify_spec today today (Some 106752)))
  /\ (Now (ticking teamWorld) O = today
      /\ AccessKeyMetadata.CreateDate key57 = Some (daysAgo 57)
      /\ out (isKeyOld (ticking teamWorld) key57 [100] O) = Done (true, "57")
      /\ classify_spec today (daysAgo 57) (Some 100) = (true, "50")
      /\ out (isKeyOld (ticking teamWorld) key57 [100] O)
         <> Done (classify_spec today (daysAgo 57) (Some 100))).
Proof.
  split.
  - repeat split; try (vm_compute; reflexivity).
    vm_compute. discriminate.
  - repeat split; try (vm_compute; reflexivity).
    vm_compute. discriminate.
Qed.

(** ** The notice list *)

Lemma no_override_in_range :
  forall n, @hd_error Z [] = Some n -> -106751 <= n <= 106751.
Proof. intros n H. discriminate H. Qed.

Lemma override_100_in_range :
  forall n, hd_error [100] = Some n -> -106751 <= n <= 106751.
Proof. intros n H. injection H as <-. lia. Qed.

Lemma getDefaultedUsers_keys_at w user email :
  forall keys acc t l,
    out (getDefaultedUsers_keys w user email keys acc t) = Done l ->
    l = acc ++ fst (keyNoticesAt w (userName user) email keys t)
    /\ reads (getDefaultedUsers_keys w user email keys acc t)
       = snd (keyNoticesAt w (userName user) email keys t).
Proof.
  induction keys as [|key rest IH]; intros acc t l H.
  - cbn in H. injection H as <-. cbn. rewrite app_nil_r. split; reflexivity.
  - rewrite getDefaultedUsers_keys_step in *. cbv zeta in *.
    cbn [keyNoticesAt].
    destruct (AccessKeyMetadata.CreateDate key) as [created|] eqn:E.
    2:{ rewrite (isKeyOld_nil w key [] t E) in H. discriminate H. }
    rewrite (isKeyOld_chainAt w key created [] t E no_override_in_range)
      in *.
    cbn [out reads hd_error] in *. cbv zeta.
    destruct (chainAt w created None t) as [[old days] t'].
    cbn [fst snd] in *. destruct old.
    + destruct (AccessKeyMetadata.AccessKeyId key) as [id|];
        [|discriminate H].
      unfold userName in *.
      destruct (User.UserName user) as [name|] eqn:En; [|discriminate H].
      cbn [preceded out reads] in *.
      destruct (IH _ _ _ H) as [-> ->].
      rewrite <- app_assoc. split; reflexivity.
    + destruct (IH _ _ _ H) as [-> ->]. split; reflexivity.
Qed.

Lemma getDefaultedUsers_users_at w fuel :
  forall users acc t l,
    out (getDefaultedUsers_users w fuel users acc t) = Done (l, None) ->
    l = acc ++ noticesAt w fuel users t.
Proof.
  induction users as [|user rest IH]; intros acc t l H.
  - cbn in H. injection H as <-. cbn. rewrite app_nil_r. reflexivity.
  - rewrite getDefaultedUsers_users_step in H. cbv zeta in H.
    cbn [noticesAt].
    rewrite <- (clockless_out _ (getUserEmailTag w fuel user) t)
      by apply clockless_getUserEmailTag.
    rewrite <- (clockless_out _ (listAllAccessKeys w fuel user) t)
      by apply clockless_listAllAccessKeys.
    destruct (out (getUserEmailTag w fuel user t)) as [[email [e|]]| |];
      try discriminate H.
    destruct (String.eqb email "").
    + cbn [preceded out] in H. exact (IH _ _ _ H).
    + destruct (out (listAllAccessKeys w fuel user t)) as [[keys [e|]]| |];
        try discriminate H.
      destruct (out (getDefaultedUsers_keys w user email keys acc t))
        as [l'| |] eqn:E; try discriminate H.
      cbn [preceded out] in H. cbv zeta.
      destruct (getDefaultedUsers_keys_at w user email keys acc t l' E)
        as [-> R].
      rewrite R in H. rewrite (IH _ _ _ H), <- app_assoc. reflexivity.
Qed.

(** C9.  On a successful enumeration, whatever the clock shows from one
    reading to the next, the notice list is made of the users in the order
    [listAllUsers] returned them and, within a user that has a non-empty
    address, of its keys in the order [listAllAccessKeys] returned them:
    exactly one record for every key that the chain of 57 and 50 days finds
    old at the readings of its turn, carrying the user's name, its address,
    the key and the threshold label, and no other record.  When the clock
    shows one instant [now] throughout, these are the keys old at [now]. *)
Theorem notices_in_discovery_order w fuel t l :
  out (getDefaultedUsers w fuel t) = Done (l, None) ->
  exists users,
    out (listAllUsers w fuel t) = Done (users, None)
    /\ l = noticesAt w fuel users t
    /\ (forall now,
          frozen w now -> l = flat_map (noticesOf w fuel now) users).
Proof.
  intros H. rewrite getDefaultedUsers_run in H. cbv zeta in H.
  destruct (out (listAllUsers w fuel t)) as [[users [e|]]| |];
    try discriminate H.
  exists users. split; [reflexivity|].
  cbn [preceded out] in H. split.
  - exact (getDefaultedUsers_users_at w fuel users [] t l H).
  - intros now F.
    exact (getDefaultedUsers_users_frozen w now fuel F users [] t l H).
Qed.

Lemma notices_in_discovery_order_witness :
  (exists users,
     out (listAllUsers (ticking teamWorld) 1 O) = Done (users, None)
     /\ [defaultedUser.mk "dave" "d@x.com" key57 "50";
         defaultedUser.mk "dave" "d@x.com" key50 "50";
         defaultedUser.mk "carol" "c@x.com" carolKey "57"]
        = noticesAt (ticking teamWorld) 1 users O)
  /\ (exists users,
        out (listAllUsers teamWorld 1 O) = Done (users, None)
        /\ [defaultedUser.mk "dave" "d@x.com" key57 "50";
            defaultedUser.mk "carol" "c@x.com" carolKey "57"]
           = flat_map (noticesOf teamWorld 1 today) users).
Proof.
  split.
  - destruct (notices_in_discovery_order (ticking teamWorld) 1 O _ eq_refl)
      as (users & U & N & _).
    exists users. split; [exact U|exact N].
  - destruct (notices_in_discovery_order teamWorld 1 O _ eq_refl)
      as (users & U & _ & F).
    exists users. split; [exact U|]. apply F. intro k. reflexivity.
Defined.

(** ** The loop over the notices *)

Lemma HandleLabdaEvent_loop_at w fromAddress dryRun :
  forall defaultedUsers t,
    Forall (fun d => key_populated (defaultedUser.Key d)) defaultedUsers ->
    actions
      (log (HandleLabdaEvent_loop w fromAddress dryRun defaultedUsers t))
    = actionsAt w fromAddress dryRun defaultedUsers t.
Proof.
  induction defaultedUsers as [|d rest IH]; intros t A; [reflexivity|].
  inversion A as [|? ? [Ki Kc] A']; subst.
  rewrite HandleLabdaEvent_loop_step. cbv zeta.
  cbn [preceded log actionsAt].
  rewrite actions_app, actions_sendEvents. cbn [app].
  destruct (AccessKeyMetadata.CreateDate (defaultedUser.Key d))
    as [created|] eqn:C; [|congruence].
  destruct (AccessKeyMetadata.AccessKeyId (defaultedUser.Key d))
    as [id|] eqn:I; [|congruence].
  rewrite (isKeyOld_chainAt w (defaultedUser.Key d) created [100] t C
             override_100_in_range).
  cbn [out reads hd_error]. cbv zeta.
  destruct (chainAt w created (Some 100) t) as [[old days] t'].
  cbn [fst snd]. f_equal.
  destruct old; cbn [andb]; [|apply IH; exact A'].
  destruct (String.eqb dryRun "--dry-run"); [|apply IH; exact A'].
  cbn [preceded log]. rewrite actions_app, actions_deleteEvents.
  cbn [app]. f_equal. apply IH. exact A'.
Qed.

(** C8.  A notification that fails is not fatal and decides nothing.
    Whatever the mail service answers to each request, and under any clock,
    a handler whose enumeration succeeded goes through the notices in
    order and for each of them hands its notification to the mail service,
    then tests its key with [isKeyOld] under the override of 100 days and
    issues the deletion when that test says old and the flag is the
    sentinel, then goes on to the next notice, and it returns nil.  With
    any other mail service the handler ends the same way and issues the
    same notification requests and the same deletion requests. *)
Theorem send_outcome_is_ignored w send fuel t :
  out (HandleLabdaEvent (with_SendEmail w send) fuel t)
  = out (HandleLabdaEvent w fuel t)
  /\ sends (log (HandleLabdaEvent (with_SendEmail w send) fuel t))
     = sends (log (HandleLabdaEvent w fuel t))
  /\ deletes (log (HandleLabdaEvent (with_SendEmail w send) fuel t))
     = deletes (log (HandleLabdaEvent w fuel t))
  /\ (forall l,
        LoadDefaultConfig w = None ->
        out (getDefaultedUsers w fuel t) = Done (l, None) ->
        sends (log (HandleLabdaEvent w fuel t))
        = map (notification (Getenv w "EMAIL_FROM_ADDRESS")) l)
  /\ (forall l,
        LoadDefaultConfig w = None ->
        out (getDefaultedUsers w fuel t) = Done (l, None) ->
        out (HandleLabdaEvent (with_SendEmail w send) fuel t) = Done None
        /\ actions (log (HandleLabdaEvent (with_SendEmail w send) fuel t))
           = actionsAt w (Getenv w "EMAIL_FROM_ADDRESS")
               (Getenv w "DRY_RUN") l (reads (getDefaultedUsers w fuel t))).
Proof.
  destruct (HandleLabdaEvent_mail w send fuel t) as (H1 & H2 & H3).
  pose proof (getDefaultedUsers_populated w fuel t) as K.
  pose proof (getDefaultedUsers_enumerating w fuel t) as Q.
  unfold notices in K.
  split; [exact H1|]. split; [exact H2|]. split; [exact H3|]. split.
  - intros l C E. rewrite HandleLabdaEvent_run, C. cbv zeta.
    rewrite E in *. cbn [log].
    rewrite sends_app, (enumerating_sends _ Q). cbn [app].
    apply HandleLabdaEvent_loop_sends. exact K.
  - intros l C E. split.
    + rewrite H1, HandleLabdaEvent_out, C, E. reflexivity.
    + rewrite HandleLabdaEvent_run.
      change (LoadDefaultConfig (with_SendEmail w send))
        with (LoadDefaultConfig w).
      rewrite C. cbv zeta. rewrite getDefaultedUsers_mail.
      change (Getenv (with_SendEmail w send)) with (Getenv w).
      rewrite E in *. cbn [log].
      rewrite actions_app, (enumerating_actions _ Q). cbn [app].
      rewrite (HandleLabdaEvent_loop_at (with_SendEmail w send) _ _ l _ K).
      clear. generalize (reads (getDefaultedUsers w fuel t)).
      induction l as [|d rest IH]; intro n; [reflexivity|].
      cbn [actionsAt].
      destruct (AccessKeyMetadata.CreateDate (defaultedUser.Key d));
        [|reflexivity].
      destruct (AccessKeyMetadata.AccessKeyId (defaultedUser.Key d));
        [|reflexivity].
      change (chainAt (with_SendEmail w send)) with (chainAt w).
      rewrite IH. reflexivity.
Qed.

Lemma send_outcome_is_ignored_witness :
  (forall i, SendEmail (with_SendEmail seniorWorld rejecting) i
             = Some "MessageRejected")
  /\ out (HandleLabdaEvent (with_SendEmail seniorWorld rejecting) 1 O)
     = Done None
  /\ actions (log (HandleLabdaEvent (with_SendEmail seniorWorld rejecting)
                     1 O))
     = [inl (notification "ops@x.com"
               (defaultedUser.mk "bob" "b@x.com" bobKey "57"));
        inr (DeleteAccessKeyInput.mk "AKIABOB" "bob");
        inl (notification "ops@x.com" carolNotice);
        inr (DeleteAccessKeyInput.mk "AKIACAROL" "carol")]
  /\ sends (log (HandleLabdaEvent seniorWorld 1 O))
     = [notification "ops@x.com"
          (defaultedUser.mk "bob" "b@x.com" bobKey "57");
        notification "ops@x.com" carolNotice].
Proof.
  destruct (send_outcome_is_ignored seniorWorld rejecting 1 O)
    as (_ & _ & _ & H4 & H5).
  split; [reflexivity|].
  destruct (H5 _ eq_refl eq_refl) as [O5 A5].
  split; [exact O5|]. split; [rewrite A5; reflexivity|].
  rewrite (H4 _ eq_refl eq_refl). reflexivity.
Defined.

(** ** Nil fields *)







